(** * Inspection validation and lot disposition

    A shallow embedding of the inspection core of the quality-control
    dashboard:

    - [Js]        : the fragment of JavaScript the code relies on (IEEE
                    binary64 numbers, relational operators, truthiness);
    - [Static]    : [hooks/useInspection.ts] (static spec validator);
    - [Dynamic]   : [components/features/quality/DynamicInspectionForm]
                    (dynamic field validator);
    - [Inspector] : [components/dashboard/inspector-view] (lot
                    disposition handlers and the events of the view).

    The definitions come first; the theorems about them follow. *)

From Stdlib Require Import ZArith Bool List String Lia Permutation.
From Stdlib Require Import Floats.PrimFloat Floats.SpecFloat Floats.FloatOps.
Import ListNotations.

Set Warnings "-inexact-float".

(* ================================================================== *)
(** ** JavaScript values *)
(* ================================================================== *)

Module Js.

(** A JS [number] is an IEEE 754 binary64 value.  It is represented by
    the Standard Library's [spec_float], which has signed zeros,
    infinities and NaN.  The type also holds mantissa and exponent pairs
    that encode no binary64 value; nothing below depends on their
    absence. *)
Definition number : Type := spec_float.

(** Literals are written as primitive floats and converted once. *)
Definition lit (f : float) : number := Prim2SF f.

Definition NaN : number := S754_nan.
Definition zero : number := S754_zero false.
Definition one : number := Eval vm_compute in lit 1%float.

Definition isNaN (x : number) : bool :=
  match x with
  | S754_nan => true
  | _ => false
  end.

(** ECMA-262 [IsLessThan] on numbers: [None] is the "undefined" answer
    given when an operand is NaN. *)
Definition IsLessThan (x y : number) : option bool :=
  match SFcompare x y with
  | None => None
  | Some Lt => Some true
  | Some _ => Some false
  end.

Definition is_true_answer (r : option bool) : bool :=
  match r with Some true => true | _ => false end.

Definition is_false_answer (r : option bool) : bool :=
  match r with Some false => true | _ => false end.

(** The four relational operators, as ECMA-262 derives them from
    [IsLessThan]: [x < y], [x > y], [x <= y], [x >= y]. *)
Definition lt (x y : number) : bool := is_true_answer (IsLessThan x y).
Definition gt (x y : number) : bool := is_true_answer (IsLessThan y x).
Definition le (x y : number) : bool := is_false_answer (IsLessThan y x).
Definition ge (x y : number) : bool := is_false_answer (IsLessThan x y).

(** The primitive values the inspection code handles:
    [number | boolean | string | null]. *)
Inductive value : Type :=
| JNull
| JNumber (n : number)
| JBoolean (b : bool)
| JString (s : string).

(** [ToBoolean]: what [!v] and [v ? a : b] test. *)
Definition ToBoolean (v : value) : bool :=
  match v with
  | JNull => false
  | JNumber n =>
      match n with
      | S754_zero _ | S754_nan => false
      | _ => true
      end
  | JBoolean b => b
  | JString s => negb (String.eqb s EmptyString)
  end.

(** [v === null] and [v === ""]. *)
Definition isNull (v : value) : bool :=
  match v with JNull => true | _ => false end.

Definition isEmptyString (v : value) : bool :=
  match v with JString s => String.eqb s EmptyString | _ => false end.

Section Coercion.
(** [StringToNumber] is the runtime's parser of numeric strings; the
    code never defines it, so it is a parameter of the model. *)
Variable StringToNumber : string -> number.

(** [ToNumber], applied by [<] and [>] to an operand that is not a
    number. *)
Definition ToNumber (v : value) : number :=
  match v with
  | JNull => zero
  | JNumber n => n
  | JBoolean b => if b then one else zero
  | JString s => StringToNumber s
  end.
End Coercion.

End Js.

(** The status of one inspected entry, shared by both validators. *)
Inductive Status : Type := Pending | Pass | Fail.

Definition Status_eqb (a b : Status) : bool :=
  match a, b with
  | Pending, Pending | Pass, Pass | Fail, Fail => true
  | _, _ => false
  end.

(** [xs.filter(p).length] *)
Definition count {A : Type} (p : A -> bool) (xs : list A) : nat :=
  List.length (filter p xs).

(* ================================================================== *)
(** ** Static spec validator: [hooks/useInspection.ts] *)
(* ================================================================== *)

Module Static.

(** [InspectionSpec] of [lib/data].  The identifiers are the integers
    the template numbers its entries with. *)
Record InspectionSpec : Type := {
  id : Z;
  characteristic : string;
  tool : string;
  min : Js.number;
  max : Js.number;
  actual : option Js.number;
  status : Status
}.

Definition calculateStatus
    (actual : option Js.number) (min max : Js.number) : Status :=
  match actual with
  | None => Pending
  | Some a => if Js.ge a min && Js.le a max then Pass else Fail
  end.

(** The object spread [{ ...spec, actual, status }]. *)
Definition withReading
    (spec : InspectionSpec) (a : option Js.number) (st : Status)
    : InspectionSpec :=
  {| id := id spec;
     characteristic := characteristic spec;
     tool := tool spec;
     min := min spec;
     max := max spec;
     actual := a;
     status := st |}.

(** The three [useState] cells of the hook. *)
Record State : Type := {
  specs : list InspectionSpec;
  lotReleased : bool;
  lotRejected : bool
}.

Definition setSpecs (f : list InspectionSpec -> list InspectionSpec)
    (st : State) : State :=
  {| specs := f (specs st);
     lotReleased := lotReleased st;
     lotRejected := lotRejected st |}.

Definition setLotReleased (released : bool) (st : State) : State :=
  {| specs := specs st;
     lotReleased := released;
     lotRejected := lotRejected st |}.

Definition setLotRejected (rejected : bool) (st : State) : State :=
  {| specs := specs st;
     lotReleased := lotReleased st;
     lotRejected := rejected |}.

(** The function mapped over the list by [updateSpec]. *)
Definition updateEntry (i : Z) (a : option Js.number)
    (spec : InspectionSpec) : InspectionSpec :=
  if negb (id spec =? i)%Z then spec
  else withReading spec a (calculateStatus a (min spec) (max spec)).

Definition updateSpec (i : Z) (a : option Js.number) (st : State) : State :=
  setSpecs (fun prevSpecs => map (updateEntry i a) prevSpecs) st.

Section Hook.
(** The hook's argument; it is captured once and never changes. *)
Variable initialSpecs : list InspectionSpec.

(** State of the first render. *)
Definition useInspection : State :=
  {| specs := initialSpecs; lotReleased := false; lotRejected := false |}.

Definition resetSpecs (st : State) : State :=
  setLotRejected false
    (setLotReleased false
       (setSpecs
          (fun _ => map (fun spec => withReading spec None Pending)
                        initialSpecs)
          st)).

(** The mutators the hook hands to its caller. *)
Inductive Op : Type :=
| UpdateSpec (i : Z) (a : option Js.number)
| ResetSpecs
| SetLotReleased (released : bool)
| SetLotRejected (rejected : bool).

Definition apply (st : State) (op : Op) : State :=
  match op with
  | UpdateSpec i a => updateSpec i a st
  | ResetSpecs => resetSpecs st
  | SetLotReleased b => setLotReleased b st
  | SetLotRejected b => setLotRejected b st
  end.

Definition run (ops : list Op) : State :=
  fold_left apply ops useInspection.
End Hook.

(** Derived values, recomputed from [specs] on every render. *)
Definition passCount (specs : list InspectionSpec) : nat :=
  count (fun s => Status_eqb (status s) Pass) specs.
Definition failCount (specs : list InspectionSpec) : nat :=
  count (fun s => Status_eqb (status s) Fail) specs.
Definition pendingCount (specs : list InspectionSpec) : nat :=
  count (fun s => Status_eqb (status s) Pending) specs.
Definition allPassed (specs : list InspectionSpec) : bool :=
  (passCount specs =? List.length specs)%nat && (0 <? List.length specs)%nat.
Definition hasFailed (specs : list InspectionSpec) : bool :=
  (0 <? failCount specs)%nat.

(** The data-model invariant: the stored status is the one computed
    from the stored reading and bounds. *)
Definition consistent (s : InspectionSpec) : Prop :=
  status s = calculateStatus (actual s) (min s) (max s).

(** [INITIAL_SPECS] of [lib/data]. *)
Definition mkSpec (i : Z) (c t : string) (lo hi : float) : InspectionSpec :=
  {| id := i; characteristic := c; tool := t;
     min := Js.lit lo; max := Js.lit hi;
     actual := None; status := Pending |}.

Definition INITIAL_SPECS : list InspectionSpec :=
  Eval vm_compute in
  [ mkSpec 1 "Distancia" "Vernier" 0.47 0.53;
    mkSpec 2 "Radio" "Vernier" 0.22 0.28;
    mkSpec 3 "Diametro Hole" "Pin Gauge" 0.25 0.31;
    mkSpec 4 "Angulo" "Protractor" 44.5 45.5 ].

(** The one-entry template of the end-to-end scenarios. *)
Definition oneSpec : list InspectionSpec :=
  Eval vm_compute in [ mkSpec 1 "Distancia" "Vernier" 0.47 0.53 ].

(** Sample readings used to exercise the definitions. *)
Definition bound_047 : Js.number := Eval vm_compute in Js.lit 0.47.
Definition bound_053 : Js.number := Eval vm_compute in Js.lit 0.53.
Definition reading_040 : Js.number := Eval vm_compute in Js.lit 0.40.
Definition reading_050 : Js.number := Eval vm_compute in Js.lit 0.50.
Definition reading_060 : Js.number := Eval vm_compute in Js.lit 0.60.
Definition reading_025 : Js.number := Eval vm_compute in Js.lit 0.25.
Definition reading_028 : Js.number := Eval vm_compute in Js.lit 0.28.
Definition reading_450 : Js.number := Eval vm_compute in Js.lit 45.

(** The template with the first reading out of tolerance, and with all
    four readings in tolerance. *)
Definition oneFailure : list InspectionSpec :=
  specs (updateSpec 1 (Some reading_060) (useInspection INITIAL_SPECS)).

Definition allWithin : list InspectionSpec :=
  specs (run INITIAL_SPECS
           [UpdateSpec 1 (Some reading_050);
            UpdateSpec 2 (Some reading_025);
            UpdateSpec 3 (Some reading_028);
            UpdateSpec 4 (Some reading_450)]).

End Static.

(* ================================================================== *)
(** ** Dynamic field validator: [DynamicInspectionForm] *)
(* ================================================================== *)

Module Dynamic.

Inductive FieldType : Type := numeric | boolean | select.

(** Modelled from the spec: the declarations of [FieldDefinition] and
    [InspectionValue] in [lib/data] are not among the sources; the
    fields are those of the data model, with the optional ones
    ([min?], [max?], [options?], [tool?]) as [option], [None] standing
    for [undefined]. *)
Record FieldDefinition : Type := {
  id : string;
  name : string;
  type : FieldType;
  required : bool;
  min : option Js.number;
  max : option Js.number;
  options : option (list string);
  tool : option string
}.

Record InspectionValue : Type := {
  fieldId : string;
  value : Js.value;
  status : Status
}.

(** The TypeScript annotations of the three helpers ([number | null],
    [boolean | null], [string | null]) are erased at run time and
    [updateValue] reaches them through unchecked [as] assertions, so
    each helper is modelled on every [Js.value] it can be handed. *)

Section Validation.
Variable StringToNumber : string -> Js.number.

Definition validateNumericField
    (value : Js.value) (min max : option Js.number) : Status :=
  if Js.isNull value then Pending
  else if match min with
          | Some lo => Js.lt (Js.ToNumber StringToNumber value) lo
          | None => false
          end
  then Fail
  else if match max with
          | Some hi => Js.gt (Js.ToNumber StringToNumber value) hi
          | None => false
          end
  then Fail
  else Pass.

Definition validateBooleanField (value : Js.value) : Status :=
  if Js.isNull value then Pending
  else if Js.ToBoolean value then Pass else Fail.

Definition validateSelectField
    (value : Js.value) (required : bool) : Status :=
  if required && (negb (Js.ToBoolean value) || Js.isEmptyString value)
  then Pending
  else if Js.ToBoolean value then Pass else Pending.

(** [values.find(v => v.fieldId === fieldId) || { ... }] *)
Definition getValue (values : list InspectionValue) (fieldId' : string)
    : InspectionValue :=
  match find (fun v => String.eqb (fieldId v) fieldId') values with
  | Some v => v
  | None => {| fieldId := fieldId'; value := Js.JNull; status := Pending |}
  end.

(** The list handed to [onValuesChange]. *)
Definition updateValue (values : list InspectionValue)
    (fieldId' : string) (newValue : Js.value) (field : FieldDefinition)
    : list InspectionValue :=
  let status :=
    match type field with
    | numeric => validateNumericField newValue (min field) (max field)
    | boolean => validateBooleanField newValue
    | select => validateSelectField newValue (required field)
    end in
  let newValues :=
    filter (fun v => negb (String.eqb (fieldId v) fieldId')) values in
  newValues ++
    [ {| fieldId := fieldId'; value := newValue; status := status |} ].

(** One edit of the form, and the replay of a sequence of edits from
    the hook's initial [values = []]. *)
Definition Edit : Type := (string * Js.value * FieldDefinition)%type.

Definition applyEdit (values : list InspectionValue) (e : Edit)
    : list InspectionValue :=
  let '(f, v, d) := e in updateValue values f v d.

Definition replay (edits : list Edit) : list InspectionValue :=
  fold_left applyEdit edits [].
End Validation.

(** The value the numeric input hands to [updateValue], its only way
    to [validateNumericField]:
    [e.target.value === "" ? null : parseFloat(e.target.value)]. *)
Definition numericInput (parseFloat : string -> Js.number) (text : string)
    : Js.value :=
  if String.eqb text EmptyString then Js.JNull
  else Js.JNumber (parseFloat text).

(** The predicate of the filter in [updateValue]: the entries of the
    other fields. *)
Definition others (f : string) (v : InspectionValue) : bool :=
  negb (String.eqb (fieldId v) f).

(** [stats] of [useDynamicInspection]. *)
Record Stats : Type := {
  total : nat;
  completed : nat;
  passed : nat;
  failed : nat;
  allInspected : bool;
  allPass : bool;
  hasFailures : bool
}.

Definition stats (fields : list FieldDefinition)
    (values : list InspectionValue) : Stats :=
  let total := List.length fields in
  let completed :=
    count (fun v => negb (Status_eqb (status v) Pending)) values in
  let passed := count (fun v => Status_eqb (status v) Pass) values in
  let failed := count (fun v => Status_eqb (status v) Fail) values in
  let allInspected := (completed =? total)%nat in
  let allPass := allInspected && (failed =? 0)%nat && (0 <? total)%nat in
  let hasFailures := (0 <? failed)%nat in
  {| total := total; completed := completed; passed := passed;
     failed := failed; allInspected := allInspected; allPass := allPass;
     hasFailures := hasFailures |}.

(** The claim about numeric fields, in the spec's words: with a value
    present, Pass exactly when each defined bound is respected, and
    Fail otherwise. *)
Definition withinBounds (v : Js.number) (min max : option Js.number)
    : Prop :=
  (min = None \/ exists lo, min = Some lo /\ Js.ge v lo = true) /\
  (max = None \/ exists hi, max = Some hi /\ Js.le v hi = true).

Definition numeric_rule (stn : string -> Js.number)
    (v : Js.number) (min max : option Js.number) : Prop :=
  (validateNumericField stn (Js.JNumber v) min max = Pass
     <-> withinBounds v min max) /\
  (validateNumericField stn (Js.JNumber v) min max = Fail
     <-> ~ withinBounds v min max).

(** A bound that is a number, when it is defined at all. *)
Definition orderedBound (b : option Js.number) : Prop :=
  match b with
  | Some x => Js.isNaN x = false
  | None => True
  end.

(** Sample data used to exercise the definitions. *)
Definition noStrings (_ : string) : Js.number := Js.NaN.

Definition mkField (i : string) (t : FieldType) (req : bool)
    (lo hi : option Js.number) : FieldDefinition :=
  {| id := i; name := i; type := t; required := req;
     min := lo; max := hi; options := None; tool := None |}.

Definition diameter : FieldDefinition :=
  Eval vm_compute in
  mkField "diameter" numeric true
    (Some (Js.lit 0.47)) (Some (Js.lit 0.53)).

Definition finish : FieldDefinition :=
  mkField "finish" select true None None.

(** A numeric field with a maximum only. *)
Definition runout : FieldDefinition :=
  Eval vm_compute in
  mkField "runout" numeric false None (Some (Js.lit 0.53)).

End Dynamic.

(* ================================================================== *)
(** ** Lot disposition: [components/dashboard/inspector-view] *)
(* ================================================================== *)

Module Inspector.

Inductive DialogKind : Type := approve | reject.

(** What a handler does to the outside world. *)
Inductive Effect : Type :=
| ToastError (title description : string)
| ToastSuccess (title description : string)
| GenerateCertificatePDF.

(** How a call of [generateCertificatePDF] ends. *)
Inductive PdfOutcome : Type := Downloaded | Threw.

(** The view with the state it is rendered from: the parent's three
    cells (passed down as props together with their setters), the
    [isReadOnly] prop and the view's own [confirmDialog] cell.  The
    pages that render the view keep the same three cells as the hook
    and update them with the same function. *)
Record View : Type := {
  parent : Static.State;
  isReadOnly : bool;
  confirmDialog : option DialogKind
}.

Definition inspectionSpecs (v : View) : list Static.InspectionSpec :=
  Static.specs (parent v).
Definition lotReleased (v : View) : bool := Static.lotReleased (parent v).
Definition lotRejected (v : View) : bool := Static.lotRejected (parent v).

(** Values derived at render time. *)
Definition hasFailures (specs : list Static.InspectionSpec) : bool :=
  existsb (fun s => Status_eqb (Static.status s) Fail) specs.
Definition allInspected (specs : list Static.InspectionSpec) : bool :=
  forallb (fun s => match Static.actual s with
                    | Some _ => true
                    | None => false
                    end) specs.
Definition allPass (specs : list Static.InspectionSpec) : bool :=
  allInspected specs && negb (hasFailures specs).

(** *** Handlers as actions

    An action transforms the view's state, logs its effects in order
    and completes normally or by throwing. *)
Inductive Completion : Type := Normal | Throw.

Definition Act : Type := View -> Completion * View * list Effect.

Definition completion (r : Completion * View * list Effect) : Completion :=
  fst (fst r).
Definition after (r : Completion * View * list Effect) : View :=
  snd (fst r).
Definition effects (r : Completion * View * list Effect) : list Effect :=
  snd r.

Definition seq (a b : Act) : Act :=
  fun v =>
    match a v with
    | (Normal, v1, l1) =>
        let '(c, v2, l2) := b v1 in (c, v2, l1 ++ l2)
    | (Throw, v1, l1) => (Throw, v1, l1)
    end.

Definition try_catch (body handler : Act) : Act :=
  fun v =>
    match body v with
    | (Throw, v1, l1) =>
        let '(c, v2, l2) := handler v1 in (c, v2, l1 ++ l2)
    | r => r
    end.

Definition emit (e : Effect) : Act := fun v => (Normal, v, [e]).
Definition modify (f : View -> View) : Act := fun v => (Normal, f v, []).

Declare Scope act_scope.
Delimit Scope act_scope with act.
Bind Scope act_scope with Act.
Notation "a ;; b" := (seq a b)
  (at level 61, right associativity) : act_scope.
Local Open Scope act_scope.

Definition toast_error (title description : string) : Act :=
  emit (ToastError title description).
Definition toast_success (title description : string) : Act :=
  emit (ToastSuccess title description).

Definition setConfirmDialog (d : option DialogKind) : Act :=
  modify (fun v => {| parent := parent v;
                      isReadOnly := isReadOnly v;
                      confirmDialog := d |}).

Definition onParent (f : Static.State -> Static.State) : Act :=
  modify (fun v => {| parent := f (parent v);
                      isReadOnly := isReadOnly v;
                      confirmDialog := confirmDialog v |}).

Definition setLotReleased (b : bool) : Act :=
  onParent (Static.setLotReleased b).
Definition setLotRejected (b : bool) : Act :=
  onParent (Static.setLotRejected b).
Definition onUpdateSpec (i : Z) (a : option Js.number) : Act :=
  onParent (Static.updateSpec i a).

(** The call is logged, then it returns or throws. *)
Definition generateCertificatePDF (pdf : PdfOutcome) : Act :=
  fun v =>
    match pdf with
    | Downloaded => (Normal, v, [GenerateCertificatePDF])
    | Threw => (Throw, v, [GenerateCertificatePDF])
    end.

Definition reasonFailures : Effect :=
  ToastError "Cannot approve: there are out-of-tolerance readings"
             "All dimensional inspections must pass before release.".

Definition reasonIncomplete : Effect :=
  ToastError "Cannot approve: not all characteristics inspected"
             "Please enter actual readings for all characteristics.".

Definition noticeCertificate : Effect :=
  ToastError "Error generating certificate"
             "Please try again or contact support.".

Definition handleApprove (pdf : PdfOutcome) : Act :=
  fun v =>
    (if hasFailures (inspectionSpecs v) then
       emit reasonFailures ;; setConfirmDialog None
     else if negb (allInspected (inspectionSpecs v)) then
       emit reasonIncomplete ;; setConfirmDialog None
     else
       try_catch
         (generateCertificatePDF pdf ;;
          toast_success "Lot #296039 APPROVED for release"
            "Certificate of Conformance generated and downloaded.")
         (emit noticeCertificate) ;;
       setLotReleased true ;;
       setConfirmDialog None) v.

Definition handleReject : Act :=
  setLotRejected true ;;
  setConfirmDialog None ;;
  toast_error "Lot #296039 REJECTED"
    "Non-conformance report will be generated.".

Section Events.
(** [Number.parseFloat] belongs to the runtime. *)
Variable parseFloat : string -> Js.number.
(** The template the parent resets to at the end of a shift. *)
Variable initialSpecs : list Static.InspectionSpec.

Definition handleActualChange (i : Z) (value : string) : Act :=
  let num :=
    if String.eqb value EmptyString then None
    else Some (parseFloat value) in
  onUpdateSpec i num.

(** What the user can do to the rendered view. *)
Inductive Event : Type :=
| ChangeActual (i : Z) (text : string)
| ClickApprove
| ClickReject
| CancelDialog
| ConfirmDialog (pdf : PdfOutcome)
| EndShift.

Definition skip : Act := fun v => (Normal, v, []).

(** An event runs its handler only if the control it comes from is
    rendered and enabled: the reading inputs are disabled once the
    lot is released or rejected or the view is read-only; the two
    verdict buttons are replaced by a banner once the lot is
    released or rejected; the confirm button exists inside the open
    dialog only and calls the handler of the dialog's kind. *)
Definition dispatch (e : Event) : Act :=
  fun v =>
    match e with
    | ChangeActual i text =>
        if lotReleased v || lotRejected v || isReadOnly v then skip v
        else handleActualChange i text v
    | ClickApprove =>
        if lotReleased v then skip v
        else if lotRejected v then skip v
        else setConfirmDialog (Some approve) v
    | ClickReject =>
        if lotReleased v then skip v
        else if lotRejected v then skip v
        else setConfirmDialog (Some reject) v
    | CancelDialog => setConfirmDialog None v
    | ConfirmDialog pdf =>
        match confirmDialog v with
        | None => skip v
        | Some approve => handleApprove pdf v
        | Some reject => handleReject v
        end
    | EndShift => onParent (Static.resetSpecs initialSpecs) v
    end.

Definition step (v : View) (e : Event) : View := after (dispatch e v).

Definition mount (readOnly : bool) : View :=
  {| parent := Static.useInspection initialSpecs;
     isReadOnly := readOnly;
     confirmDialog := None |}.

Definition session (readOnly : bool) (es : list Event) : View :=
  fold_left step es (mount readOnly).
End Events.

(** A view in the [Open] state over a given list of specifications. *)
Definition openView (specs : list Static.InspectionSpec) : View :=
  {| parent := {| Static.specs := specs;
                  Static.lotReleased := false;
                  Static.lotRejected := false |};
     isReadOnly := false;
     confirmDialog := Some approve |}.

(** The events that carry out the [Open -> Released] transition: a
    confirmation of the approval dialog with both guards satisfied. *)
Definition releases (e : Event) (v : View) : bool :=
  match e, confirmDialog v with
  | ConfirmDialog _, Some approve => allPass (inspectionSpecs v)
  | _, _ => false
  end.

(** What holds of every view the user can reach: a dialog is open only
    on an open lot, and the two flags are not both set. *)
Definition disposition_invariant (v : View) : Prop :=
  (lotReleased v || lotRejected v = true -> confirmDialog v = None) /\
  lotReleased v && lotRejected v = false.

(** A stand-in for [Number.parseFloat] on the few texts typed in the
    scenarios below. *)
Definition sampleParse (text : string) : Js.number :=
  if String.eqb text "0.40" then Static.reading_040
  else if String.eqb text "0.50" then Static.reading_050
  else if String.eqb text "0.60" then Static.reading_060
  else Js.NaN.

(** A rejected lot on which the approval handler is run all the same. *)
Definition rejectedView (specs : list Static.InspectionSpec) : View :=
  {| parent := {| Static.specs := specs;
                  Static.lotReleased := false;
                  Static.lotRejected := true |};
     isReadOnly := false;
     confirmDialog := Some approve |}.

Definition certificateCalls (l : list Effect) : nat :=
  count (fun e => match e with
                  | GenerateCertificatePDF => true
                  | _ => false
                  end) l.

End Inspector.

(* ================================================================== *)
(** ** The pages that render the view: [app/page.tsx] *)
(* ================================================================== *)

Module Page.

(** [handleUpdateSpec]: the page's own copy of the update, passed to the
    view as [onUpdateSpec].  It works on the list held by the page. *)
Definition handleUpdateSpec (i : Z) (a : option Js.number)
    (prev : list Static.InspectionSpec) : list Static.InspectionSpec :=
  map (fun spec =>
         if negb (Static.id spec =? i)%Z then spec
         else
           match a with
           | None => Static.withReading spec None Pending
           | Some x =>
               let status :=
                 if Js.ge x (Static.min spec) && Js.le x (Static.max spec)
                 then Pass else Fail in
               Static.withReading spec (Some x) status
           end)
      prev.

(** The part of [handleEndShift] that concerns the inspection: the
    three cells are overwritten with the template and [false]. *)
Definition handleEndShift (_ : Static.State) : Static.State :=
  {| Static.specs := Static.INITIAL_SPECS;
     Static.lotReleased := false;
     Static.lotRejected := false |}.

(** An entry as the template holds it: no reading, Pending. *)
Definition cleared (s : Static.InspectionSpec) : Prop :=
  Static.actual s = None /\ Static.status s = Pending.

End Page.

(* ================================================================== *)
(** ** Sessions of the view, with their effects *)
(* ================================================================== *)

Module Shift.

Section Runs.
Variable parseFloat : string -> Js.number.
Variable initialSpecs : list Static.InspectionSpec.

(** The session continued from a given view. *)
Definition continue (v : Inspector.View) (es : list Inspector.Event)
    : Inspector.View :=
  fold_left (Inspector.step parseFloat initialSpecs) es v.

(** The view together with everything emitted so far. *)
Definition stepLog (acc : Inspector.View * list Inspector.Effect)
    (e : Inspector.Event) : Inspector.View * list Inspector.Effect :=
  let r := Inspector.dispatch parseFloat initialSpecs e (fst acc) in
  (Inspector.after r, snd acc ++ Inspector.effects r).

Definition sessionLog (readOnly : bool) (es : list Inspector.Event)
    : Inspector.View * list Inspector.Effect :=
  fold_left stepLog es (Inspector.mount initialSpecs readOnly, []).
End Runs.

Definition isEndShift (e : Inspector.Event) : bool :=
  match e with
  | Inspector.EndShift => true
  | _ => false
  end.

(** A stretch of events within one shift. *)
Definition withinShift (es : list Inspector.Event) : Prop :=
  Forall (fun e => isEndShift e = false) es.

(** The release decision is backed by the readings. *)
Definition release_sound (v : Inspector.View) : Prop :=
  Inspector.lotReleased v = true ->
  Inspector.allPass (Inspector.inspectionSpecs v) = true.

(** The template with every entry as [resetSpecs] leaves it. *)
Definition clearedTemplate (init : list Static.InspectionSpec)
    : list Static.InspectionSpec :=
  map (fun spec => Static.withReading spec None Pending) init.

End Shift.

(* ================================================================== *)
(** ** The dynamic form and its fields *)
(* ================================================================== *)

Module Form.

(** The status [updateValue] computes: the validator of the field's
    type applied to the new value. *)
Definition statusFor (stn : string -> Js.number)
    (field : Dynamic.FieldDefinition) (newValue : Js.value) : Status :=
  match Dynamic.type field with
  | Dynamic.numeric =>
      Dynamic.validateNumericField stn newValue
        (Dynamic.min field) (Dynamic.max field)
  | Dynamic.boolean => Dynamic.validateBooleanField newValue
  | Dynamic.select =>
      Dynamic.validateSelectField newValue (Dynamic.required field)
  end.

(** What [getValue] synthesises for a field without entry. *)
Definition untouched (f : string) : Dynamic.InspectionValue :=
  {| Dynamic.fieldId := f; Dynamic.value := Js.JNull;
     Dynamic.status := Pending |}.

(** The values belong to the form: one entry at most per field, and
    only for fields of the list. *)
Definition belongsTo (fields : list Dynamic.FieldDefinition)
    (values : list Dynamic.InspectionValue) : Prop :=
  NoDup (map Dynamic.id fields) /\
  NoDup (map Dynamic.fieldId values) /\
  incl (map Dynamic.fieldId values) (map Dynamic.id fields).

(** A boolean field, for the examples. *)
Definition visual : Dynamic.FieldDefinition :=
  Dynamic.mkField "visual" Dynamic.boolean true None None.

End Form.

(* ================================================================== *)
(** ** Roles and permissions: [context/AuthContext] *)
(* ================================================================== *)

Module Auth.

(** [Role] of [lib/data]: the keys of [ROLE_PERMISSIONS]. *)
Inductive Role : Type := operator | inspector | manager | admin_engineer.

Definition Role_eqb (a b : Role) : bool :=
  match a, b with
  | operator, operator | inspector, inspector
  | manager, manager | admin_engineer, admin_engineer => true
  | _, _ => false
  end.

Definition ROLE_PERMISSIONS (role : Role) : list string :=
  match role with
  | operator =>
      [ "view_lot_context"; "edit_production_output";
        "select_defect_code"; "view_inspection_specs" ]
  | inspector =>
      [ "view_lot_context"; "view_production_output"; "view_defect_code";
        "view_inspection_specs"; "edit_inspection_values";
        "release_lot"; "reject_lot" ]
  | manager =>
      [ "view_kpis"; "view_audit_log"; "view_defect_trends";
        "download_reports" ]
  | admin_engineer =>
      [ "manage_parts"; "create_part"; "edit_part"; "delete_part";
        "manage_revisions"; "create_revision"; "view_revision_history";
        "manage_blueprints"; "upload_blueprint"; "delete_blueprint";
        "configure_system"; "view_all_audit";
        "view_lot_context"; "view_inspection_specs"; "view_kpis";
        "view_audit_log" ]
  end%string.

(** [xs.includes(x)] on strings. *)
Definition includes (xs : list string) (x : string) : bool :=
  existsb (String.eqb x) xs.

(** [ROLE_PERMISSIONS[role]?.includes(permission) ?? false]; the table
    has an entry for every role. *)
Definition hasPermission (role : Role) (permission : string) : bool :=
  includes (ROLE_PERMISSIONS role) permission.

Definition isRole (role targetRole : Role) : bool := Role_eqb role targetRole.
Definition canEditInspection (role : Role) : bool := Role_eqb role inspector.
Definition canViewManagerDashboard (role : Role) : bool :=
  Role_eqb role manager.

End Auth.

(* ================================================================== *)
(** ** The kiosk session: [context/SessionContext] *)
(* ================================================================== *)

Module Session.

(** [UserCredential] of [lib/data] is not among the sources; these are
    the three properties the provider reads. *)
Record UserCredential : Type := {
  pin : string;
  role : Auth.Role;
  name : string
}.

Record CurrentUser : Type := {
  userName : string;
  userRole : Auth.Role
}.

(** The messages of the two refusals: "PIN Incorrecto o Sin Permisos"
    and the invalid lot format notice. *)
Inductive Message : Type := PinIncorrecto | FormatoInvalido.

(** [{ success, error? }] *)
Record Result : Type := {
  success : bool;
  error : option Message
}.

Definition ok : Result := {| success := true; error := None |}.
Definition refused (m : Message) : Result :=
  {| success := false; error := Some m |}.

(** The character classes of [/^[A-Z0-9]{6,}$/i]. *)
Definition isAlphanumeric (c : Ascii.ascii) : bool :=
  let n := Ascii.nat_of_ascii c in
  ((48 <=? n) && (n <=? 57) || (65 <=? n) && (n <=? 90)
   || (97 <=? n) && (n <=? 122))%nat.

Fixpoint all_chars (p : Ascii.ascii -> bool) (s : string) : bool :=
  match s with
  | EmptyString => true
  | String c s' => p c && all_chars p s'
  end.

Section Provider.
(** Constants of [lib/data] and string primitives of the runtime that
    the sources do not define.  [LotInfo] is the record of a lot and
    [mockLot s] stands for [{ ...SCANNED_LOT, lotNumber: s }].  A string
    is taken as its sequence of code units, so that [String.length] is
    [.length]. *)
Variable MOCK_CREDENTIALS : list UserCredential.
Variable VALID_LOT_PREFIXES : list string.
Variable toUpperCase : string -> string.
Variable trim : string -> string.
Variable LotInfo : Type.
Variable mockLot : string -> LotInfo.

Definition isValidLotFormat (lotNumber : string) : bool :=
  if (String.length lotNumber <? 6)%nat then false
  else
    let prefix := toUpperCase (String.substring 0 3 lotNumber) in
    Auth.includes VALID_LOT_PREFIXES prefix
    || (all_chars isAlphanumeric lotNumber
        && (6 <=? String.length lotNumber)%nat).

(** The four [useState] cells of the provider. *)
Record State : Type := {
  scannedLot : option LotInfo;
  currentUser : option CurrentUser;
  currentRole : Auth.Role;
  isLoading : bool
}.

Definition initial : State :=
  {| scannedLot := None; currentUser := None;
     currentRole := Auth.operator; isLoading := false |}.

Definition isKioskMode (st : State) : bool :=
  match scannedLot st with None => true | Some _ => false end.

Definition setScannedLot (l : option LotInfo) (st : State) : State :=
  {| scannedLot := l; currentUser := currentUser st;
     currentRole := currentRole st; isLoading := isLoading st |}.
Definition setCurrentUser (u : option CurrentUser) (st : State) : State :=
  {| scannedLot := scannedLot st; currentUser := u;
     currentRole := currentRole st; isLoading := isLoading st |}.
Definition setCurrentRole (r : Auth.Role) (st : State) : State :=
  {| scannedLot := scannedLot st; currentUser := currentUser st;
     currentRole := r; isLoading := isLoading st |}.
Definition setIsLoading (b : bool) (st : State) : State :=
  {| scannedLot := scannedLot st; currentUser := currentUser st;
     currentRole := currentRole st; isLoading := b |}.

(** [scanLot] up to its [await]: the format check, then the loading
    flag.  The lot it goes on with is returned beside the state. *)
Definition scanLot_begin (lotNumber : string) (st : State)
    : Result * option string * State :=
  let trimmed := toUpperCase (trim lotNumber) in
  if negb (isValidLotFormat trimmed) then
    (refused FormatoInvalido, None, st)
  else (ok, Some trimmed, setIsLoading true st).

(** [scanLot] after the delay. *)
Definition scanLot_end (trimmed : string) (st : State) : State :=
  setIsLoading false (setScannedLot (Some (mockLot trimmed)) st).

Definition authenticate (pin' : string) (targetRole : Auth.Role) (st : State)
    : Result * State :=
  match find (fun c => String.eqb (pin c) pin'
                       && Auth.Role_eqb (role c) targetRole)
             MOCK_CREDENTIALS with
  | None => (refused PinIncorrecto, st)
  | Some credential =>
      (ok,
       setCurrentRole (role credential)
         (setCurrentUser
            (Some {| userName := name credential;
                     userRole := role credential |}) st))
  end.

Definition switchToOperator (st : State) : State :=
  setCurrentUser None (setCurrentRole Auth.operator st).

Definition clearLot (st : State) : State :=
  setIsLoading false (setScannedLot None st).

Definition endShift (st : State) : State :=
  setIsLoading false
    (setCurrentRole Auth.operator
       (setCurrentUser None (setScannedLot None st))).

(** The calls the provider offers to its consumers.  The two halves of
    [scanLot] are separate steps, since other calls can come between
    them. *)
Inductive Call : Type :=
| ScanLot (lotNumber : string)
| LotLoaded (trimmed : string)
| Authenticate (pin' : string) (targetRole : Auth.Role)
| SwitchToOperator
| ClearLot
| EndShift
| SetIsLoading (loading : bool).

Definition perform (st : State) (c : Call) : State :=
  match c with
  | ScanLot s => snd (scanLot_begin s st)
  | LotLoaded s => scanLot_end s st
  | Authenticate p r => snd (authenticate p r st)
  | SwitchToOperator => switchToOperator st
  | ClearLot => clearLot st
  | EndShift => endShift st
  | SetIsLoading b => setIsLoading b st
  end.

Definition run (cs : list Call) : State := fold_left perform cs initial.

(** The user shown holds the current role by a credential of the
    list; without user the role is the operator's. *)
Definition authorised (st : State) : Prop :=
  match currentUser st with
  | None => currentRole st = Auth.operator
  | Some u =>
      userRole u = currentRole st /\
      exists c, In c MOCK_CREDENTIALS /\
                name c = userName u /\ role c = userRole u
  end.
End Provider.

Arguments initial {LotInfo}.
Arguments isKioskMode {LotInfo} st.
Arguments scanLot_begin VALID_LOT_PREFIXES toUpperCase trim {LotInfo}
  lotNumber st.
Arguments scanLot_end {LotInfo} mockLot trimmed st.
Arguments authenticate MOCK_CREDENTIALS {LotInfo} pin' targetRole st.
Arguments switchToOperator {LotInfo} st.
Arguments clearLot {LotInfo} st.
Arguments endShift {LotInfo} st.
Arguments perform MOCK_CREDENTIALS VALID_LOT_PREFIXES toUpperCase trim
  {LotInfo} mockLot st c.
Arguments run MOCK_CREDENTIALS VALID_LOT_PREFIXES toUpperCase trim
  {LotInfo} mockLot cs.
Arguments authorised MOCK_CREDENTIALS {LotInfo} st.
Arguments scannedLot {LotInfo} s.
Arguments currentUser {LotInfo} s.
Arguments currentRole {LotInfo} s.
Arguments isLoading {LotInfo} s.

(** Sample credentials for the examples. *)
Definition sampleCredentials : list UserCredential :=
  [ {| pin := "1234"; role := Auth.inspector; name := "Maria S." |};
    {| pin := "9999"; role := Auth.manager; name := "Jorge L." |} ].

End Session.

(* ================================================================== *)
(** ** The part configuration store: [context/PartConfigContext] *)
(* ================================================================== *)

Module PartConfig.

(** [PartConfig] and [PartRevision] of [lib/data] are not among the
    sources; these are the properties the provider and the engineering
    view read and write.  Time stamps and generated ids are strings. *)
Record PartConfig : Type := {
  id : string;
  partNumber : string;
  name : string;
  currentRevision : string;
  fields : list Dynamic.FieldDefinition;
  blueprintUrl : option string;
  createdAt : string;
  updatedAt : string
}.

Record PartRevision : Type := {
  revId : string;
  partConfigId : string;
  revision : string;
  revFields : list Dynamic.FieldDefinition;
  revBlueprintUrl : option string;
  changeNote : string;
  revCreatedAt : string;
  createdBy : string
}.

(** The two lists held by the provider. *)
Record State : Type := {
  parts : list PartConfig;
  revisions : list PartRevision
}.

(** *** [getNextRevision] *)

(** The tests of [/Rev\s*([A-Z])/i] on a code unit below 256. *)
Definition code (c : Ascii.ascii) : nat := Ascii.nat_of_ascii c.

Definition isLetter (c : Ascii.ascii) : bool :=
  ((65 <=? code c) && (code c <=? 90)
   || (97 <=? code c) && (code c <=? 122))%nat.

Definition isSpace (c : Ascii.ascii) : bool :=
  ((9 <=? code c) && (code c <=? 13) || (code c =? 32)
   || (code c =? 160))%nat.

Definition sameLetter (c : Ascii.ascii) (upper : nat) : bool :=
  ((code c =? upper) || (code c =? upper + 32))%nat.

(** [toUpperCase] of one letter, as a code. *)
Definition upperCode (c : Ascii.ascii) : nat :=
  if (97 <=? code c)%nat then (code c - 32)%nat else code c.

Fixpoint skipSpaces (s : string) : string :=
  match s with
  | String c s' => if isSpace c then skipSpaces s' else s
  | EmptyString => EmptyString
  end.

(** The match anchored at the head of [s]: the captured letter. *)
Definition matchHere (s : string) : option Ascii.ascii :=
  match s with
  | String r (String e (String v rest)) =>
      if sameLetter r 82 && sameLetter e 69 && sameLetter v 86 then
        match skipSpaces rest with
        | String l _ => if isLetter l then Some l else None
        | EmptyString => None
        end
      else None
  | _ => None
  end.

(** The leftmost match. *)
Fixpoint firstMatch (s : string) : option Ascii.ascii :=
  match matchHere s with
  | Some l => Some l
  | None =>
      match s with
      | String _ s' => firstMatch s'
      | EmptyString => None
      end
  end.

(** The template string [`Rev ${String.fromCharCode(n)}`]. *)
Definition revLabel (n : nat) : string :=
  String.append "Rev " (String (Ascii.ascii_of_nat n) EmptyString).

Definition getNextRevision (currentRevision : string) : string :=
  match firstMatch currentRevision with
  | Some l => revLabel (upperCode l + 1)
  | None => "Rev A"
  end.

(** *** Parts *)

(** [Omit<PartConfig, "id" | "createdAt" | "updatedAt">] *)
Record PartData : Type := {
  d_partNumber : string;
  d_name : string;
  d_currentRevision : string;
  d_fields : list Dynamic.FieldDefinition;
  d_blueprintUrl : option string
}.

(** [Partial<PartConfig>]: [None] for a key that is not given.  The key
    [updatedAt] is left out: [updatePart] overwrites it. *)
Record PartUpdates : Type := {
  u_id : option string;
  u_partNumber : option string;
  u_name : option string;
  u_currentRevision : option string;
  u_fields : option (list Dynamic.FieldDefinition);
  u_blueprintUrl : option (option string);
  u_createdAt : option string
}.

Definition noUpdates : PartUpdates :=
  {| u_id := None; u_partNumber := None; u_name := None;
     u_currentRevision := None; u_fields := None;
     u_blueprintUrl := None; u_createdAt := None |}.

Definition orKeep {A : Type} (u : option A) (old : A) : A :=
  match u with Some x => x | None => old end.

(** The mapping of the part with the given id, shared by the setters. *)
Definition onPart (i : string) (f : PartConfig -> PartConfig)
    (l : list PartConfig) : list PartConfig :=
  map (fun part => if negb (String.eqb (id part) i) then part else f part) l.

Definition setParts (f : list PartConfig -> list PartConfig) (st : State)
    : State :=
  {| parts := f (parts st); revisions := revisions st |}.
Definition setRevisions (f : list PartRevision -> list PartRevision)
    (st : State) : State :=
  {| parts := parts st; revisions := f (revisions st) |}.

(** [{ ...part, ...updates, updatedAt: now }] *)
Definition updatePart (i : string) (updates : PartUpdates) (now : string)
    (st : State) : State :=
  setParts
    (onPart i (fun part =>
       {| id := orKeep (u_id updates) (id part);
          partNumber := orKeep (u_partNumber updates) (partNumber part);
          name := orKeep (u_name updates) (name part);
          currentRevision :=
            orKeep (u_currentRevision updates) (currentRevision part);
          fields := orKeep (u_fields updates) (fields part);
          blueprintUrl := orKeep (u_blueprintUrl updates) (blueprintUrl part);
          createdAt := orKeep (u_createdAt updates) (createdAt part);
          updatedAt := now |}))
    st.

(** [createPart]: the generated ids and the time are supplied by the
    runtime.  [partData.currentRevision || "Rev A"]. *)
Definition createPart (partData : PartData) (newId newRevId now : string)
    (st : State) : PartConfig * State :=
  let newPart :=
    {| id := newId;
       partNumber := d_partNumber partData;
       name := d_name partData;
       currentRevision := d_currentRevision partData;
       fields := d_fields partData;
       blueprintUrl := d_blueprintUrl partData;
       createdAt := now;
       updatedAt := now |} in
  let initialRevision :=
    {| revId := newRevId;
       partConfigId := id newPart;
       revision :=
         if String.eqb (d_currentRevision partData) EmptyString
         then "Rev A" else d_currentRevision partData;
       revFields := d_fields partData;
       revBlueprintUrl := None;
       changeNote := "Initial release";
       revCreatedAt := now;
       createdBy := "System" |} in
  (newPart,
   setRevisions (fun prev => prev ++ [initialRevision])
     (setParts (fun prev => prev ++ [newPart]) st)).

Definition deletePart (i : string) (st : State) : State :=
  setRevisions
    (filter (fun rev => negb (String.eqb (partConfigId rev) i)))
    (setParts (filter (fun part => negb (String.eqb (id part) i))) st).

Definition getPartById (i : string) (st : State) : option PartConfig :=
  find (fun part => String.eqb (id part) i) (parts st).

(** [createRevision] looks the part up in [parts] as its closure holds
    them, which is the list of the render the caller runs in
    ([rendered]); it throws when the part is not there ([None] here),
    before any state is set.  Its two writes are functional updaters:
    they act on the state as the updaters queued before them in the
    same handler leave it ([pending], which is [rendered] when nothing
    is queued).  [now] is the time read for the revision, [later] the
    one [updatePart] reads afterwards. *)
Definition createRevision (partId changeNote' createdBy' : string)
    (newRevId now later : string) (rendered pending : State)
    : option (PartRevision * State) :=
  match find (fun p => String.eqb (id p) partId) (parts rendered) with
  | None => None
  | Some part =>
      let nextRevision := getNextRevision (currentRevision part) in
      let newRevision :=
        {| revId := newRevId;
           partConfigId := partId;
           revision := nextRevision;
           revFields := fields part;
           revBlueprintUrl := blueprintUrl part;
           changeNote := changeNote';
           revCreatedAt := now;
           createdBy := createdBy' |} in
      Some (newRevision,
            updatePart partId
              {| u_id := None; u_partNumber := None; u_name := None;
                 u_currentRevision := Some nextRevision; u_fields := None;
                 u_blueprintUrl := None; u_createdAt := None |}
              later
              (setRevisions (fun prev => prev ++ [newRevision]) pending))
  end.

Definition getActiveRevision (partId : string) (st : State)
    : option PartRevision :=
  match find (fun p => String.eqb (id p) partId) (parts st) with
  | None => None
  | Some part =>
      find (fun rev => String.eqb (partConfigId rev) partId
                       && String.eqb (revision rev) (currentRevision part))
           (revisions st)
  end.

(** *** Fields of a part *)

Definition withFields (part : PartConfig)
    (fs : list Dynamic.FieldDefinition) (now : string) : PartConfig :=
  {| id := id part; partNumber := partNumber part; name := name part;
     currentRevision := currentRevision part;
     fields := fs;
     blueprintUrl := blueprintUrl part;
     createdAt := createdAt part;
     updatedAt := now |}.

Definition addField (partId : string) (field : Dynamic.FieldDefinition)
    (now : string) (st : State) : State :=
  setParts
    (onPart partId (fun part => withFields part (fields part ++ [field]) now))
    st.

(** [Partial<FieldDefinition>] *)
Record FieldUpdates : Type := {
  f_id : option string;
  f_name : option string;
  f_type : option Dynamic.FieldType;
  f_required : option bool;
  f_min : option (option Js.number);
  f_max : option (option Js.number);
  f_options : option (option (list string));
  f_tool : option (option string)
}.

(** [{ ...field, ...updates }] *)
Definition mergeField (field : Dynamic.FieldDefinition)
    (updates : FieldUpdates) : Dynamic.FieldDefinition :=
  {| Dynamic.id := orKeep (f_id updates) (Dynamic.id field);
     Dynamic.name := orKeep (f_name updates) (Dynamic.name field);
     Dynamic.type := orKeep (f_type updates) (Dynamic.type field);
     Dynamic.required := orKeep (f_required updates) (Dynamic.required field);
     Dynamic.min := orKeep (f_min updates) (Dynamic.min field);
     Dynamic.max := orKeep (f_max updates) (Dynamic.max field);
     Dynamic.options := orKeep (f_options updates) (Dynamic.options field);
     Dynamic.tool := orKeep (f_tool updates) (Dynamic.tool field) |}.

Definition updateField (partId fieldId : string) (updates : FieldUpdates)
    (now : string) (st : State) : State :=
  setParts
    (onPart partId (fun part =>
       withFields part
         (map (fun field =>
                 if negb (String.eqb (Dynamic.id field) fieldId) then field
                 else mergeField field updates)
              (fields part))
         now))
    st.

Definition removeField (partId fieldId : string) (now : string)
    (st : State) : State :=
  setParts
    (onPart partId (fun part =>
       withFields part
         (filter (fun field => negb (String.eqb (Dynamic.id field) fieldId))
                 (fields part))
         now))
    st.

(** [fieldIds.map(id => fields.find(...)).filter(f => f !== undefined)] *)
Definition pick (fs : list Dynamic.FieldDefinition) (fieldIds : list string)
    : list Dynamic.FieldDefinition :=
  flat_map
    (fun i =>
       match find (fun f => String.eqb (Dynamic.id f) i) fs with
       | Some f => [f]
       | None => []
       end)
    fieldIds.

Definition reorderFields (partId : string) (fieldIds : list string)
    (now : string) (st : State) : State :=
  setParts
    (onPart partId (fun part =>
       withFields part (pick (fields part) fieldIds) now))
    st.

(** The fields of the part with the given id, if there is one. *)
Definition fieldsOf (partId : string) (st : State)
    : option (list Dynamic.FieldDefinition) :=
  option_map fields (getPartById partId st).

(** A sample part for the examples. *)
Definition samplePart : PartConfig :=
  {| id := "part-1"; partNumber := "320-52761"; name := "Bushing";
     currentRevision := "Rev A";
     fields := [Dynamic.diameter; Dynamic.finish];
     blueprintUrl := None;
     createdAt := "2026-02-06T08:00:00.000Z";
     updatedAt := "2026-02-06T08:00:00.000Z" |}.

Definition sampleStore : State :=
  {| parts := [samplePart]; revisions := [] |}.

End PartConfig.

(* ================================================================= *)
(** * The engineer's view of the store: [EngineerView] *)
(* ================================================================= *)

Module Engineer.

(** [formData] *)
Record FormData : Type := {
  partNumber : string;
  name : string;
  fields : list Dynamic.FieldDefinition
}.

(** The updates both handlers pass to [updatePart]. *)
Definition formUpdates (formData : FormData) : PartConfig.PartUpdates :=
  {| PartConfig.u_id := None;
     PartConfig.u_partNumber := Some (partNumber formData);
     PartConfig.u_name := Some (name formData);
     PartConfig.u_currentRevision := None;
     PartConfig.u_fields := Some (fields formData);
     PartConfig.u_blueprintUrl := None;
     PartConfig.u_createdAt := None |}.

(** The handlers as they act on the store; their toasts and the cells
    of the view itself are left out. *)
Definition handleSavePart (selectedPart : option PartConfig.PartConfig)
    (formData : FormData) (now : string) (st : PartConfig.State)
    : PartConfig.State :=
  match selectedPart with
  | None => st
  | Some selected =>
      PartConfig.updatePart (PartConfig.id selected) (formUpdates formData)
        now st
  end.

(** How [handleCreateRevision] ends: refused by its guard, with the
    exception of [createRevision], or with the new revision and the
    store as the two queued writes leave it. *)
Inductive Outcome : Type :=
| Refused
| Threw
| Created (newRev : PartConfig.PartRevision) (st : PartConfig.State).

Section Handlers.
Variable trim : string -> string.

(** [updatePart] and [createRevision] are called one after the other
    in the same render [st]: the first queues its updater, the second
    reads the parts as rendered. *)
Definition handleCreateRevision
    (selectedPart : option PartConfig.PartConfig) (formData : FormData)
    (revisionNote : string) (newRevId saved now later : string)
    (st : PartConfig.State) : Outcome :=
  match selectedPart with
  | None => Refused
  | Some selected =>
      if String.eqb (trim revisionNote) EmptyString then Refused
      else
        let pending :=
          PartConfig.updatePart (PartConfig.id selected)
            (formUpdates formData) saved st in
        match PartConfig.createRevision (PartConfig.id selected)
                (trim revisionNote) "Ing. Sistema" newRevId now later
                st pending with
        | None => Threw
        | Some (newRev, st') => Created newRev st'
        end
  end.
End Handlers.

(** A form in which the second field of the sample part was removed. *)
Definition sampleForm : FormData :=
  {| partNumber := "320-52761"; name := "Bushing";
     fields := [Dynamic.diameter] |}.

End Engineer.

(* ================================================================= *)
(** * Partial shipments
    [components/features/quality/PartialShipmentTracker.tsx] *)
(* ================================================================= *)

Module Shipments.

(** [+], [-], [*] and [/] on numbers: binary64 arithmetic, rounded to
    nearest, ties to even. *)
Definition add (x y : Js.number) : Js.number := SFadd prec emax x y.
Definition sub (x y : Js.number) : Js.number := SFsub prec emax x y.
Definition mul (x y : Js.number) : Js.number := SFmul prec emax x y.
Definition div (x y : Js.number) : Js.number := SFdiv prec emax x y.

Definition hundred : Js.number := Eval vm_compute in Js.lit 100%float.

(** The properties [handleAddShipment] writes into a
    [PartialShipment]. *)
Record PartialShipment : Type := {
  id : string;
  orderId : string;
  lotNumber : string;
  quantity : Js.number;
  timestamp : string;
  inspectedBy : string
}.

(** [shipments.reduce((sum, s) => sum + s.quantity, 0)] *)
Definition sumQuantities (shipments : list PartialShipment) : Js.number :=
  fold_left (fun sum s => add sum (quantity s)) shipments Js.zero.

Record Calculations : Type := {
  shippedQty : Js.number;
  remainingQty : Js.number;
  progressPercent : Js.number;
  isComplete : bool
}.

Definition calculations (totalQty : Js.number)
    (shipments : list PartialShipment) : Calculations :=
  let shipped := sumQuantities shipments in
  let remaining := sub totalQty shipped in
  {| shippedQty := shipped;
     remainingQty := remaining;
     progressPercent :=
       if Js.gt totalQty Js.zero then mul (div shipped totalQty) hundred
       else Js.zero;
     isComplete := Js.le remaining Js.zero |}.

(** The four messages of [validateQty]; the last one quotes the
    remaining quantity.  Each of them is a non-empty string, so that
    [if (error)] tests for a message. *)
Inductive QtyError : Type :=
| Required
| InvalidNumber
| NotPositive
| ExceedsRemaining (remaining : Js.number).

(** The three [useState] cells of the tracker. *)
Record Tracker : Type := {
  showAddDialog : bool;
  inputQty : string;
  inputError : option QtyError
}.

(** What [handleAddShipment] does besides setting its cells: the call
    of the [onAddShipment] prop and the toast, which shows the quantity
    and what remains after it. *)
Inductive Effect : Type :=
| OnAddShipment (shipment : PartialShipment)
| ToastRecorded (qty remainingAfter : Js.number).

Section Component.
(** [String.prototype.trim] and [parseInt(_, 10)] belong to the
    runtime. *)
Variable trim : string -> string.
Variable parseInt : string -> Js.number.

Definition validateQty (remaining : Js.number) (value : string)
    : option QtyError :=
  if String.eqb (trim value) EmptyString then Some Required
  else
    let qty := parseInt value in
    if Js.isNaN qty then Some InvalidNumber
    else if Js.le qty Js.zero then Some NotPositive
    else if Js.gt qty remaining then Some (ExceedsRemaining remaining)
    else None.

Definition handleInputChange (remaining : Js.number) (value : string)
    (t : Tracker) : Tracker :=
  {| showAddDialog := showAddDialog t;
     inputQty := value;
     inputError := validateQty remaining value |}.

(** The props of the tracker and the two readings of the clock:
    [Date.now()] as it is printed into the id, and the ISO time. *)
Variable orderId' lotNumber' inspectorName : string.
Variable totalQty : Js.number.
Variable nowText nowIso : string.

Definition handleAddShipment (shipments : list PartialShipment)
    (t : Tracker) : Tracker * list Effect :=
  let c := calculations totalQty shipments in
  match validateQty (remainingQty c) (inputQty t) with
  | Some error =>
      ({| showAddDialog := showAddDialog t;
          inputQty := inputQty t;
          inputError := Some error |}, [])
  | None =>
      let qty := parseInt (inputQty t) in
      let newShipment :=
        {| id := String.append "ship-" nowText;
           orderId := orderId';
           lotNumber := lotNumber';
           quantity := qty;
           timestamp := nowIso;
           inspectedBy := inspectorName |} in
      ({| showAddDialog := false;
          inputQty := EmptyString;
          inputError := None |},
       [ OnAddShipment newShipment;
         ToastRecorded qty (sub (remainingQty c) qty) ])
  end.

(** The dialog's Cancel button. *)
Definition cancel (_ : Tracker) : Tracker :=
  {| showAddDialog := false; inputQty := EmptyString; inputError := None |}.

(** The Record button is disabled while an error is shown or the
    input is empty. *)
Definition recordEnabled (t : Tracker) : bool :=
  match inputError t with
  | Some _ => false
  | None => negb (String.eqb (inputQty t) EmptyString)
  end.
End Component.

(** [usePartialShipments] *)
Definition addShipment (prev : list PartialShipment)
    (shipment : PartialShipment) : list PartialShipment :=
  prev ++ [shipment].

Definition clearShipments (_ : list PartialShipment)
    : list PartialShipment := [].

Definition totalShipped (shipments : list PartialShipment) : Js.number :=
  fold_left (fun sum s => add sum (quantity s)) shipments Js.zero.

(** The tracker's [onAddShipment] bound to the hook's [addShipment]. *)
Definition deliver (effects : list Effect)
    (shipments : list PartialShipment) : list PartialShipment :=
  fold_left (fun acc e =>
               match e with
               | OnAddShipment s => addShipment acc s
               | ToastRecorded _ _ => acc
               end)
            effects shipments.

(** Stand-ins for the runtime on the texts of the examples. *)
Definition five : Js.number := Eval vm_compute in Js.lit 5%float.
Definition ten : Js.number := Eval vm_compute in Js.lit 10%float.

Definition sampleParseInt (text : string) : Js.number :=
  if String.eqb text "5" then five
  else if String.eqb text "10" then ten
  else Js.NaN.

Definition sampleTrim (text : string) : string := text.

Definition typed (text : string) : Tracker :=
  {| showAddDialog := true; inputQty := text; inputError := None |}.

End Shipments.

(* ================================================================= *)
(** * The dashboard: session, page and inspector view together
    [app/page.tsx], [DashboardContent] *)
(* ================================================================= *)

Module Dashboard.

Section Content.
Variable MOCK_CREDENTIALS : list Session.UserCredential.
Variable VALID_LOT_PREFIXES : list string.
Variable toUpperCase : string -> string.
Variable trim : string -> string.
Variable LotInfo : Type.
Variable mockLot : string -> LotInfo.
Variable parseFloat : string -> Js.number.

(** The state the content is rendered from: the provider's cells, the
    page's three inspection cells, and the [confirmDialog] cell of the
    inspector view, which exists while that view is mounted. *)
Record State : Type := {
  session : Session.State LotInfo;
  inspection : Static.State;
  viewDialog : option Inspector.DialogKind
}.

Definition initial : State :=
  {| session := Session.initial;
     inspection := {| Static.specs := Static.INITIAL_SPECS;
                      Static.lotReleased := false;
                      Static.lotRejected := false |};
     viewDialog := None |}.

Definition isInspectionReadOnly (st : State) : bool :=
  negb (Auth.Role_eqb (Session.currentRole (session st)) Auth.inspector).

(** [isKioskMode ? <KioskView /> : ... currentRole === "inspector" &&
    <InspectorView ... />] *)
Definition inspectorShown (st : State) : bool :=
  negb (Session.isKioskMode (session st))
  && Auth.Role_eqb (Session.currentRole (session st)) Auth.inspector.

(** The inspector view with the props the page passes to it. *)
Definition view (st : State) : Inspector.View :=
  {| Inspector.parent := inspection st;
     Inspector.isReadOnly := isInspectionReadOnly st;
     Inspector.confirmDialog := viewDialog st |}.

Definition withSession (s : Session.State LotInfo) (st : State) : State :=
  {| session := s; inspection := inspection st;
     viewDialog := viewDialog st |}.

(** What can happen to the content: a call of the provider by one of
    its consumers (the kiosk view scans through it), the three handlers
    the page passes to the role switcher, and an event of the inspector
    view. *)
Inductive Event : Type :=
| Provider (c : Session.Call)
| Authenticate (pin : string) (role : Auth.Role)
| RoleChange (role : Auth.Role)
| EndShift
| Inspect (e : Inspector.Event).

(** The handlers the page passes to the role switcher.  Their toasts
    and the three cells of the operator's form, which [handleEndShift]
    also resets, are not part of the state kept here. *)
Definition handleAuthenticate (pin : string) (role : Auth.Role)
    (st : State) : Session.Result * State :=
  let result := Session.authenticate MOCK_CREDENTIALS pin role (session st) in
  (fst result, withSession (snd result) st).

Definition handleRoleChange (role : Auth.Role) (st : State) : State :=
  if Auth.Role_eqb role Auth.operator
  then withSession (Session.switchToOperator (session st)) st
  else st.

Definition handleEndShift (st : State) : State :=
  {| session := Session.endShift (session st);
     inspection := Page.handleEndShift (inspection st);
     viewDialog := viewDialog st |}.

(** An event of the inspector view reaches its handler only while the
    view is shown.  The end of the shift is the page's own event. *)
Definition inspect (e : Inspector.Event) (st : State) : State :=
  if inspectorShown st && negb (Shift.isEndShift e) then
    let v := Inspector.step parseFloat Static.INITIAL_SPECS (view st) e in
    {| session := session st;
       inspection := Inspector.parent v;
       viewDialog := Inspector.confirmDialog v |}
  else st.

Definition handle (e : Event) (st : State) : State :=
  match e with
  | Provider c =>
      withSession
        (Session.perform MOCK_CREDENTIALS VALID_LOT_PREFIXES toUpperCase
           trim mockLot (session st) c)
        st
  | Authenticate pin role => snd (handleAuthenticate pin role st)
  | RoleChange role => handleRoleChange role st
  | EndShift => handleEndShift st
  | Inspect e' => inspect e' st
  end.

(** A view that is no longer shown is unmounted, and its cell is
    created anew, closed, with the next mount. *)
Definition unmount (st : State) : State :=
  if inspectorShown st then st
  else {| session := session st; inspection := inspection st;
          viewDialog := None |}.

Definition step (st : State) (e : Event) : State := unmount (handle e st).

Definition run (es : list Event) : State := fold_left step es initial.

(** The inspector at work: a lot is scanned and the current user holds
    the inspector's role by a listed credential. *)
Definition inspectorAtWork (st : State) : Prop :=
  Session.isKioskMode (session st) = false /\
  Session.currentRole (session st) = Auth.inspector /\
  exists c, In c MOCK_CREDENTIALS /\
            Session.role c = Auth.inspector /\
            Session.currentUser (session st)
            = Some {| Session.userName := Session.name c;
                      Session.userRole := Auth.inspector |}.

(** What holds of every state of the content. *)
Definition sound (st : State) : Prop :=
  Session.authorised MOCK_CREDENTIALS (session st) /\
  Inspector.disposition_invariant (view st) /\
  Shift.release_sound (view st) /\
  (viewDialog st <> None -> inspectorShown st = true).
End Content.

Arguments session {LotInfo} s.
Arguments inspection {LotInfo} s.
Arguments viewDialog {LotInfo} s.
Arguments initial {LotInfo}.
Arguments inspectorShown {LotInfo} st.
Arguments view {LotInfo} st.
Arguments handleEndShift {LotInfo} st.
Arguments handleRoleChange {LotInfo} role st.
Arguments inspectorAtWork MOCK_CREDENTIALS {LotInfo} st.
Arguments isInspectionReadOnly {LotInfo} st.
Arguments withSession {LotInfo} s st.
Arguments unmount {LotInfo} st.
Arguments inspect {LotInfo} parseFloat e st.
Arguments handleAuthenticate MOCK_CREDENTIALS {LotInfo} pin role st.
Arguments handle MOCK_CREDENTIALS VALID_LOT_PREFIXES toUpperCase trim
  {LotInfo} mockLot parseFloat e st.
Arguments step MOCK_CREDENTIALS VALID_LOT_PREFIXES toUpperCase trim
  {LotInfo} mockLot parseFloat st e.
Arguments run MOCK_CREDENTIALS VALID_LOT_PREFIXES toUpperCase trim
  {LotInfo} mockLot parseFloat es.
Arguments sound MOCK_CREDENTIALS {LotInfo} st.

(** A shift of the examples: a lot is loaded, the inspector signs in
    and enters a reading. *)
Definition signedIn : list Event :=
  [ Provider (Session.LotLoaded "LOT001");
    Authenticate "1234" Auth.inspector ].

Definition sampleReading (text : string) : Js.number :=
  if String.eqb text "0.50" then Static.reading_050
  else if String.eqb text "0.25" then Static.reading_025
  else if String.eqb text "0.28" then Static.reading_028
  else if String.eqb text "45.0" then Static.reading_450
  else Js.NaN.

Definition releasing : list Event :=
  signedIn
  ++ [ Inspect (Inspector.ChangeActual 1 "0.50");
       Inspect (Inspector.ChangeActual 2 "0.25");
       Inspect (Inspector.ChangeActual 3 "0.28");
       Inspect (Inspector.ChangeActual 4 "45.0");
       Inspect Inspector.ClickApprove;
       Inspect (Inspector.ConfirmDialog Inspector.Downloaded);
       RoleChange Auth.operator ].

End Dashboard.

(* ================================================================== *)
(** * Theorems *)
(* ================================================================== *)

(** ** Generic facts *)

Lemma Status_eqb_eq a b : Status_eqb a b = true <-> a = b.
Proof. destruct a, b; simpl; split; congruence. Qed.

(** An invariant of the step function is an invariant of the run. *)
Lemma fold_left_invariant (A B : Type) (f : A -> B -> A) (P : A -> Prop) :
  (forall a b, P a -> P (f a b)) ->
  forall l a, P a -> P (fold_left f l a).
Proof.
  intros Hstep l. induction l as [|b l IH]; intros a Ha; simpl.
  - exact Ha.
  - apply IH, Hstep, Ha.
Qed.

(** ** The relational operators *)

Section JsFacts.
Import Js.

(** [IsLessThan] is undefined exactly when an operand is NaN. *)
Lemma IsLessThan_undefined x y :
  IsLessThan x y = None <-> isNaN x = true \/ isNaN y = true.
Proof.
  unfold IsLessThan, SFcompare.
  destruct x as [sx|sx| |sx mx ex], y as [sy|sy| |sy my ey]; simpl;
    repeat match goal with
           | |- context [if ?b then _ else _] => destruct b
           | |- context [match ?c with Eq => _ | Lt => _ | Gt => _ end] =>
               destruct c
           end;
    split; intros H; try discriminate; auto;
    destruct H; discriminate.
Qed.

Lemma IsLessThan_defined x y :
  isNaN x = false -> isNaN y = false ->
  exists b, IsLessThan x y = Some b.
Proof.
  intros Hx Hy.
  destruct (IsLessThan x y) as [b|] eqn:E; [now exists b|].
  apply IsLessThan_undefined in E.
  destruct E; congruence.
Qed.

(** [x >= y] and [y <= x] are the same test. *)
Lemma ge_le x y : ge x y = le y x.
Proof. reflexivity. Qed.

(** On operands that are not NaN, [<] is the negation of [>=] and [>]
    the negation of [<=]. *)
Lemma lt_negb_ge x y :
  isNaN x = false -> isNaN y = false -> lt x y = negb (ge x y).
Proof.
  intros Hx Hy. unfold lt, ge.
  destruct (IsLessThan_defined x y Hx Hy) as [[|] ->]; reflexivity.
Qed.

Lemma gt_negb_le x y :
  isNaN x = false -> isNaN y = false -> gt x y = negb (le x y).
Proof.
  intros Hx Hy. unfold gt, le.
  destruct (IsLessThan_defined y x Hy Hx) as [[|] ->]; reflexivity.
Qed.

(** [<=] is reflexive on every operand that is not NaN: bounds are
    inclusive. *)
Lemma le_refl x : isNaN x = false -> le x x = true.
Proof.
  intros Hx. unfold le, IsLessThan, SFcompare.
  destruct x as [s|s| |s m e]; try discriminate; try (now destruct s).
  rewrite Z.compare_refl, Pos.compare_cont_refl. now destruct s.
Qed.

(** Operands that compare are not NaN. *)
Lemma le_ordered x y :
  le x y = true -> isNaN x = false /\ isNaN y = false.
Proof.
  intros H. unfold le in H.
  destruct (IsLessThan y x) as [b|] eqn:E; [|discriminate].
  destruct (isNaN x) eqn:Ex, (isNaN y) eqn:Ey; auto;
    assert (N : IsLessThan y x = None)
      by (apply IsLessThan_undefined; auto);
    congruence.
Qed.

(** Every comparison with NaN is false. *)
Lemma NaN_unordered y :
  lt NaN y = false /\ gt NaN y = false /\
  le NaN y = false /\ ge NaN y = false.
Proof.
  unfold lt, gt, le, ge, IsLessThan, NaN.
  destruct y; simpl; auto.
Qed.

End JsFacts.

(* ------------------------------------------------------------------ *)
(** ** Static spec validator *)
(* ------------------------------------------------------------------ *)

Section StaticFacts.
Import Static.

Lemma calculateStatus_absent lo hi : calculateStatus None lo hi = Pending.
Proof. reflexivity. Qed.

Lemma calculateStatus_pass a lo hi :
  calculateStatus (Some a) lo hi = Pass
  <-> Js.le lo a = true /\ Js.le a hi = true.
Proof.
  unfold calculateStatus. rewrite ge_le.
  destruct (Js.le lo a), (Js.le a hi); simpl; split;
    solve [ auto | discriminate | intros [? ?]; discriminate ].
Qed.

Lemma calculateStatus_present a lo hi :
  calculateStatus (Some a) lo hi <> Pending.
Proof.
  unfold calculateStatus.
  destruct (Js.ge a lo && Js.le a hi); discriminate.
Qed.

Lemma calculateStatus_fail a lo hi :
  calculateStatus (Some a) lo hi = Fail
  <-> ~ (Js.le lo a = true /\ Js.le a hi = true).
Proof.
  rewrite <- calculateStatus_pass.
  pose proof (calculateStatus_present a lo hi) as Hp.
  destruct (calculateStatus (Some a) lo hi); split;
    solve [ congruence | intros H; exfalso; apply H; reflexivity ].
Qed.

(** [updateEntry] keeps everything but the reading and its status. *)
Lemma updateEntry_fixed i a s :
  id (updateEntry i a s) = id s /\
  characteristic (updateEntry i a s) = characteristic s /\
  tool (updateEntry i a s) = tool s /\
  min (updateEntry i a s) = min s /\
  max (updateEntry i a s) = max s.
Proof.
  unfold updateEntry. destruct (negb (id s =? i)%Z); simpl; auto.
Qed.

Lemma updateEntry_other i a s : id s <> i -> updateEntry i a s = s.
Proof.
  intros H. unfold updateEntry.
  apply Z.eqb_neq in H. now rewrite H.
Qed.

Lemma updateEntry_match i a s :
  id s = i ->
  updateEntry i a s
  = withReading s a (calculateStatus a (min s) (max s)).
Proof.
  intros H. unfold updateEntry.
  apply Z.eqb_eq in H. now rewrite H.
Qed.

Lemma updateEntry_consistent i a s :
  consistent s -> consistent (updateEntry i a s).
Proof.
  intros H. unfold updateEntry.
  destruct (negb (id s =? i)%Z); [exact H | reflexivity].
Qed.

Lemma withReading_cleared_consistent s :
  consistent (withReading s None Pending).
Proof. reflexivity. Qed.

(** Each mutator of the hook keeps every entry consistent. *)
Lemma apply_consistent init st op :
  Forall consistent init ->
  Forall consistent (specs st) ->
  Forall consistent (specs (apply init st op)).
Proof.
  intros Hinit Hst. destruct op; simpl; try exact Hst.
  - rewrite Forall_forall in *. intros s Hs.
    apply in_map_iff in Hs. destruct Hs as [s0 [<- Hs0]].
    apply updateEntry_consistent. auto.
  - rewrite Forall_forall. intros s Hs.
    apply in_map_iff in Hs. destruct Hs as [s0 [<- _]].
    apply withReading_cleared_consistent.
Qed.

Lemma run_consistent init ops :
  Forall consistent init -> Forall consistent (specs (run init ops)).
Proof.
  intros Hinit. unfold run.
  apply fold_left_invariant with (P := fun st => Forall consistent (specs st)).
  - intros st op. now apply apply_consistent.
  - exact Hinit.
Qed.

Lemma INITIAL_SPECS_consistent : Forall consistent INITIAL_SPECS.
Proof. repeat constructor. Qed.

(** In a consistent entry, Pending means that no reading is stored. *)
Lemma consistent_pending s :
  consistent s -> (status s = Pending <-> actual s = None).
Proof.
  unfold consistent. intros ->.
  destruct (actual s) as [a|]; simpl; split; try congruence.
  intros H. now apply calculateStatus_present in H.
Qed.

(** C1.  The status computed by [calculateStatus] is Pending when the
    reading is absent; with a reading it is Pass exactly when
    [min <= actual <= max] and Fail otherwise; both bounds are included:
    a reading equal to the minimum or to the maximum of a non-empty
    range is Pass.
    The entry written by [updateSpec] carries the status computed from
    the entered reading and the entry's own bounds, and in every state
    the hook reaches from a consistent template each stored status is
    that function of the stored reading and bounds. *)
Theorem calculateStatus_is_the_status (init : list InspectionSpec) :
  (forall a lo hi,
      calculateStatus None lo hi = Pending /\
      (calculateStatus (Some a) lo hi = Pass
         <-> Js.le lo a = true /\ Js.le a hi = true) /\
      (calculateStatus (Some a) lo hi = Fail
         <-> ~ (Js.le lo a = true /\ Js.le a hi = true))) /\
  (forall lo hi,
      Js.le lo hi = true ->
      calculateStatus (Some lo) lo hi = Pass /\
      calculateStatus (Some hi) lo hi = Pass) /\
  (forall i a st s,
      In s (specs (updateSpec i a st)) -> id s = i ->
      actual s = a /\ status s = calculateStatus a (min s) (max s)) /\
  (Forall consistent init ->
   forall ops, Forall consistent (specs (run init ops))).
Proof.
  split; [|split; [|split]].
  - intros a lo hi. split; [|split].
    + apply calculateStatus_absent.
    + apply calculateStatus_pass.
    + apply calculateStatus_fail.
  - intros lo hi Hle. destruct (le_ordered lo hi Hle) as [Hlo Hhi].
    split; apply calculateStatus_pass; split;
      solve [ exact Hle | now apply le_refl ].
  - intros i a st s Hin Hid. simpl in Hin.
    apply in_map_iff in Hin. destruct Hin as [s0 [<- _]].
    destruct (updateEntry_fixed i a s0) as [Hi _].
    rewrite Hi in Hid. rewrite (updateEntry_match i a s0 Hid). simpl. auto.
  - intros Hinit ops. now apply run_consistent.
Qed.

Lemma calculateStatus_is_the_status_witness :
  Forall consistent INITIAL_SPECS /\
  Forall consistent
    (specs (run INITIAL_SPECS
              [UpdateSpec 1 (Some reading_050);
               UpdateSpec 2 (Some reading_060);
               UpdateSpec 1 None])).
Proof.
  split.
  - repeat constructor.
  - apply (proj2 (proj2 (proj2
             (calculateStatus_is_the_status INITIAL_SPECS)))).
    repeat constructor.
Defined.

(** *** [updateSpec] *)

Lemma updateSpec_nth i a st n s :
  nth_error (specs st) n = Some s ->
  nth_error (specs (updateSpec i a st)) n = Some (updateEntry i a s).
Proof. intros H. simpl. now apply map_nth_error. Qed.

Lemma map_updateEntry_absent i a l :
  (forall s, In s l -> id s <> i) -> map (updateEntry i a) l = l.
Proof.
  induction l as [|s l IH]; intros H; simpl.
  - reflexivity.
  - rewrite updateEntry_other by (apply H; now left).
    f_equal. apply IH. intros s' Hs'. apply H. now right.
Qed.

Lemma updateSpec_absent i a st :
  (forall s, In s (specs st) -> id s <> i) -> updateSpec i a st = st.
Proof.
  intros H. destruct st as [l rel rej]. unfold updateSpec, setSpecs. simpl in *.
  now rewrite map_updateEntry_absent.
Qed.

(** C10.  [updateSpec i a] is total and leaves the two disposition
    flags and the length of the list alone; position by position it
    replaces an entry whose id is [i] by the same entry with the new
    reading and its computed status, and returns every other entry as
    it was; when no entry has id [i] the whole state is returned
    unchanged. *)
Theorem updateSpec_replaces_only_the_match i a st :
  lotReleased (updateSpec i a st) = lotReleased st /\
  lotRejected (updateSpec i a st) = lotRejected st /\
  List.length (specs (updateSpec i a st)) = List.length (specs st) /\
  (forall n s, nth_error (specs st) n = Some s -> id s <> i ->
     nth_error (specs (updateSpec i a st)) n = Some s) /\
  (forall n s, nth_error (specs st) n = Some s -> id s = i ->
     nth_error (specs (updateSpec i a st)) n
     = Some (withReading s a (calculateStatus a (min s) (max s)))) /\
  ((forall s, In s (specs st) -> id s <> i) -> updateSpec i a st = st).
Proof.
  repeat split.
  - simpl. apply length_map.
  - intros n s Hn Hne.
    rewrite (updateSpec_nth i a st n s Hn). now rewrite updateEntry_other.
  - intros n s Hn He.
    rewrite (updateSpec_nth i a st n s Hn). now rewrite updateEntry_match.
  - apply updateSpec_absent.
Qed.

Lemma updateSpec_replaces_only_the_match_witness :
  (forall s, In s INITIAL_SPECS -> id s <> 7%Z) /\
  updateSpec 7 (Some reading_050) (useInspection INITIAL_SPECS)
  = useInspection INITIAL_SPECS /\
  nth_error (specs (updateSpec 1 (Some reading_050)
                      (useInspection INITIAL_SPECS))) 0
  = option_map (fun s => withReading s (Some reading_050) Pass)
      (nth_error INITIAL_SPECS 0) /\
  nth_error (specs (updateSpec 1 (Some reading_050)
                      (useInspection INITIAL_SPECS))) 1
  = nth_error INITIAL_SPECS 1.
Proof.
  assert (H7 : forall s, In s INITIAL_SPECS -> id s <> 7%Z).
  { intros s Hs. simpl in Hs.
    repeat (destruct Hs as [<- | Hs]; [simpl; discriminate|]).
    destruct Hs. }
  pose proof (updateSpec_replaces_only_the_match
                7 (Some reading_050) (useInspection INITIAL_SPECS))
    as [_ [_ [_ [_ [_ Habsent]]]]].
  pose proof (updateSpec_replaces_only_the_match
                1 (Some reading_050) (useInspection INITIAL_SPECS))
    as [_ [_ [_ [Hother [Hmatch _]]]]].
  split; [exact H7|].
  split; [exact (Habsent H7)|].
  split.
  - apply (Hmatch 0%nat _ eq_refl). reflexivity.
  - apply (Hother 1%nat _ eq_refl). simpl. discriminate.
Defined.

(** *** [resetSpecs] *)

Lemma resetSpecs_specs init st :
  specs (resetSpecs init st)
  = map (fun spec => withReading spec None Pending) init.
Proof. reflexivity. Qed.

(** C8.  [resetSpecs] rebuilds the list from the template the hook was
    created with: entry by entry it is the template's entry with the
    reading absent and the status Pending, whatever the current list
    holds; both flags are cleared; and resetting a state that was just
    reset changes nothing. *)
Theorem resetSpecs_restores_template init st st' :
  List.length (specs (resetSpecs init st)) = List.length init /\
  (forall n t, nth_error init n = Some t ->
     nth_error (specs (resetSpecs init st)) n
     = Some (withReading t None Pending)) /\
  Forall (fun s => actual s = None /\ status s = Pending)
         (specs (resetSpecs init st)) /\
  resetSpecs init st = resetSpecs init st' /\
  lotReleased (resetSpecs init st) = false /\
  lotRejected (resetSpecs init st) = false /\
  resetSpecs init (resetSpecs init st) = resetSpecs init st.
Proof.
  repeat split.
  - simpl. apply length_map.
  - intros n t Hn. rewrite resetSpecs_specs.
    now apply map_nth_error with (f := fun spec => withReading spec None Pending).
  - rewrite resetSpecs_specs. apply Forall_forall. intros s Hs.
    apply in_map_iff in Hs. destruct Hs as [t [<- _]]. auto.
Qed.

Lemma resetSpecs_restores_template_witness :
  exists t,
    nth_error INITIAL_SPECS 0 = Some t /\
    nth_error
      (specs (resetSpecs INITIAL_SPECS
                (setLotReleased true
                   (updateSpec 1 (Some reading_060)
                      (useInspection INITIAL_SPECS))))) 0
    = Some (withReading t None Pending).
Proof.
  eexists. split.
  - reflexivity.
  - apply (resetSpecs_restores_template INITIAL_SPECS
             (setLotReleased true
                (updateSpec 1 (Some reading_060)
                   (useInspection INITIAL_SPECS)))
             (useInspection INITIAL_SPECS)).
    reflexivity.
Defined.

End StaticFacts.

(* ------------------------------------------------------------------ *)
(** ** Dynamic field validator *)
(* ------------------------------------------------------------------ *)

Section DynamicFacts.
Import Dynamic.
Variable StringToNumber : string -> Js.number.

(** *** Numeric fields *)

Lemma validateNumericField_present v lo hi :
  validateNumericField StringToNumber (Js.JNumber v) lo hi <> Pending.
Proof.
  unfold validateNumericField. simpl.
  destruct lo as [lo|], hi as [hi|];
    repeat match goal with
           | |- context [if ?b then _ else _] => destruct b
           end; discriminate.
Qed.

(** What the code tests: a defined bound that is crossed. *)
Lemma validateNumericField_fail v lo hi :
  validateNumericField StringToNumber (Js.JNumber v) lo hi = Fail
  <-> (exists x, lo = Some x /\ Js.lt v x = true) \/
      (exists x, hi = Some x /\ Js.gt v x = true).
Proof.
  unfold validateNumericField. simpl.
  destruct lo as [lo|], hi as [hi|];
    try destruct (Js.lt v lo) eqn:Elo;
    try destruct (Js.gt v hi) eqn:Ehi;
    split; intros H; try discriminate; try reflexivity; eauto;
    destruct H as [[x [Hx Hc]] | [x [Hx Hc]]]; congruence.
Qed.

Lemma lower_bound_kept v lo :
  Js.isNaN v = false -> orderedBound lo ->
  ((lo = None \/ exists x, lo = Some x /\ Js.ge v x = true)
   <-> ~ exists x, lo = Some x /\ Js.lt v x = true).
Proof.
  intros Hv Hlo. destruct lo as [lo|]; simpl in Hlo.
  - pose proof (lt_negb_ge v lo Hv Hlo) as E. split.
    + intros [A | [x [A B]]]; [discriminate|].
      intros [y [C D]]. injection A as <-. injection C as <-.
      rewrite B in E. simpl in E. congruence.
    + intros H. right. exists lo. split; [reflexivity|].
      destruct (Js.ge v lo); [reflexivity|].
      exfalso. apply H. exists lo. auto.
  - split.
    + intros _ [x [A _]]. discriminate.
    + intros _. now left.
Qed.

Lemma upper_bound_kept v hi :
  Js.isNaN v = false -> orderedBound hi ->
  ((hi = None \/ exists x, hi = Some x /\ Js.le v x = true)
   <-> ~ exists x, hi = Some x /\ Js.gt v x = true).
Proof.
  intros Hv Hhi. destruct hi as [hi|]; simpl in Hhi.
  - pose proof (gt_negb_le v hi Hv Hhi) as E. split.
    + intros [A | [x [A B]]]; [discriminate|].
      intros [y [C D]]. injection A as <-. injection C as <-.
      rewrite B in E. simpl in E. congruence.
    + intros H. right. exists hi. split; [reflexivity|].
      destruct (Js.le v hi); [reflexivity|].
      exfalso. apply H. exists hi. auto.
  - split.
    + intros _ [x [A _]]. discriminate.
    + intros _. now left.
Qed.

Lemma withinBounds_crossed v lo hi :
  Js.isNaN v = false -> orderedBound lo -> orderedBound hi ->
  (withinBounds v lo hi
   <-> ~ ((exists x, lo = Some x /\ Js.lt v x = true) \/
          (exists x, hi = Some x /\ Js.gt v x = true))).
Proof.
  intros Hv Hlo Hhi. unfold withinBounds.
  rewrite (lower_bound_kept v lo Hv Hlo), (upper_bound_kept v hi Hv Hhi).
  tauto.
Qed.

Lemma numeric_rule_ordered v lo hi :
  Js.isNaN v = false -> orderedBound lo -> orderedBound hi ->
  numeric_rule StringToNumber v lo hi.
Proof.
  intros Hv Hlo Hhi. unfold numeric_rule.
  pose proof (withinBounds_crossed v lo hi Hv Hlo Hhi) as Hw.
  pose proof (validateNumericField_fail v lo hi) as Hf.
  pose proof (validateNumericField_present v lo hi) as Hp.
  split.
  - rewrite Hw, <- Hf.
    destruct (validateNumericField StringToNumber (Js.JNumber v) lo hi); split; congruence.
  - rewrite Hw, <- Hf. split.
    + intros H Hn. now apply Hn.
    + intros H.
      destruct (validateNumericField StringToNumber (Js.JNumber v) lo hi);
        try reflexivity; try congruence.
      exfalso. apply H. discriminate.
Qed.

(** The hypothesis on the value is needed: no comparison with NaN
    holds, so at NaN the code finds no crossed bound and answers Pass,
    where [calculateStatus] answers Fail.  The numeric input is of type
    number; its text is empty or a numeral, and [numericInput] hands
    over no such value. *)
Lemma numeric_rule_fails_at_NaN :
  ~ numeric_rule noStrings Js.NaN (min diameter) (max diameter).
Proof.
  unfold numeric_rule. intros [[Hpass _] _].
  assert (Hw : withinBounds Js.NaN (min diameter) (max diameter))
    by (apply Hpass; reflexivity).
  destruct Hw as [[Hnone | [lo [Hlo Hge]]] _].
  - discriminate.
  - injection Hlo as <-. discriminate.
Qed.

Lemma numericInput_pending parseFloat text lo hi :
  validateNumericField StringToNumber (numericInput parseFloat text) lo hi
  = Pending <-> text = EmptyString.
Proof.
  unfold numericInput.
  destruct (String.eqb text EmptyString) eqn:E.
  - apply String.eqb_eq in E. split; [intros _; exact E | reflexivity].
  - apply String.eqb_neq in E. split; [ | intro H; contradiction].
    intro H. elim (validateNumericField_present _ _ _ H).
Qed.

Lemma numericInput_present parseFloat text :
  text <> EmptyString ->
  numericInput parseFloat text = Js.JNumber (parseFloat text).
Proof.
  intro H. apply String.eqb_neq in H. unfold numericInput.
  rewrite H. reflexivity.
Qed.

(** C5.  An absent value gives Pending whatever the bounds.  With a
    number as value, and numbers as the bounds that are defined, the
    status is Pass exactly when (min undefined or value >= min) and
    (max undefined or value <= max), and Fail otherwise; each bound is
    optional and tested on its own.  So it is for what the numeric
    input hands over: Pending for the empty text and for no other, and
    for a text that parses to a number the rule on that number.  In
    terms of what the code tests: the status of a value that is
    present is Fail exactly when a defined minimum is above it or a
    defined maximum is below it, and Pass otherwise. *)
Theorem validateNumericField_rule parseFloat v lo hi :
  validateNumericField StringToNumber Js.JNull lo hi = Pending /\
  (Js.isNaN v = false -> orderedBound lo -> orderedBound hi ->
   numeric_rule StringToNumber v lo hi) /\
  (forall text,
     validateNumericField StringToNumber (numericInput parseFloat text)
       lo hi = Pending
     <-> text = EmptyString) /\
  (forall text,
     text <> EmptyString -> Js.isNaN (parseFloat text) = false ->
     orderedBound lo -> orderedBound hi ->
     (validateNumericField StringToNumber (numericInput parseFloat text)
        lo hi = Pass
      <-> withinBounds (parseFloat text) lo hi) /\
     (validateNumericField StringToNumber (numericInput parseFloat text)
        lo hi = Fail
      <-> ~ withinBounds (parseFloat text) lo hi)) /\
  (validateNumericField StringToNumber (Js.JNumber v) lo hi = Fail
   <-> (exists x, lo = Some x /\ Js.lt v x = true) \/
       (exists x, hi = Some x /\ Js.gt v x = true)) /\
  (validateNumericField StringToNumber (Js.JNumber v) lo hi = Pass
   <-> ~ ((exists x, lo = Some x /\ Js.lt v x = true) \/
          (exists x, hi = Some x /\ Js.gt v x = true))).
Proof.
  pose proof (validateNumericField_fail v lo hi) as Hf.
  pose proof (validateNumericField_present v lo hi) as Hp.
  split; [reflexivity|]. split; [apply numeric_rule_ordered|].
  split; [intro text; apply numericInput_pending|].
  split; [|split; [exact Hf|]].
  - intros text Ht Hn Hlo Hhi.
    rewrite (numericInput_present parseFloat text Ht).
    exact (numeric_rule_ordered (parseFloat text) lo hi Hn Hlo Hhi).
  - rewrite <- Hf.
    destruct (validateNumericField StringToNumber (Js.JNumber v) lo hi);
      split; congruence.
Qed.

(** *** Select fields *)

(** C6.  A select field holding a non-empty string is Pass, required or
    not; with nothing chosen ([null] or the empty string) it is Pending
    when required and Pending when not required; it is never Fail. *)
Theorem validateSelectField_cases s required :
  (s <> EmptyString ->
   validateSelectField (Js.JString s) required = Pass) /\
  validateSelectField Js.JNull true = Pending /\
  validateSelectField (Js.JString EmptyString) true = Pending /\
  validateSelectField Js.JNull false = Pending /\
  validateSelectField (Js.JString EmptyString) false = Pending /\
  (forall v, validateSelectField v required <> Fail).
Proof.
  split; [|repeat split].
  - intros Hs. apply String.eqb_neq in Hs.
    unfold validateSelectField. simpl. rewrite Hs. simpl.
    now destruct required.
  - intros v. unfold validateSelectField.
    destruct (required && (negb (Js.ToBoolean v) || Js.isEmptyString v));
      [discriminate|].
    destruct (Js.ToBoolean v); discriminate.
Qed.

(** *** [updateValue] *)

Lemma filter_others_twice f l :
  filter (others f) (filter (others f) l) = filter (others f) l.
Proof.
  induction l as [|x l IH]; simpl.
  - reflexivity.
  - destruct (others f x) eqn:E; simpl; rewrite ?E, IH; reflexivity.
Qed.

Lemma updateValue_twice values f v d :
  updateValue StringToNumber (updateValue StringToNumber values f v d) f v d
  = updateValue StringToNumber values f v d.
Proof.
  unfold updateValue. fold (others f).
  rewrite filter_app, filter_others_twice. simpl.
  unfold others at 2. simpl. rewrite String.eqb_refl. simpl.
  now rewrite app_nil_r.
Qed.

Lemma updateValue_ids values f v d :
  map fieldId (updateValue StringToNumber values f v d)
  = filter (fun g => negb (String.eqb g f)) (map fieldId values) ++ [f].
Proof.
  unfold updateValue. rewrite map_app. simpl. f_equal.
  induction values as [|x l IH]; simpl.
  - reflexivity.
  - destruct (negb (String.eqb (fieldId x) f)); simpl; now rewrite IH.
Qed.

Lemma updateValue_once values f v d :
  count (fun x => String.eqb (fieldId x) f)
        (updateValue StringToNumber values f v d) = 1%nat.
Proof.
  unfold count, updateValue. rewrite filter_app, length_app.
  simpl. rewrite String.eqb_refl. simpl.
  assert (E : filter (fun x => String.eqb (fieldId x) f)
                (filter (fun x => negb (String.eqb (fieldId x) f)) values)
              = []).
  { induction values as [|x l IH]; simpl.
    - reflexivity.
    - destruct (String.eqb (fieldId x) f) eqn:Ex; simpl.
      + exact IH.
      + rewrite Ex. exact IH. }
  rewrite E. reflexivity.
Qed.

Lemma updateValue_NoDup values f v d :
  NoDup (map fieldId values) ->
  NoDup (map fieldId (updateValue StringToNumber values f v d)).
Proof.
  intros H. rewrite updateValue_ids.
  apply NoDup_app.
  - now apply NoDup_filter.
  - repeat constructor. intros [].
  - intros g Hg [<- | []].
    apply filter_In in Hg. destruct Hg as [_ Hg].
    rewrite String.eqb_refl in Hg. discriminate.
Qed.

Lemma replay_NoDup edits :
  NoDup (map fieldId (replay StringToNumber edits)).
Proof.
  unfold replay.
  apply fold_left_invariant
    with (P := fun vs : list InspectionValue => NoDup (map fieldId vs)).
  - intros vs [[f v] d] Hvs. simpl. now apply updateValue_NoDup.
  - constructor.
Qed.

Lemma getValue_updateValue values f v d :
  getValue (updateValue StringToNumber values f v d) f
  = last (updateValue StringToNumber values f v d)
         {| fieldId := f; value := Js.JNull; status := Pending |}.
Proof.
  unfold updateValue. rewrite last_last. unfold getValue.
  set (e := {| fieldId := f; value := v; status := _ |}).
  assert (E : forall l,
             find (fun x => String.eqb (fieldId x) f)
                  (filter (fun x => negb (String.eqb (fieldId x) f)) l ++ [e])
             = Some e).
  { induction l as [|x l IH]; simpl.
    - now rewrite String.eqb_refl.
    - destruct (String.eqb (fieldId x) f) eqn:Ex; simpl.
      + exact IH.
      + rewrite Ex. exact IH. }
  now rewrite E.
Qed.

(** The appended entry carries the new value and the status that the
    validator of the field's type gives to it. *)
Lemma updateValue_entry values f v d :
  updateValue StringToNumber values f v d
  = filter (fun x => negb (String.eqb (fieldId x) f)) values
      ++ [ {| fieldId := f; value := v;
              status :=
                match type d with
                | numeric =>
                    validateNumericField StringToNumber v (min d) (max d)
                | boolean => validateBooleanField v
                | select => validateSelectField v (required d)
                end |} ].
Proof. reflexivity. Qed.

Lemma getValue_updateValue_entry values f v d :
  getValue (updateValue StringToNumber values f v d) f
  = {| fieldId := f; value := v;
       status :=
         match type d with
         | numeric => validateNumericField StringToNumber v (min d) (max d)
         | boolean => validateBooleanField v
         | select => validateSelectField v (required d)
         end |}.
Proof.
  rewrite getValue_updateValue, updateValue_entry. apply last_last.
Qed.

(** C7.  [updateValue] drops the entries of the edited field and appends
    a freshly computed one: the new value with the status that the
    validator of the field's type ([validateNumericField] with the
    field's bounds, [validateBooleanField], [validateSelectField] with
    the field's [required]) gives to the new value, whatever entry the
    field had before.  Hence: applying it twice with the same
    arguments gives the list of applying it once; the identifiers of
    the new list are those of the old one without the edited field, in
    their old order, followed by the edited field (so the list is
    ordered by the last edit of each field, whatever the order of the
    field definitions); the edited field occurs exactly once and
    [getValue] finds the appended entry, with that value and status;
    identifiers that were pairwise different stay so, and every list
    built by edits from the hook's empty list has pairwise different
    identifiers. *)
Theorem updateValue_remove_then_insert values f v d :
  updateValue StringToNumber (updateValue StringToNumber values f v d) f v d
  = updateValue StringToNumber values f v d /\
  updateValue StringToNumber values f v d
  = filter (fun x => negb (String.eqb (fieldId x) f)) values
      ++ [ {| fieldId := f; value := v;
              status :=
                match type d with
                | numeric =>
                    validateNumericField StringToNumber v (min d) (max d)
                | boolean => validateBooleanField v
                | select => validateSelectField v (required d)
                end |} ] /\
  (type d = numeric ->
   status (getValue (updateValue StringToNumber values f v d) f)
   = validateNumericField StringToNumber v (min d) (max d)) /\
  (type d = boolean ->
   status (getValue (updateValue StringToNumber values f v d) f)
   = validateBooleanField v) /\
  (type d = select ->
   status (getValue (updateValue StringToNumber values f v d) f)
   = validateSelectField v (required d)) /\
  value (getValue (updateValue StringToNumber values f v d) f) = v /\
  (forall values',
     getValue (updateValue StringToNumber values' f v d) f
     = getValue (updateValue StringToNumber values f v d) f) /\
  map fieldId (updateValue StringToNumber values f v d)
  = filter (fun g => negb (String.eqb g f)) (map fieldId values) ++ [f] /\
  count (fun x => String.eqb (fieldId x) f)
        (updateValue StringToNumber values f v d) = 1%nat /\
  getValue (updateValue StringToNumber values f v d) f
  = last (updateValue StringToNumber values f v d)
         {| fieldId := f; value := Js.JNull; status := Pending |} /\
  (NoDup (map fieldId values) ->
   NoDup (map fieldId (updateValue StringToNumber values f v d))) /\
  (forall edits, NoDup (map fieldId (replay StringToNumber edits))).
Proof.
  split; [apply updateValue_twice|].
  split; [apply updateValue_entry|].
  split; [intro E; rewrite getValue_updateValue_entry; simpl;
          rewrite E; reflexivity|].
  split; [intro E; rewrite getValue_updateValue_entry; simpl;
          rewrite E; reflexivity|].
  split; [intro E; rewrite getValue_updateValue_entry; simpl;
          rewrite E; reflexivity|].
  split; [rewrite getValue_updateValue_entry; reflexivity|].
  split; [intro values'; rewrite !getValue_updateValue_entry; reflexivity|].
  split; [apply updateValue_ids|].
  split; [apply updateValue_once|].
  split; [apply getValue_updateValue|].
  split; [apply updateValue_NoDup|].
  apply replay_NoDup.
Qed.

End DynamicFacts.

Lemma validateNumericField_rule_witness :
  Js.isNaN Static.reading_050 = false /\
  Dynamic.orderedBound (Dynamic.min Dynamic.diameter) /\
  Dynamic.orderedBound (Dynamic.max Dynamic.diameter) /\
  Dynamic.numeric_rule Dynamic.noStrings Static.reading_050
    (Dynamic.min Dynamic.diameter) (Dynamic.max Dynamic.diameter) /\
  (Dynamic.validateNumericField Dynamic.noStrings
     (Dynamic.numericInput Inspector.sampleParse "0.60")
     (Dynamic.min Dynamic.diameter) (Dynamic.max Dynamic.diameter) = Fail
   <-> ~ Dynamic.withinBounds (Inspector.sampleParse "0.60")
           (Dynamic.min Dynamic.diameter) (Dynamic.max Dynamic.diameter)).
Proof.
  pose proof (validateNumericField_rule Dynamic.noStrings
                Inspector.sampleParse Static.reading_050
                (Dynamic.min Dynamic.diameter)
                (Dynamic.max Dynamic.diameter))
    as (_ & Hrule & _ & Htext & _).
  assert (Ht : "0.60"%string <> EmptyString) by discriminate.
  split; [reflexivity|]. split; [reflexivity|]. split; [reflexivity|].
  split; [exact (Hrule eq_refl eq_refl eq_refl)|].
  exact (proj2 (Htext "0.60"%string Ht eq_refl eq_refl eq_refl)).
Defined.

Lemma validateSelectField_cases_witness :
  "OK"%string <> EmptyString /\
  Dynamic.validateSelectField (Js.JString "OK") true = Pass.
Proof.
  split.
  - discriminate.
  - apply (validateSelectField_cases "OK" true). discriminate.
Defined.

Lemma updateValue_remove_then_insert_witness :
  NoDup (map Dynamic.fieldId
           (Dynamic.replay Dynamic.noStrings
              [("diameter"%string, Js.JNumber Static.reading_050,
                Dynamic.diameter);
               ("finish"%string, Js.JString "OK", Dynamic.finish)])) /\
  Dynamic.status
    (Dynamic.getValue
       (Dynamic.replay Dynamic.noStrings
          [("diameter"%string, Js.JNumber Static.reading_050,
            Dynamic.diameter);
           ("finish"%string, Js.JString "OK", Dynamic.finish)])
       "diameter")
  = Pass /\
  Dynamic.status
    (Dynamic.getValue
       (Dynamic.updateValue Dynamic.noStrings
          (Dynamic.replay Dynamic.noStrings
             [("diameter"%string, Js.JNumber Static.reading_050,
               Dynamic.diameter);
              ("finish"%string, Js.JString "OK", Dynamic.finish)])
          "diameter" (Js.JNumber Static.reading_060) Dynamic.diameter)
       "diameter")
  = Fail /\
  map Dynamic.fieldId
    (Dynamic.updateValue Dynamic.noStrings
       (Dynamic.replay Dynamic.noStrings
          [("diameter"%string, Js.JNumber Static.reading_050,
            Dynamic.diameter);
           ("finish"%string, Js.JString "OK", Dynamic.finish)])
       "diameter" (Js.JNumber Static.reading_060) Dynamic.diameter)
  = ["finish"%string; "diameter"%string] /\
  NoDup (map Dynamic.fieldId
           (Dynamic.updateValue Dynamic.noStrings
              (Dynamic.replay Dynamic.noStrings
                 [("diameter"%string, Js.JNumber Static.reading_050,
                   Dynamic.diameter);
                  ("finish"%string, Js.JString "OK", Dynamic.finish)])
              "diameter" (Js.JNumber Static.reading_060)
              Dynamic.diameter)).
Proof.
  pose proof (updateValue_remove_then_insert Dynamic.noStrings
                (Dynamic.replay Dynamic.noStrings
                   [("diameter"%string, Js.JNumber Static.reading_050,
                     Dynamic.diameter);
                    ("finish"%string, Js.JString "OK", Dynamic.finish)])
                "diameter" (Js.JNumber Static.reading_060)
                Dynamic.diameter)
    as (_ & _ & Hnum & _ & _ & _ & _ & Hids & _ & _ & Hnodup & Hreplay).
  split; [apply Hreplay|]. split; [reflexivity|].
  split; [rewrite (Hnum eq_refl); reflexivity|].
  split; [exact Hids|].
  apply Hnodup. apply Hreplay.
Defined.

(* ------------------------------------------------------------------ *)
(** ** Lot disposition *)
(* ------------------------------------------------------------------ *)

Section InspectorFacts.
Import Inspector.

Lemma hasFailures_true specs :
  hasFailures specs = true
  <-> exists s, In s specs /\ Static.status s = Fail.
Proof.
  unfold hasFailures. rewrite existsb_exists.
  split; intros [s [Hin Hs]]; exists s; split; auto;
    now apply Status_eqb_eq.
Qed.

Lemma hasFailures_false specs :
  hasFailures specs = false
  <-> forall s, In s specs -> Static.status s <> Fail.
Proof.
  split.
  - intros H s Hin Hs.
    assert (hasFailures specs = true) by (apply hasFailures_true; eauto).
    congruence.
  - intros H. destruct (hasFailures specs) eqn:E; [|reflexivity].
    apply hasFailures_true in E. destruct E as [s [Hin Hs]].
    now elim (H s Hin).
Qed.

Lemma allInspected_true specs :
  allInspected specs = true
  <-> forall s, In s specs -> Static.actual s <> None.
Proof.
  unfold allInspected. rewrite forallb_forall.
  split; intros H s Hin; specialize (H s Hin);
    destruct (Static.actual s); congruence.
Qed.

(** In a consistent list, an entry without reading is a Pending one. *)
Lemma allInspected_false specs :
  Forall Static.consistent specs ->
  (allInspected specs = false
   <-> exists s, In s specs /\ Static.status s = Pending).
Proof.
  intros Hc. rewrite Forall_forall in Hc. split.
  - intros H. unfold allInspected in H.
    induction specs as [|s l IH]; simpl in H; [discriminate|].
    destruct (Static.actual s) eqn:Ea; simpl in H.
    + destruct IH as [s' [Hin Hs']]; auto.
      * intros x Hx. apply Hc. now right.
      * exists s'. split; [now right | exact Hs'].
    + exists s. split; [now left|].
      apply consistent_pending; [apply Hc; now left | exact Ea].
  - intros [s [Hin Hs]].
    destruct (allInspected specs) eqn:E; [|reflexivity].
    rewrite allInspected_true in E.
    apply consistent_pending in Hs; [|now apply Hc].
    now elim (E s Hin).
Qed.

(** The three ways [handleApprove] can go. *)
Lemma handleApprove_failures pdf v :
  hasFailures (inspectionSpecs v) = true ->
  handleApprove pdf v
  = (Normal,
     {| parent := parent v; isReadOnly := isReadOnly v;
        confirmDialog := None |},
     [reasonFailures]).
Proof. intros H. unfold handleApprove. now rewrite H. Qed.

Lemma handleApprove_incomplete pdf v :
  hasFailures (inspectionSpecs v) = false ->
  allInspected (inspectionSpecs v) = false ->
  handleApprove pdf v
  = (Normal,
     {| parent := parent v; isReadOnly := isReadOnly v;
        confirmDialog := None |},
     [reasonIncomplete]).
Proof. intros H1 H2. unfold handleApprove. now rewrite H1, H2. Qed.

Lemma handleApprove_release pdf v :
  hasFailures (inspectionSpecs v) = false ->
  allInspected (inspectionSpecs v) = true ->
  handleApprove pdf v
  = (Normal,
     {| parent := Static.setLotReleased true (parent v);
        isReadOnly := isReadOnly v;
        confirmDialog := None |},
     [ GenerateCertificatePDF;
       match pdf with
       | Downloaded =>
           ToastSuccess "Lot #296039 APPROVED for release"
             "Certificate of Conformance generated and downloaded."
       | Threw => noticeCertificate
       end ]).
Proof.
  intros H1 H2. unfold handleApprove. rewrite H1, H2.
  destruct pdf; reflexivity.
Qed.

Lemma reasons_differ : reasonFailures <> reasonIncomplete.
Proof. discriminate. Qed.

(** C2.  On an open lot whose entries are consistent, [handleApprove]
    always completes normally.  If some entry is Fail it reports the
    out-of-tolerance reason and nothing else; if no entry is Fail but
    some entry is Pending it reports the not-all-inspected reason and
    nothing else; the two reasons are different messages, and in both
    cases the parent state, hence the lot, is left as it was.  The lot
    is released by the call exactly when every entry has a reading and
    no entry is Fail. *)
Theorem handleApprove_rejects_with_reason pdf v :
  lotReleased v = false ->
  Forall Static.consistent (inspectionSpecs v) ->
  completion (handleApprove pdf v) = Normal /\
  reasonFailures <> reasonIncomplete /\
  ((exists s, In s (inspectionSpecs v) /\ Static.status s = Fail) ->
   effects (handleApprove pdf v) = [reasonFailures] /\
   parent (after (handleApprove pdf v)) = parent v /\
   lotReleased (after (handleApprove pdf v)) = false) /\
  ((forall s, In s (inspectionSpecs v) -> Static.status s <> Fail) ->
   (exists s, In s (inspectionSpecs v) /\ Static.status s = Pending) ->
   effects (handleApprove pdf v) = [reasonIncomplete] /\
   parent (after (handleApprove pdf v)) = parent v /\
   lotReleased (after (handleApprove pdf v)) = false) /\
  (lotReleased (after (handleApprove pdf v)) = true
   <-> forall s, In s (inspectionSpecs v) ->
         Static.actual s <> None /\ Static.status s <> Fail).
Proof.
  intros Hopen Hcons.
  destruct (hasFailures (inspectionSpecs v)) eqn:Hf;
    [|destruct (allInspected (inspectionSpecs v)) eqn:Ha].
  - (* a failure is present *)
    rewrite (handleApprove_failures pdf v Hf).
    unfold completion, effects, after, lotReleased. simpl.
    fold (lotReleased v). rewrite Hopen.
    split; [reflexivity|]. split; [apply reasons_differ|].
    split; [auto|]. split.
    + intros Hnone. apply hasFailures_false in Hnone. congruence.
    + split; [discriminate|].
      intros H. apply hasFailures_true in Hf.
      destruct Hf as [s [Hin Hs]]. now elim (proj2 (H s Hin)).
  - (* complete and without failure: released *)
    rewrite (handleApprove_release pdf v Hf Ha).
    unfold completion, effects, after, lotReleased. simpl.
    split; [reflexivity|]. split; [apply reasons_differ|].
    split; [|split].
    + intros Hsome. apply hasFailures_true in Hsome. congruence.
    + intros _ Hpend. apply (allInspected_false _ Hcons) in Hpend.
      congruence.
    + split; [|reflexivity].
      intros _ s Hin. split.
      * now apply (proj1 (allInspected_true _) Ha).
      * now apply (proj1 (hasFailures_false _) Hf).
  - (* incomplete, no failure *)
    rewrite (handleApprove_incomplete pdf v Hf Ha).
    unfold completion, effects, after, lotReleased. simpl.
    fold (lotReleased v). rewrite Hopen.
    split; [reflexivity|]. split; [apply reasons_differ|].
    split; [|split].
    + intros Hsome. apply hasFailures_true in Hsome. congruence.
    + auto.
    + split; [discriminate|].
      intros H.
      assert (allInspected (inspectionSpecs v) = true).
      { apply allInspected_true. intros s Hin. apply (H s Hin). }
      congruence.
Qed.

Lemma handleApprove_rejects_with_reason_witness :
  lotReleased (openView Static.oneFailure) = false /\
  Forall Static.consistent (inspectionSpecs (openView Static.oneFailure)) /\
  effects (handleApprove Downloaded (openView Static.oneFailure))
  = [reasonFailures] /\
  lotReleased (openView Static.INITIAL_SPECS) = false /\
  Forall Static.consistent
    (inspectionSpecs (openView Static.INITIAL_SPECS)) /\
  effects (handleApprove Downloaded (openView Static.INITIAL_SPECS))
  = [reasonIncomplete] /\
  lotReleased (openView Static.allWithin) = false /\
  Forall Static.consistent (inspectionSpecs (openView Static.allWithin)) /\
  lotReleased (after (handleApprove Threw (openView Static.allWithin)))
  = true.
Proof.
  assert (H1 : Forall Static.consistent
                 (inspectionSpecs (openView Static.oneFailure)))
    by (repeat constructor).
  assert (H2 : Forall Static.consistent
                 (inspectionSpecs (openView Static.INITIAL_SPECS)))
    by (repeat constructor).
  assert (H3 : Forall Static.consistent
                 (inspectionSpecs (openView Static.allWithin)))
    by (repeat constructor).
  split; [reflexivity|]. split; [exact H1|]. split.
  { apply (handleApprove_rejects_with_reason Downloaded
             (openView Static.oneFailure) eq_refl H1).
    eexists. split; [left; reflexivity | reflexivity]. }
  split; [reflexivity|]. split; [exact H2|]. split.
  { apply (handleApprove_rejects_with_reason Downloaded
             (openView Static.INITIAL_SPECS) eq_refl H2).
    - intros s Hs. simpl in Hs.
      repeat (destruct Hs as [<- | Hs]; [discriminate|]). destruct Hs.
    - eexists. split; [left; reflexivity | reflexivity]. }
  split; [reflexivity|]. split; [exact H3|].
  apply (handleApprove_rejects_with_reason Threw
           (openView Static.allWithin) eq_refl H3).
  intros s Hs. simpl in Hs.
  repeat (destruct Hs as [<- | Hs]; [split; discriminate|]). destruct Hs.
Defined.

(** C3, evaluated on the empty list: the hook's [allPassed] is false,
    yet both guards of [handleApprove] hold vacuously, the view offers
    the lot as eligible, and the approval releases it. *)
Theorem empty_list_is_released pdf :
  Static.allPassed [] = false /\
  hasFailures [] = false /\
  allInspected [] = true /\
  allPass [] = true /\
  lotReleased (openView []) = false /\
  lotReleased (after (handleApprove pdf (openView []))) = true.
Proof. destruct pdf; repeat split. Qed.

(** C9.  When both guards hold, [handleApprove] completes normally and
    sets [lotReleased] whether the certificate generator returns or
    throws; the generator is called exactly once; when it throws, the
    only notice is the certificate error, reported after the call.
    When a guard fails the generator is not called and [lotReleased]
    keeps its value.  For every event of the view, the generator is
    called once if the event carries out the release and not at all
    otherwise. *)
Theorem handleApprove_release_is_authoritative parseFloat init pdf v :
  (hasFailures (inspectionSpecs v) = false ->
   allInspected (inspectionSpecs v) = true ->
   completion (handleApprove pdf v) = Normal /\
   lotReleased (after (handleApprove pdf v)) = true /\
   certificateCalls (effects (handleApprove pdf v)) = 1%nat /\
   (pdf = Threw ->
    effects (handleApprove pdf v)
    = [GenerateCertificatePDF; noticeCertificate])) /\
  (allPass (inspectionSpecs v) = false ->
   certificateCalls (effects (handleApprove pdf v)) = 0%nat /\
   lotReleased (after (handleApprove pdf v)) = lotReleased v) /\
  (forall e,
     certificateCalls (effects (dispatch parseFloat init e v))
     = if releases e v then 1%nat else 0%nat).
Proof.
  split; [|split].
  - intros Hf Ha. rewrite (handleApprove_release pdf v Hf Ha).
    unfold completion, effects, after, lotReleased. simpl.
    repeat split.
    + now destruct pdf.
    + now intros ->.
  - unfold allPass. intros H.
    destruct (hasFailures (inspectionSpecs v)) eqn:Hf.
    + rewrite (handleApprove_failures pdf v Hf). split; reflexivity.
    + destruct (allInspected (inspectionSpecs v)) eqn:Ha; [discriminate|].
      rewrite (handleApprove_incomplete pdf v Hf Ha). split; reflexivity.
  - intros e. unfold releases, dispatch, allPass.
    destruct e as [i text| | | |pdf'|]; simpl.
    + destruct (lotReleased v || lotRejected v || isReadOnly v); reflexivity.
    + destruct (lotReleased v), (lotRejected v), (confirmDialog v);
        reflexivity.
    + destruct (lotReleased v), (lotRejected v), (confirmDialog v);
        reflexivity.
    + destruct (confirmDialog v); reflexivity.
    + destruct (confirmDialog v) as [[|]|]; try reflexivity.
      destruct (hasFailures (inspectionSpecs v)) eqn:Hf.
      * rewrite (handleApprove_failures pdf' v Hf).
        now rewrite andb_false_r.
      * destruct (allInspected (inspectionSpecs v)) eqn:Ha.
        -- rewrite (handleApprove_release pdf' v Hf Ha).
           now destruct pdf'.
        -- now rewrite (handleApprove_incomplete pdf' v Hf Ha).
    + destruct (confirmDialog v); reflexivity.
Qed.

Lemma handleApprove_release_is_authoritative_witness :
  hasFailures (inspectionSpecs (openView Static.allWithin)) = false /\
  allInspected (inspectionSpecs (openView Static.allWithin)) = true /\
  lotReleased (after (handleApprove Threw (openView Static.allWithin)))
  = true /\
  effects (handleApprove Threw (openView Static.allWithin))
  = [GenerateCertificatePDF; noticeCertificate] /\
  allPass (inspectionSpecs (openView Static.oneFailure)) = false /\
  certificateCalls
    (effects (handleApprove Threw (openView Static.oneFailure))) = 0%nat.
Proof.
  pose proof (handleApprove_release_is_authoritative
                (fun _ => Js.NaN) Static.INITIAL_SPECS Threw
                (openView Static.allWithin)) as [Hok _].
  pose proof (handleApprove_release_is_authoritative
                (fun _ => Js.NaN) Static.INITIAL_SPECS Threw
                (openView Static.oneFailure)) as [_ [Hko _]].
  specialize (Hok eq_refl eq_refl). specialize (Hko eq_refl).
  destruct Hok as [_ [Hrel [_ Hthrew]]]. destruct Hko as [Hzero _].
  split; [reflexivity|]. split; [reflexivity|].
  split; [exact Hrel|]. split; [exact (Hthrew eq_refl)|].
  split; [reflexivity | exact Hzero].
Defined.

(** *** The two flags along a session *)

Section Sessions.
Variable parseFloat : string -> Js.number.
Variable init : list Static.InspectionSpec.

Lemma mount_invariant readOnly :
  disposition_invariant (mount init readOnly).
Proof. split; reflexivity. Qed.

(** Case analysis on the guards of [handleApprove]. *)
Ltac approve_cases pdf v :=
  let Hf := fresh "Hf" in
  let Ha := fresh "Ha" in
  destruct (hasFailures (inspectionSpecs v)) eqn:Hf;
  [ rewrite (handleApprove_failures pdf v Hf)
  | destruct (allInspected (inspectionSpecs v)) eqn:Ha;
    [ rewrite (handleApprove_release pdf v Hf Ha)
    | rewrite (handleApprove_incomplete pdf v Hf Ha) ] ].

Lemma step_invariant v e :
  disposition_invariant v ->
  disposition_invariant (step parseFloat init v e).
Proof.
  unfold disposition_invariant, step, dispatch, lotReleased, lotRejected.
  destruct v as [[specs rel rej] ro dlg]. simpl.
  intros [Hdlg Hflags].
  destruct e as [i text| | | |pdf|]; simpl.
  - destruct (rel || rej || ro); simpl; auto.
  - destruct rel; simpl; auto. destruct rej; simpl; auto.
    split; [discriminate | reflexivity].
  - destruct rel; simpl; auto. destruct rej; simpl; auto.
    split; [discriminate | reflexivity].
  - auto.
  - destruct dlg as [[|]|]; simpl; auto.
    + (* approval confirmed: the dialog was open, so the lot was open *)
      assert (Hopen : rel || rej = false).
      { destruct (rel || rej); [|reflexivity].
        discriminate (Hdlg eq_refl). }
      apply orb_false_elim in Hopen. destruct Hopen as [-> ->].
      match goal with
      | |- context [handleApprove pdf ?w] => approve_cases pdf w
      end; simpl; split; auto.
    + assert (Hopen : rel || rej = false).
      { destruct (rel || rej); [|reflexivity].
        discriminate (Hdlg eq_refl). }
      apply orb_false_elim in Hopen. destruct Hopen as [-> ->].
      split; reflexivity.
  - split; [discriminate | reflexivity].
Qed.

Lemma session_invariant readOnly es :
  disposition_invariant (session parseFloat init readOnly es).
Proof.
  unfold session. apply fold_left_invariant.
  - intros v e. apply step_invariant.
  - apply mount_invariant.
Qed.

(** No event but the end of the shift clears a flag. *)
Lemma step_keeps_flags v e :
  e <> EndShift ->
  (lotReleased v = true ->
   lotReleased (step parseFloat init v e) = true) /\
  (lotRejected v = true ->
   lotRejected (step parseFloat init v e) = true).
Proof.
  intros He.
  unfold step, dispatch, lotReleased, lotRejected.
  destruct v as [[specs rel rej] ro dlg]. simpl.
  destruct e as [i text| | | |pdf|]; simpl; try congruence.
  - destruct (rel || rej || ro); simpl; auto.
  - destruct rel; simpl; auto. destruct rej; simpl; auto.
  - destruct rel; simpl; auto. destruct rej; simpl; auto.
  - auto.
  - destruct dlg as [[|]|]; simpl; auto.
    match goal with
    | |- context [handleApprove pdf ?w] => approve_cases pdf w
    end; simpl; auto.
Qed.

Lemma step_EndShift v :
  lotReleased (step parseFloat init v EndShift) = false /\
  lotRejected (step parseFloat init v EndShift) = false.
Proof. split; reflexivity. Qed.

(** C4.  The view is mounted with both flags false.  In every state a
    session of user events reaches (entering readings, opening,
    cancelling and confirming the approval and rejection dialogs,
    ending the shift) at most one of [lotReleased] and [lotRejected] is
    true.  From such a state no event other than the end of the shift
    clears a flag that is set, and the end of the shift clears both. *)
Theorem at_most_one_disposition readOnly es :
  lotReleased (mount init readOnly) = false /\
  lotRejected (mount init readOnly) = false /\
  lotReleased (session parseFloat init readOnly es)
    && lotRejected (session parseFloat init readOnly es) = false /\
  (forall e, e <> EndShift ->
     (lotReleased (session parseFloat init readOnly es) = true ->
      lotReleased
        (step parseFloat init (session parseFloat init readOnly es) e)
      = true) /\
     (lotRejected (session parseFloat init readOnly es) = true ->
      lotRejected
        (step parseFloat init (session parseFloat init readOnly es) e)
      = true)) /\
  lotReleased
    (step parseFloat init (session parseFloat init readOnly es) EndShift)
  = false /\
  lotRejected
    (step parseFloat init (session parseFloat init readOnly es) EndShift)
  = false.
Proof.
  split; [reflexivity|]. split; [reflexivity|].
  split; [apply session_invariant|].
  split; [intros e He; now apply step_keeps_flags|].
  apply step_EndShift.
Qed.

(** The entries stay consistent along a session. *)
Lemma session_consistent readOnly es :
  Forall Static.consistent init ->
  Forall Static.consistent
    (inspectionSpecs (session parseFloat init readOnly es)).
Proof.
  intros Hinit. unfold session.
  apply fold_left_invariant
    with (P := fun v => Forall Static.consistent (inspectionSpecs v)).
  - intros v e Hv. unfold step, dispatch, inspectionSpecs in *.
    assert (Hupd : forall i a,
               Forall Static.consistent
                 (Static.specs (Static.updateSpec i a (parent v)))).
    { intros i a.
      exact (apply_consistent init (parent v) (Static.UpdateSpec i a)
               Hinit Hv). }
    destruct e as [i text| | | |pdf|]; simpl.
    + destruct (lotReleased v || lotRejected v || isReadOnly v); simpl;
        [exact Hv | apply Hupd].
    + destruct (lotReleased v), (lotRejected v); exact Hv.
    + destruct (lotReleased v), (lotRejected v); exact Hv.
    + exact Hv.
    + destruct (confirmDialog v) as [[|]|]; simpl; try exact Hv.
      approve_cases pdf v; exact Hv.
    + exact (apply_consistent init (parent v) Static.ResetSpecs Hinit Hv).
  - exact Hinit.
Qed.

(** Once the lot is released or rejected the reading inputs are
    disabled: entering a reading changes nothing. *)
Lemma readings_frozen v i text :
  lotReleased v || lotRejected v = true ->
  step parseFloat init v (ChangeActual i text) = v.
Proof.
  intros H. unfold step, dispatch. rewrite H. reflexivity.
Qed.

End Sessions.

(** The handlers themselves do not look at the other flag: what keeps
    them apart is that the confirm button is reachable from an open lot
    only (see [dispatch]). *)
Lemma handlers_rely_on_rendering :
  lotRejected (rejectedView Static.allWithin) = true /\
  lotReleased
    (after (handleApprove Downloaded (rejectedView Static.allWithin)))
  = true /\
  lotRejected
    (after (handleApprove Downloaded (rejectedView Static.allWithin)))
  = true.
Proof. repeat split. Qed.

Lemma at_most_one_disposition_witness :
  ClickApprove <> EndShift /\
  lotRejected
    (session (fun _ => Js.NaN) Static.INITIAL_SPECS false
       [ClickReject; ConfirmDialog Downloaded]) = true /\
  lotRejected
    (step (fun _ => Js.NaN) Static.INITIAL_SPECS
       (session (fun _ => Js.NaN) Static.INITIAL_SPECS false
          [ClickReject; ConfirmDialog Downloaded])
       ClickApprove) = true.
Proof.
  split; [discriminate|]. split; [reflexivity|].
  apply (at_most_one_disposition (fun _ => Js.NaN) Static.INITIAL_SPECS
           false [ClickReject; ConfirmDialog Downloaded]).
  - discriminate.
  - reflexivity.
Defined.

(** *** End-to-end scenarios *)

(** A reading in tolerance, then the approval: the entry is Pass,
    [allPassed] holds, the lot is released, and a later reading is not
    stored. *)
Example scenario_release :
  let v1 := session sampleParse Static.oneSpec false
              [ChangeActual 1 "0.50"] in
  let v2 := session sampleParse Static.oneSpec false
              [ChangeActual 1 "0.50"; ClickApprove; ConfirmDialog Downloaded] in
  let v3 := step sampleParse Static.oneSpec v2 (ChangeActual 1 "0.40") in
  map Static.status (inspectionSpecs v1) = [Pass] /\
  Static.allPassed (inspectionSpecs v1) = true /\
  lotReleased v2 = true /\ lotRejected v2 = false /\
  map Static.actual (inspectionSpecs v3) = [Some Static.reading_050].
Proof. repeat split. Qed.

(** A reading out of tolerance: the approval is refused with the
    out-of-tolerance reason, the rejection goes through. *)
Example scenario_reject :
  let v1 := session sampleParse Static.oneSpec false
              [ChangeActual 1 "0.60"; ClickApprove] in
  let v2 := session sampleParse Static.oneSpec false
              [ChangeActual 1 "0.60"; ClickApprove; ConfirmDialog Downloaded;
               ClickReject; ConfirmDialog Downloaded] in
  map Static.status (inspectionSpecs v1) = [Fail] /\
  effects (dispatch sampleParse Static.oneSpec (ConfirmDialog Downloaded) v1)
  = [reasonFailures] /\
  lotRejected v2 = true /\ lotReleased v2 = false.
Proof. repeat split. Qed.

(** Rejecting is possible while every entry is still Pending. *)
Example scenario_reject_pending :
  let v := session sampleParse Static.INITIAL_SPECS false
             [ClickReject; ConfirmDialog Downloaded] in
  map Static.status (inspectionSpecs v) = [Pending; Pending; Pending; Pending] /\
  lotRejected v = true /\ lotReleased v = false.
Proof. repeat split. Qed.

End InspectorFacts.

(* ------------------------------------------------------------------ *)
(** ** The validators on concrete readings *)
(* ------------------------------------------------------------------ *)

Example calculateStatus_at_the_bounds :
  let lo := Static.bound_047 in
  let hi := Static.bound_053 in
  map Static.min Static.oneSpec = [lo] /\
  map Static.max Static.oneSpec = [hi] /\
  Static.calculateStatus (Some lo) lo hi = Pass /\
  Static.calculateStatus (Some hi) lo hi = Pass /\
  Static.calculateStatus (Some Static.reading_050) lo hi = Pass /\
  Static.calculateStatus (Some Static.reading_040) lo hi = Fail /\
  Static.calculateStatus (Some Static.reading_060) lo hi = Fail /\
  Static.calculateStatus (Some Js.NaN) lo hi = Fail /\
  Static.calculateStatus None lo hi = Pending.
Proof. repeat split. Qed.

Example validateNumericField_max_only :
  let f := Dynamic.runout in
  Dynamic.validateNumericField Dynamic.noStrings
    (Js.JNumber Static.reading_050) (Dynamic.min f) (Dynamic.max f) = Pass /\
  Dynamic.validateNumericField Dynamic.noStrings
    (Js.JNumber Static.reading_060) (Dynamic.min f) (Dynamic.max f) = Fail /\
  Dynamic.validateNumericField Dynamic.noStrings
    Js.JNull (Dynamic.min f) (Dynamic.max f) = Pending.
Proof. repeat split. Qed.

Example validateBooleanField_cases :
  Dynamic.validateBooleanField (Js.JBoolean true) = Pass /\
  Dynamic.validateBooleanField (Js.JBoolean false) = Fail /\
  Dynamic.validateBooleanField Js.JNull = Pending.
Proof. repeat split. Qed.

Example getValue_untouched :
  Dynamic.getValue [] "finish"
  = {| Dynamic.fieldId := "finish";
       Dynamic.value := Js.JNull;
       Dynamic.status := Pending |}.
Proof. reflexivity. Qed.

(* ------------------------------------------------------------------ *)
(** ** The derived values of the hook *)
(* ------------------------------------------------------------------ *)

Section CountFacts.
Import Static.

Lemma count_le (A : Type) (p : A -> bool) (l : list A) :
  (count p l <= List.length l)%nat.
Proof.
  unfold count. induction l as [|x l IH]; simpl; [lia|].
  destruct (p x); simpl; lia.
Qed.

(** [xs.filter(p).length === xs.length] says that [p] holds of every
    element. *)
Lemma count_all (A : Type) (p : A -> bool) (l : list A) :
  count p l = List.length l <-> forall x, In x l -> p x = true.
Proof.
  unfold count. induction l as [|x l IH]; simpl.
  - split; [intros _ y [] | reflexivity].
  - pose proof (count_le A p l) as Hle. unfold count in Hle.
    destruct (p x) eqn:Ex; simpl.
    + split.
      * intros H y [<- | Hy]; [exact Ex|].
        apply IH; [lia | exact Hy].
      * intros H. f_equal. apply IH. intros y Hy. apply H. now right.
    + split.
      * intros H. lia.
      * intros H. specialize (H x (or_introl eq_refl)). congruence.
Qed.

(** [xs.filter(p).length > 0] says that [p] holds of some element. *)
Lemma count_pos (A : Type) (p : A -> bool) (l : list A) :
  (0 <? count p l)%nat = existsb p l.
Proof.
  unfold count. induction l as [|x l IH]; simpl; [reflexivity|].
  destruct (p x); simpl; [reflexivity | exact IH].
Qed.

Lemma count_app (A : Type) (p : A -> bool) (l l' : list A) :
  count p (l ++ l') = (count p l + count p l')%nat.
Proof. unfold count. now rewrite filter_app, length_app. Qed.

Lemma counts_sum specs :
  (passCount specs + failCount specs + pendingCount specs)%nat
  = List.length specs.
Proof.
  unfold passCount, failCount, pendingCount, count.
  induction specs as [|s l IH]; simpl; [reflexivity|].
  destruct (status s); simpl; lia.
Qed.

(** X1.  The three counters of the hook partition the list: every
    entry is counted by exactly one of [passCount], [failCount] and
    [pendingCount], so they add up to the number of entries, and each
    of them is the number of entries with that status. *)
Theorem counts_partition_the_list specs :
  (passCount specs + failCount specs + pendingCount specs)%nat
  = List.length specs /\
  (forall s, In s specs -> status s = Pass ->
     (0 < passCount specs)%nat) /\
  (forall s, In s specs -> status s = Fail ->
     (0 < failCount specs)%nat) /\
  (forall s, In s specs -> status s = Pending ->
     (0 < pendingCount specs)%nat).
Proof.
  split; [apply counts_sum|].
  unfold passCount, failCount, pendingCount.
  repeat split; intros s Hs Hst;
    apply Nat.ltb_lt; rewrite count_pos; apply existsb_exists;
    exists s; (split; [exact Hs | now rewrite Hst]).
Qed.

Lemma counts_partition_the_list_witness :
  exists s, In s oneFailure /\ status s = Fail /\
            (0 < failCount oneFailure)%nat.
Proof.
  eexists. split; [left; reflexivity|]. split; [reflexivity|].
  apply (counts_partition_the_list oneFailure) with
    (s := hd (mkSpec 0 "" "" 0 0) oneFailure).
  - left. reflexivity.
  - reflexivity.
Defined.

Lemma allPassed_true specs :
  allPassed specs = true
  <-> specs <> [] /\ forall s, In s specs -> status s = Pass.
Proof.
  unfold allPassed, passCount.
  rewrite andb_true_iff, Nat.eqb_eq, Nat.ltb_lt, count_all.
  split; intros [H1 H2].
  - split.
    + intros ->. simpl in H2. lia.
    + intros s Hs. now apply Status_eqb_eq, H1.
  - split.
    + intros s Hs. now apply Status_eqb_eq, H2.
    + destruct specs; [congruence | simpl; lia].
Qed.

(** X2.  [allPassed] holds exactly when the list is not empty and every
    entry is Pass; it then excludes a failure and leaves nothing
    pending. *)
Theorem allPassed_means_all_pass specs :
  (allPassed specs = true
   <-> specs <> [] /\ forall s, In s specs -> status s = Pass) /\
  (allPassed specs = true ->
   hasFailed specs = false /\ pendingCount specs = 0%nat /\
   passCount specs = List.length specs).
Proof.
  split; [apply allPassed_true|].
  intros H.
  assert (Hp : passCount specs = List.length specs).
  { unfold allPassed in H. apply andb_true_iff in H.
    now apply Nat.eqb_eq. }
  pose proof (counts_sum specs) as Hsum.
  unfold hasFailed. rewrite Nat.ltb_ge. lia.
Qed.

Lemma allPassed_means_all_pass_witness :
  allPassed allWithin = true /\ hasFailed allWithin = false.
Proof.
  split; [reflexivity|].
  apply (allPassed_means_all_pass allWithin). reflexivity.
Defined.

(** *** How updates compose *)

Lemma updateEntry_same i a b s :
  updateEntry i a (updateEntry i b s) = updateEntry i a s.
Proof.
  unfold updateEntry.
  destruct (negb (id s =? i)%Z) eqn:E; simpl.
  - now rewrite E.
  - unfold withReading at 1 2. simpl. now rewrite E.
Qed.

Lemma updateEntry_commute i j a b s :
  i <> j ->
  updateEntry i a (updateEntry j b s) = updateEntry j b (updateEntry i a s).
Proof.
  intros Hij. unfold updateEntry.
  destruct (id s =? i)%Z eqn:Ei, (id s =? j)%Z eqn:Ej; simpl;
    rewrite ?Ei, ?Ej; simpl; try reflexivity.
  apply Z.eqb_eq in Ei, Ej. congruence.
Qed.

(** X3.  Updates of one entry overwrite each other, the last reading
    wins; updates of entries with different ids commute. *)
Theorem updateSpec_composition i j a b st :
  updateSpec i a (updateSpec i b st) = updateSpec i a st /\
  (i <> j ->
   updateSpec i a (updateSpec j b st) = updateSpec j b (updateSpec i a st)).
Proof.
  unfold updateSpec, setSpecs. simpl. split.
  - f_equal. rewrite map_map. apply map_ext. intros s.
    apply updateEntry_same.
  - intros Hij. f_equal. rewrite !map_map. apply map_ext. intros s.
    now apply updateEntry_commute.
Qed.

Lemma updateSpec_composition_witness :
  1%Z <> 2%Z /\
  updateSpec 1 (Some reading_050)
    (updateSpec 2 (Some reading_025) (useInspection INITIAL_SPECS))
  = updateSpec 2 (Some reading_025)
      (updateSpec 1 (Some reading_050) (useInspection INITIAL_SPECS)).
Proof.
  split; [discriminate|].
  apply (updateSpec_composition 1 2 (Some reading_050) (Some reading_025)
           (useInspection INITIAL_SPECS)).
  discriminate.
Defined.

End CountFacts.
(* ------------------------------------------------------------------ *)
(** ** The hook, the page and the view agree *)
(* ------------------------------------------------------------------ *)

Section Agreement.

(** In a consistent entry, Pass means a reading that did not fail. *)
Lemma consistent_pass s :
  Static.consistent s ->
  (Static.status s = Pass
   <-> Static.actual s <> None /\ Static.status s <> Fail).
Proof.
  unfold Static.consistent. intros Hc. split.
  - intros Hp. split; [|congruence].
    intros Hn. rewrite Hn in Hc. simpl in Hc. congruence.
  - intros [Ha Hf].
    destruct (Static.actual s) as [a|] eqn:Ea; [|congruence].
    rewrite Hc in Hf |- *. unfold Static.calculateStatus in *.
    destruct (Js.ge a (Static.min s) && Js.le a (Static.max s));
      congruence.
Qed.

Lemma allPass_true specs :
  Inspector.allPass specs = true
  <-> forall s, In s specs ->
        Static.actual s <> None /\ Static.status s <> Fail.
Proof.
  unfold Inspector.allPass.
  rewrite andb_true_iff, negb_true_iff, allInspected_true, hasFailures_false.
  split.
  - intros [H1 H2] s Hs. split; auto.
  - intros H. split; intros s Hs; now apply H.
Qed.

(** X4.  The hook and the view read the same list the same way, the
    empty list apart: [hasFailed] of the hook is [hasFailures] of the
    view, and on consistent entries [allPassed] of the hook is [allPass]
    of the view together with the list not being empty. *)
Theorem hook_and_view_agree specs :
  Static.hasFailed specs = Inspector.hasFailures specs /\
  (Forall Static.consistent specs ->
   Static.allPassed specs
   = Inspector.allPass specs && (0 <? List.length specs)%nat).
Proof.
  split.
  - unfold Static.hasFailed, Static.failCount, Inspector.hasFailures.
    apply count_pos.
  - intros Hc. rewrite Forall_forall in Hc.
    apply eq_true_iff_eq.
    rewrite allPassed_true, andb_true_iff, allPass_true, Nat.ltb_lt.
    split.
    + intros [Hne Hall]. split.
      * intros s Hs. apply consistent_pass; auto.
      * destruct specs; [congruence | simpl; lia].
    + intros [Hall Hlen]. split.
      * intros ->. simpl in Hlen. lia.
      * intros s Hs. apply consistent_pass; auto.
Qed.

Lemma hook_and_view_agree_witness :
  Forall Static.consistent Static.allWithin /\
  Static.allPassed Static.allWithin
  = Inspector.allPass Static.allWithin
    && (0 <? List.length Static.allWithin)%nat.
Proof.
  assert (H : Forall Static.consistent Static.allWithin)
    by (repeat constructor).
  split; [exact H|].
  apply (hook_and_view_agree Static.allWithin). exact H.
Defined.

(** X5.  The page's own [handleUpdateSpec] computes the list the hook's
    [updateSpec] computes, for every id, reading (absent and NaN
    included) and list. *)
Theorem page_update_is_hook_update i a st :
  Page.handleUpdateSpec i a (Static.specs st)
  = Static.specs (Static.updateSpec i a st).
Proof.
  unfold Page.handleUpdateSpec, Static.updateSpec, Static.setSpecs. simpl.
  apply map_ext. intros s. unfold Static.updateEntry.
  destruct (negb (Static.id s =? i)%Z); [reflexivity|].
  destruct a; reflexivity.
Qed.

Lemma cleared_template_fixed init :
  Forall Page.cleared init -> Shift.clearedTemplate init = init.
Proof.
  unfold Shift.clearedTemplate.
  induction 1 as [|s l [Ha Hs] _ IH]; simpl; [reflexivity|].
  rewrite IH. f_equal.
  destruct s; simpl in *; subst; reflexivity.
Qed.

(** X6.  When the template is as the data file gives it (no readings,
    every status Pending), [resetSpecs] stores the template itself;
    the page's [handleEndShift], which stores [INITIAL_SPECS] and clears
    both flags, therefore leaves exactly the state of the hook's
    [resetSpecs], whatever the state before. *)
Theorem end_of_shift_is_resetSpecs init st :
  (Forall Page.cleared init ->
   Static.resetSpecs init st = Static.useInspection init) /\
  Page.handleEndShift st = Static.resetSpecs Static.INITIAL_SPECS st.
Proof.
  split.
  - intros H. unfold Static.resetSpecs, Static.useInspection,
      Static.setLotRejected, Static.setLotReleased, Static.setSpecs. simpl.
    f_equal. exact (cleared_template_fixed init H).
  - reflexivity.
Qed.

Lemma end_of_shift_is_resetSpecs_witness :
  Forall Page.cleared Static.INITIAL_SPECS /\
  Static.resetSpecs Static.INITIAL_SPECS
    (Static.setLotRejected true
       (Static.updateSpec 1 (Some Static.reading_060)
          (Static.useInspection Static.INITIAL_SPECS)))
  = Static.useInspection Static.INITIAL_SPECS.
Proof.
  assert (H : Forall Page.cleared Static.INITIAL_SPECS)
    by (repeat constructor).
  split; [exact H|].
  exact (proj1 (end_of_shift_is_resetSpecs Static.INITIAL_SPECS _) H).
Defined.

End Agreement.
(* ------------------------------------------------------------------ *)
(** ** What a session of the view guarantees *)
(* ------------------------------------------------------------------ *)

Section ShiftFacts.
Import Inspector.
Variable parseFloat : string -> Js.number.
Variable init : list Static.InspectionSpec.

(** The guards of [handleApprove], one case per outcome. *)
Ltac on_approve pdf v :=
  let Hf := fresh "Hf" in
  let Ha := fresh "Ha" in
  destruct (hasFailures (inspectionSpecs v)) eqn:Hf;
  [ rewrite (handleApprove_failures pdf v Hf)
  | destruct (allInspected (inspectionSpecs v)) eqn:Ha;
    [ rewrite (handleApprove_release pdf v Hf Ha)
    | rewrite (handleApprove_incomplete pdf v Hf Ha) ] ].

(** A dialog that is open tells that the lot is open. *)
Lemma dialog_open_lot_open v d :
  disposition_invariant v -> confirmDialog v = Some d ->
  lotReleased v = false /\ lotRejected v = false.
Proof.
  intros [Hd _] Hc.
  destruct (lotReleased v || lotRejected v) eqn:E.
  - rewrite (Hd eq_refl) in Hc. discriminate.
  - now apply orb_false_elim in E.
Qed.

(** *** A released lot was fully inspected *)

Lemma step_release_sound v e :
  Shift.release_sound v ->
  Shift.release_sound (step parseFloat init v e).
Proof.
  unfold Shift.release_sound, step, dispatch,
    lotReleased, lotRejected, inspectionSpecs.
  destruct v as [[specs rel rej] ro dlg]. simpl.
  intros Hs.
  destruct e as [i text| | | |pdf|]; simpl.
  - destruct rel; simpl; [exact Hs|].
    destruct (rej || ro); simpl; discriminate.
  - destruct rel; simpl; [exact Hs|]. destruct rej; simpl; discriminate.
  - destruct rel; simpl; [exact Hs|]. destruct rej; simpl; discriminate.
  - exact Hs.
  - destruct dlg as [[|]|]; simpl; try exact Hs.
    match goal with
    | |- context [handleApprove pdf ?w] => on_approve pdf w
    end; simpl; try exact Hs.
    intros _. unfold allPass. unfold inspectionSpecs in Hf, Ha.
    simpl in Hf, Ha. now rewrite Ha, Hf.
  - discriminate.
Qed.

Lemma session_release_sound readOnly es :
  disposition_invariant (session parseFloat init readOnly es) /\
  Shift.release_sound (session parseFloat init readOnly es).
Proof.
  unfold session.
  apply fold_left_invariant
    with (P := fun v => disposition_invariant v /\ Shift.release_sound v).
  - intros v e [Hi Hs]. split.
    + now apply step_invariant.
    + now apply step_release_sound.
  - split; [apply mount_invariant | discriminate].
Qed.

(** X7.  In every state a session reaches, a released lot has a reading
    for every entry and no entry that fails; when the template is
    consistent, every entry of a released lot is Pass.  (An empty list
    satisfies this as well.) *)
Theorem released_lot_was_inspected readOnly es :
  (lotReleased (session parseFloat init readOnly es) = true ->
   forall s, In s (inspectionSpecs (session parseFloat init readOnly es)) ->
     Static.actual s <> None /\ Static.status s <> Fail) /\
  (Forall Static.consistent init ->
   lotReleased (session parseFloat init readOnly es) = true ->
   forall s, In s (inspectionSpecs (session parseFloat init readOnly es)) ->
     Static.status s = Pass).
Proof.
  destruct (session_release_sound readOnly es) as [_ Hs].
  split.
  - intros Hr. apply allPass_true. now apply Hs.
  - intros Hc Hr s Hin.
    pose proof (session_consistent parseFloat init readOnly es Hc) as Hall.
    rewrite Forall_forall in Hall.
    apply consistent_pass; [now apply Hall|].
    revert s Hin. apply allPass_true. now apply Hs.
Qed.

(** *** The disposition is final *)

(** On a lot that is released or rejected, with no dialog open, no
    event of the shift does anything. *)
Lemma step_finalised v e :
  lotReleased v || lotRejected v = true -> confirmDialog v = None ->
  Shift.isEndShift e = false ->
  step parseFloat init v e = v.
Proof.
  unfold step, dispatch, lotReleased, lotRejected.
  destruct v as [[specs rel rej] ro dlg]. simpl.
  intros Hflag -> He.
  destruct e as [i text| | | |pdf|]; simpl; try discriminate.
  - rewrite Hflag. reflexivity.
  - destruct rel; [reflexivity|]. simpl in Hflag. now rewrite Hflag.
  - destruct rel; [reflexivity|]. simpl in Hflag. now rewrite Hflag.
  - reflexivity.
  - reflexivity.
Qed.

Lemma continue_finalised v es :
  lotReleased v || lotRejected v = true -> confirmDialog v = None ->
  Shift.withinShift es ->
  Shift.continue parseFloat init v es = v.
Proof.
  intros Hflag Hdlg Hes. unfold Shift.continue.
  induction Hes as [|e es He _ IH]; simpl; [reflexivity|].
  now rewrite (step_finalised v e Hflag Hdlg He).
Qed.

(** X8.  Once a session has released or rejected the lot, nothing the
    user does before the end of the shift changes the view: the flags,
    the readings and their statuses stay as they are (no second
    disposition, no edit). *)
Theorem disposition_is_final readOnly es es' :
  lotReleased (session parseFloat init readOnly es)
    || lotRejected (session parseFloat init readOnly es) = true ->
  Shift.withinShift es' ->
  Shift.continue parseFloat init (session parseFloat init readOnly es) es'
  = session parseFloat init readOnly es.
Proof.
  intros Hflag Hes.
  apply continue_finalised; [exact Hflag | | exact Hes].
  now apply (session_invariant parseFloat init readOnly es).
Qed.

(** *** One certificate per shift *)

Lemma certificateCalls_app l l' :
  certificateCalls (l ++ l')
  = (certificateCalls l + certificateCalls l')%nat.
Proof. unfold certificateCalls. apply count_app. Qed.

(** What an event of the shift does to [lotReleased] and to the count
    of certificates, on a view that satisfies the invariant. *)
Lemma step_release_count v e :
  disposition_invariant v -> Shift.isEndShift e = false ->
  lotReleased (step parseFloat init v e) = lotReleased v || releases e v /\
  certificateCalls (effects (dispatch parseFloat init e v))
  = (if releases e v then 1 else 0)%nat /\
  (releases e v = true -> lotReleased v = false).
Proof.
  unfold disposition_invariant, step, dispatch, releases, allPass,
    lotReleased, lotRejected.
  destruct v as [[specs rel rej] ro dlg]. simpl.
  intros [Hdlg _] He.
  destruct e as [i text| | | |pdf|]; simpl; try discriminate.
  - destruct (rel || rej || ro); simpl;
      rewrite orb_false_r; repeat split; discriminate.
  - destruct rel, rej, dlg; simpl; repeat split; discriminate.
  - destruct rel, rej, dlg; simpl; repeat split; discriminate.
  - destruct dlg; simpl; rewrite orb_false_r; repeat split; discriminate.
  - destruct dlg as [[|]|]; simpl.
    + assert (Hopen : rel = false).
      { destruct rel; [discriminate (Hdlg eq_refl) | reflexivity]. }
      subst rel. simpl.
      match goal with
      | |- context [handleApprove pdf ?w] => on_approve pdf w
      end; unfold inspectionSpecs in *; simpl in *;
        rewrite ?Hf, ?Ha, ?andb_false_r; simpl; repeat split;
        try reflexivity; try discriminate.
      now destruct pdf.
    + rewrite orb_false_r. repeat split; discriminate.
    + rewrite orb_false_r. repeat split; discriminate.
Qed.

Lemma sessionLog_view readOnly es :
  fst (Shift.sessionLog parseFloat init readOnly es)
  = session parseFloat init readOnly es.
Proof.
  unfold Shift.sessionLog, session.
  generalize (mount init readOnly) as v.
  generalize (@nil Effect) as l.
  induction es as [|e es IH]; intros l v; simpl; [reflexivity|].
  apply IH.
Qed.

Lemma sessionLog_count readOnly es :
  Shift.withinShift es ->
  certificateCalls (snd (Shift.sessionLog parseFloat init readOnly es))
  = (if lotReleased (session parseFloat init readOnly es)
     then 1 else 0)%nat.
Proof.
  intros Hes. rewrite <- sessionLog_view. unfold Shift.sessionLog.
  assert (G : forall acc,
             disposition_invariant (fst acc) ->
             certificateCalls (snd acc)
             = (if lotReleased (fst acc) then 1 else 0)%nat ->
             let r := fold_left (Shift.stepLog parseFloat init) es acc in
             certificateCalls (snd r)
             = (if lotReleased (fst r) then 1 else 0)%nat).
  { induction Hes as [|e es He _ IH]; intros [v l] Hinv Hcnt; simpl in *.
    - exact Hcnt.
    - apply IH; simpl.
      + now apply step_invariant.
      + destruct (step_release_count v e Hinv He) as [Hrel [Hc Hopen]].
        fold (step parseFloat init v e).
        rewrite certificateCalls_app, Hc, Hcnt, Hrel.
        destruct (releases e v).
        * rewrite (Hopen eq_refl). reflexivity.
        * rewrite orb_false_r. destruct (lotReleased v); reflexivity. }
  apply G; [apply mount_invariant | reflexivity].
Qed.

(** X9.  Within one shift the certificate generator is called at most
    once: the number of calls logged by a session without end of shift
    is one if the session has released the lot and zero otherwise. *)
Theorem one_certificate_per_shift readOnly es :
  Shift.withinShift es ->
  fst (Shift.sessionLog parseFloat init readOnly es)
  = session parseFloat init readOnly es /\
  certificateCalls (snd (Shift.sessionLog parseFloat init readOnly es))
  = (if lotReleased (session parseFloat init readOnly es)
     then 1 else 0)%nat.
Proof.
  intros Hes. split; [apply sessionLog_view | now apply sessionLog_count].
Qed.

(** *** Rejecting needs no reading *)

(** X10.  On an open lot the rejection always goes through: whatever
    the readings and the dialog shown, asking for the rejection and
    confirming it sets [lotRejected], leaves [lotReleased] false and the
    list untouched, closes the dialog, completes normally and never
    calls the certificate generator. *)
Theorem reject_is_unconditional v pdf :
  lotReleased v = false -> lotRejected v = false ->
  let asked := step parseFloat init v ClickReject in
  let r := dispatch parseFloat init (ConfirmDialog pdf) asked in
  completion r = Normal /\
  lotRejected (after r) = true /\
  lotReleased (after r) = false /\
  inspectionSpecs (after r) = inspectionSpecs v /\
  confirmDialog (after r) = None /\
  certificateCalls (effects r) = 0%nat.
Proof.
  unfold step, dispatch, lotReleased, lotRejected, inspectionSpecs.
  destruct v as [[specs rel rej] ro dlg]. simpl.
  intros -> ->. simpl. repeat split.
Qed.

(** *** A read-only view *)

Lemma step_readOnly v e :
  isReadOnly v = true ->
  isReadOnly (step parseFloat init v e) = true /\
  (inspectionSpecs (step parseFloat init v e) = inspectionSpecs v \/
   inspectionSpecs (step parseFloat init v e) = Shift.clearedTemplate init).
Proof.
  unfold step, dispatch, lotReleased, lotRejected, inspectionSpecs.
  destruct v as [[specs rel rej] ro dlg]. simpl. intros ->.
  destruct e as [i text| | | |pdf|]; simpl; auto.
  - rewrite orb_true_r. simpl. auto.
  - destruct rel, rej; simpl; auto.
  - destruct rel, rej; simpl; auto.
  - destruct dlg as [[|]|]; simpl; auto.
    match goal with
    | |- context [handleApprove pdf ?w] => on_approve pdf w
    end; simpl; auto.
Qed.

(** X11.  A view mounted read-only never stores a reading: in every
    state of its sessions the list is the template, or the template as
    the end of the shift resets it. *)
Theorem readOnly_keeps_the_readings es :
  inspectionSpecs (session parseFloat init true es) = init \/
  inspectionSpecs (session parseFloat init true es)
  = Shift.clearedTemplate init.
Proof.
  unfold session.
  assert (G : isReadOnly (fold_left (step parseFloat init) es
                            (mount init true)) = true /\
              (inspectionSpecs (fold_left (step parseFloat init) es
                                  (mount init true)) = init \/
               inspectionSpecs (fold_left (step parseFloat init) es
                                  (mount init true))
               = Shift.clearedTemplate init)).
  { apply fold_left_invariant
      with (P := fun v => isReadOnly v = true /\
                          (inspectionSpecs v = init \/
                           inspectionSpecs v = Shift.clearedTemplate init)).
    - intros v e [Hro Hspecs].
      destruct (step_readOnly v e Hro) as [Hro' [Hsame | Hreset]].
      + split; [exact Hro'|]. now rewrite Hsame.
      + split; [exact Hro'|]. now right.
    - split; [reflexivity | now left]. }
  exact (proj2 G).
Qed.

End ShiftFacts.

Lemma released_lot_was_inspected_witness :
  Forall Static.consistent Static.oneSpec /\
  Inspector.lotReleased
    (Inspector.session Inspector.sampleParse Static.oneSpec false
       [Inspector.ChangeActual 1 "0.50"; Inspector.ClickApprove;
        Inspector.ConfirmDialog Inspector.Threw]) = true /\
  forall s,
    In s (Inspector.inspectionSpecs
            (Inspector.session Inspector.sampleParse Static.oneSpec false
               [Inspector.ChangeActual 1 "0.50"; Inspector.ClickApprove;
                Inspector.ConfirmDialog Inspector.Threw])) ->
    Static.status s = Pass.
Proof.
  assert (Hc : Forall Static.consistent Static.oneSpec)
    by (repeat constructor).
  split; [exact Hc|]. split; [reflexivity|].
  exact (proj2 (released_lot_was_inspected Inspector.sampleParse
                  Static.oneSpec false
                  [Inspector.ChangeActual 1 "0.50";
                   Inspector.ClickApprove;
                   Inspector.ConfirmDialog Inspector.Threw])
           Hc eq_refl).
Defined.

Lemma disposition_is_final_witness :
  Shift.withinShift
    [Inspector.ClickApprove; Inspector.ConfirmDialog Inspector.Downloaded;
     Inspector.ChangeActual 1 "0.50"] /\
  Inspector.lotRejected
    (Shift.continue Inspector.sampleParse Static.INITIAL_SPECS
       (Inspector.session Inspector.sampleParse Static.INITIAL_SPECS false
          [Inspector.ClickReject; Inspector.ConfirmDialog Inspector.Downloaded])
       [Inspector.ClickApprove; Inspector.ConfirmDialog Inspector.Downloaded;
        Inspector.ChangeActual 1 "0.50"]) = true.
Proof.
  assert (Hw : Shift.withinShift
                 [Inspector.ClickApprove;
                  Inspector.ConfirmDialog Inspector.Downloaded;
                  Inspector.ChangeActual 1 "0.50"])
    by (repeat constructor).
  split; [exact Hw|].
  rewrite (disposition_is_final Inspector.sampleParse Static.INITIAL_SPECS
             false
             [Inspector.ClickReject;
              Inspector.ConfirmDialog Inspector.Downloaded]
             _ eq_refl Hw).
  reflexivity.
Defined.

Lemma one_certificate_per_shift_witness :
  Shift.withinShift
    [Inspector.ChangeActual 1 "0.50"; Inspector.ClickApprove;
     Inspector.ConfirmDialog Inspector.Threw; Inspector.ClickApprove;
     Inspector.ConfirmDialog Inspector.Downloaded] /\
  Inspector.certificateCalls
    (snd (Shift.sessionLog Inspector.sampleParse Static.oneSpec false
            [Inspector.ChangeActual 1 "0.50"; Inspector.ClickApprove;
             Inspector.ConfirmDialog Inspector.Threw; Inspector.ClickApprove;
             Inspector.ConfirmDialog Inspector.Downloaded])) = 1%nat.
Proof.
  assert (Hw : Shift.withinShift
                 [Inspector.ChangeActual 1 "0.50"; Inspector.ClickApprove;
                  Inspector.ConfirmDialog Inspector.Threw;
                  Inspector.ClickApprove;
                  Inspector.ConfirmDialog Inspector.Downloaded])
    by (repeat constructor).
  split; [exact Hw|].
  exact (proj2 (one_certificate_per_shift Inspector.sampleParse
                  Static.oneSpec false _ Hw)).
Defined.

Lemma reject_is_unconditional_witness :
  Inspector.lotReleased (Inspector.openView Static.INITIAL_SPECS) = false /\
  Inspector.lotRejected (Inspector.openView Static.INITIAL_SPECS) = false /\
  Inspector.lotRejected
    (Inspector.after
       (Inspector.dispatch Inspector.sampleParse Static.INITIAL_SPECS
          (Inspector.ConfirmDialog Inspector.Downloaded)
          (Inspector.step Inspector.sampleParse Static.INITIAL_SPECS
             (Inspector.openView Static.INITIAL_SPECS)
             Inspector.ClickReject))) = true.
Proof.
  split; [reflexivity|]. split; [reflexivity|].
  apply (reject_is_unconditional Inspector.sampleParse Static.INITIAL_SPECS
           (Inspector.openView Static.INITIAL_SPECS) Inspector.Downloaded
           eq_refl eq_refl).
Defined.
(* ------------------------------------------------------------------ *)
(** ** The dynamic form: lookups and statistics *)
(* ------------------------------------------------------------------ *)

Section FormFacts.
Import Dynamic.
Variable StringToNumber : string -> Js.number.

(** *** [getValue] *)

Lemma getValue_found values f v :
  find (fun x => String.eqb (fieldId x) f) values = Some v ->
  getValue values f = v.
Proof. unfold getValue. now intros ->. Qed.

Lemma getValue_absent values f :
  (forall x, In x values -> fieldId x <> f) ->
  getValue values f = Form.untouched f.
Proof.
  intros H. unfold getValue.
  destruct (find (fun x => String.eqb (fieldId x) f) values) as [v|] eqn:E;
    [|reflexivity].
  apply find_some in E. destruct E as [Hin Hv].
  apply String.eqb_eq in Hv. now elim (H v Hin).
Qed.

Lemma getValue_present values f :
  (exists x, In x values /\ fieldId x = f) ->
  In (getValue values f) values /\ fieldId (getValue values f) = f.
Proof.
  intros [x [Hin Hx]]. unfold getValue.
  destruct (find (fun y => String.eqb (fieldId y) f) values) as [v|] eqn:E.
  - apply find_some in E. destruct E as [Hv Hf].
    apply String.eqb_eq in Hf. auto.
  - apply (find_none _ _ E) in Hin.
    apply String.eqb_neq in Hin. congruence.
Qed.

(** With one entry per field, [getValue] returns the entry itself. *)
Lemma getValue_unique values x :
  NoDup (map fieldId values) -> In x values ->
  getValue values (fieldId x) = x.
Proof.
  induction values as [|y l IH]; intros Hnd Hin; [destruct Hin|].
  simpl in Hnd. apply NoDup_cons_iff in Hnd. destruct Hnd as [Hy Hl].
  unfold getValue. simpl.
  destruct (String.eqb (fieldId y) (fieldId x)) eqn:E.
  - destruct Hin as [-> | Hin]; [reflexivity|].
    apply String.eqb_eq in E. exfalso. apply Hy. rewrite E.
    now apply in_map.
  - destruct Hin as [-> | Hin].
    + rewrite String.eqb_refl in E. discriminate.
    + now apply IH.
Qed.

Lemma getValue_updateValue_other values f g v d :
  g <> f ->
  getValue (updateValue StringToNumber values f v d) g = getValue values g.
Proof.
  intros Hgf. unfold getValue, updateValue.
  assert (E : forall l e,
             fieldId e = f ->
             find (fun x => String.eqb (fieldId x) g)
                  (filter (fun x => negb (String.eqb (fieldId x) f)) l
                     ++ [e])
             = find (fun x => String.eqb (fieldId x) g) l).
  { intros l e He. induction l as [|x l IH]; simpl.
    - rewrite He. apply not_eq_sym in Hgf.
      apply String.eqb_neq in Hgf. now rewrite Hgf.
    - destruct (String.eqb (fieldId x) f) eqn:Ef; simpl.
      + apply String.eqb_eq in Ef. rewrite Ef.
        apply not_eq_sym in Hgf. apply String.eqb_neq in Hgf.
        now rewrite Hgf.
      + destruct (String.eqb (fieldId x) g); [reflexivity | exact IH]. }
  now rewrite E.
Qed.

(** X12.  Looking up the field just edited returns the entry
    [updateValue] appended: the given value with the status of the
    validator of the field's type.  Looking up any other field gives
    what it gave before the edit. *)
Theorem getValue_after_updateValue values f v d :
  getValue (updateValue StringToNumber values f v d) f
  = {| fieldId := f; value := v;
       status := Form.statusFor StringToNumber d v |} /\
  (forall g, g <> f ->
     getValue (updateValue StringToNumber values f v d) g
     = getValue values g).
Proof.
  split.
  - rewrite getValue_updateValue. unfold updateValue. now rewrite last_last.
  - intros g Hg. now apply getValue_updateValue_other.
Qed.

End FormFacts.

Section FormStatistics.
Import Dynamic.

(** X13.  [getValue] never fails.  For a field without entry it returns
    the synthesised entry (no value, Pending); for a field with an
    entry it returns an entry of the list with that field id, and when
    the list holds one entry per field, that very entry. *)
Theorem getValue_is_total_lookup values f :
  ((forall x, In x values -> fieldId x <> f) ->
   getValue values f = Form.untouched f) /\
  ((exists x, In x values /\ fieldId x = f) ->
   In (getValue values f) values /\ fieldId (getValue values f) = f) /\
  (forall x, NoDup (map fieldId values) -> In x values ->
     getValue values (fieldId x) = x).
Proof.
  split; [apply getValue_absent|].
  split; [apply getValue_present|].
  intros x. apply getValue_unique.
Qed.

(** *** [stats] *)

Lemma completed_split values :
  count (fun v => negb (Status_eqb (status v) Pending)) values
  = (count (fun v => Status_eqb (status v) Pass) values
     + count (fun v => Status_eqb (status v) Fail) values)%nat.
Proof.
  unfold count. induction values as [|x l IH]; simpl; [reflexivity|].
  destruct (status x); simpl; lia.
Qed.

(** X14.  In the statistics of the form, the completed entries are the
    passed and the failed ones; [allPass] holds exactly when as many
    entries pass as there are fields, none fails and there is a field
    at all; and [allPass] excludes [hasFailures]. *)
Theorem stats_arithmetic fields values :
  completed (stats fields values)
  = (passed (stats fields values) + failed (stats fields values))%nat /\
  (allPass (stats fields values) = true
   <-> passed (stats fields values) = total (stats fields values) /\
       failed (stats fields values) = 0%nat /\
       (0 < total (stats fields values))%nat) /\
  (allPass (stats fields values) = true ->
   hasFailures (stats fields values) = false /\
   allInspected (stats fields values) = true).
Proof.
  pose proof (completed_split values) as Hc.
  unfold stats. simpl.
  rewrite !andb_true_iff, !Nat.eqb_eq, Nat.ltb_lt, Nat.ltb_ge.
  repeat split; try lia.
Qed.

Lemma stats_arithmetic_witness :
  allPass (stats [finish] (replay noStrings
                             [("finish"%string, Js.JString "OK", finish)]))
  = true /\
  hasFailures (stats [finish] (replay noStrings
                                 [("finish"%string, Js.JString "OK", finish)]))
  = false.
Proof.
  split; [reflexivity|].
  apply (stats_arithmetic [finish]
           (replay noStrings [("finish"%string, Js.JString "OK", finish)])).
  reflexivity.
Defined.

(** *** The statistics and the fields *)

Lemma NoDup_map_filter (A B : Type) (f : A -> B) (p : A -> bool) l :
  NoDup (map f l) -> NoDup (map f (filter p l)).
Proof.
  induction l as [|x l IH]; simpl; intros H; [constructor|].
  apply NoDup_cons_iff in H. destruct H as [Hx Hl].
  destruct (p x); simpl; [|now apply IH].
  constructor; [|now apply IH].
  intros Hin. apply Hx. apply in_map_iff in Hin.
  destruct Hin as [y [Hy Hf]]. apply filter_In in Hf.
  apply in_map_iff. exists y. tauto.
Qed.

(** The ids of the entries that are not Pending. *)
Lemma completed_ids values :
  completed (stats [] values)
  = List.length
      (map fieldId
         (filter (fun v => negb (Status_eqb (status v) Pending)) values)).
Proof. unfold stats, count. simpl. now rewrite length_map. Qed.

Lemma completed_le_total fields values :
  Form.belongsTo fields values ->
  (completed (stats fields values) <= total (stats fields values))%nat.
Proof.
  intros [Hf [Hv Hincl]].
  change (completed (stats fields values))
    with (completed (stats [] values)).
  rewrite completed_ids. simpl.
  rewrite <- (length_map id fields).
  apply NoDup_incl_length.
  - now apply NoDup_map_filter.
  - intros g Hg. apply Hincl. apply in_map_iff in Hg.
    destruct Hg as [x [Hx Hin]]. apply filter_In in Hin.
    apply in_map_iff. exists x. tauto.
Qed.

Lemma allInspected_fields fields values :
  Form.belongsTo fields values ->
  (allInspected (stats fields values) = true
   <-> forall d, In d fields ->
         status (getValue values (id d)) <> Pending).
Proof.
  intros Hb. pose proof (completed_le_total fields values Hb) as Hle.
  destruct Hb as [Hf [Hv Hincl]].
  set (done := filter (fun v => negb (Status_eqb (status v) Pending)) values).
  assert (Hdone : NoDup (map fieldId done))
    by (now apply NoDup_map_filter).
  assert (Hlen : completed (stats fields values)
                 = List.length (map fieldId done)).
  { change (completed (stats fields values))
      with (completed (stats [] values)). apply completed_ids. }
  assert (Htot : total (stats fields values) = List.length (map id fields))
    by (simpl; now rewrite length_map).
  assert (Hsub : incl (map fieldId done) (map id fields)).
  { intros g Hg. apply Hincl. apply in_map_iff in Hg.
    destruct Hg as [x [Hx Hin]]. apply filter_In in Hin.
    apply in_map_iff. exists x. tauto. }
  change (allInspected (stats fields values))
    with ((completed (stats fields values)
           =? total (stats fields values))%nat).
  rewrite Nat.eqb_eq. split.
  - (* as many completed entries as fields: every field has one *)
    intros Heq d Hd.
    assert (Hall : incl (map id fields) (map fieldId done)).
    { apply NoDup_length_incl; [exact Hdone | lia | exact Hsub]. }
    assert (Hin : In (id d) (map fieldId done))
      by (apply Hall; now apply in_map).
    apply in_map_iff in Hin. destruct Hin as [x [Hx Hxd]].
    apply filter_In in Hxd. destruct Hxd as [Hxv Hxs].
    rewrite <- Hx, (getValue_unique values x Hv Hxv).
    apply negb_true_iff in Hxs. intros E. rewrite E in Hxs. discriminate.
  - (* every field has a completed entry: the counts agree *)
    intros Hall.
    assert (Hsup : incl (map id fields) (map fieldId done)).
    { intros g Hg. apply in_map_iff in Hg. destruct Hg as [d [<- Hd]].
      specialize (Hall d Hd).
      destruct (find (fun x => String.eqb (fieldId x) (id d)) values)
        as [x|] eqn:E.
      - rewrite (getValue_found values (id d) x E) in Hall.
        apply find_some in E. destruct E as [Hin Hx].
        apply String.eqb_eq in Hx. apply in_map_iff. exists x.
        split; [exact Hx|]. apply filter_In. split; [exact Hin|].
        apply negb_true_iff. destruct (status x); simpl; congruence.
      - unfold getValue in Hall. rewrite E in Hall. simpl in Hall.
        congruence. }
    pose proof (NoDup_incl_length Hf Hsup). lia.
Qed.

(** X15.  When the values belong to the form (field ids pairwise
    different, one entry at most per field, no entry for a field that is
    not in the list), the completed entries never outnumber the fields,
    and [allInspected] holds exactly when [getValue] gives a status
    other than Pending for every field of the form. *)
Theorem allInspected_means_every_field fields values :
  Form.belongsTo fields values ->
  (completed (stats fields values) <= total (stats fields values))%nat /\
  (allInspected (stats fields values) = true
   <-> forall d, In d fields ->
         status (getValue values (id d)) <> Pending).
Proof.
  intros Hb. split.
  - now apply completed_le_total.
  - now apply allInspected_fields.
Qed.

Lemma allInspected_means_every_field_witness :
  Form.belongsTo [diameter; finish]
    (replay noStrings
       [("finish"%string, Js.JString "OK", finish);
        ("diameter"%string, Js.JNumber Static.reading_060, diameter)]) /\
  forall d, In d [diameter; finish] ->
    status (getValue
              (replay noStrings
                 [("finish"%string, Js.JString "OK", finish);
                  ("diameter"%string, Js.JNumber Static.reading_060,
                   diameter)])
              (id d)) <> Pending.
Proof.
  assert (Hb : Form.belongsTo [diameter; finish]
                 (replay noStrings
                    [("finish"%string, Js.JString "OK", finish);
                     ("diameter"%string, Js.JNumber Static.reading_060,
                      diameter)])).
  { unfold Form.belongsTo. simpl. split; [|split].
    - constructor; [intros [H|[]]; discriminate|].
      constructor; [intros []|constructor].
    - constructor; [intros [H|[]]; discriminate|].
      constructor; [intros []|constructor].
    - intros g [<-|[<-|[]]]; simpl; auto. }
  split; [exact Hb|].
  apply (allInspected_means_every_field _ _ Hb). reflexivity.
Defined.

End FormStatistics.

Lemma getValue_after_updateValue_witness :
  "finish"%string <> "diameter"%string /\
  Dynamic.getValue
    (Dynamic.updateValue Dynamic.noStrings
       (Dynamic.replay Dynamic.noStrings
          [("finish"%string, Js.JString "OK", Dynamic.finish)])
       "diameter" (Js.JNumber Static.reading_060) Dynamic.diameter)
    "finish"
  = Dynamic.getValue
      (Dynamic.replay Dynamic.noStrings
         [("finish"%string, Js.JString "OK", Dynamic.finish)])
      "finish".
Proof.
  split; [discriminate|].
  apply (getValue_after_updateValue Dynamic.noStrings
           (Dynamic.replay Dynamic.noStrings
              [("finish"%string, Js.JString "OK", Dynamic.finish)])
           "diameter" (Js.JNumber Static.reading_060) Dynamic.diameter).
  discriminate.
Defined.

Lemma getValue_is_total_lookup_witness :
  (forall x, In x (@nil Dynamic.InspectionValue) ->
             Dynamic.fieldId x <> "finish"%string) /\
  Dynamic.getValue [] "finish" = Form.untouched "finish".
Proof.
  assert (H : forall x, In x (@nil Dynamic.InspectionValue) ->
                        Dynamic.fieldId x <> "finish"%string)
    by (intros x []).
  split; [exact H|].
  exact (proj1 (getValue_is_total_lookup [] "finish") H).
Defined.

(* ------------------------------------------------------------------ *)
(** ** Roles, permissions and the kiosk session *)
(* ------------------------------------------------------------------ *)

Section AuthFacts.
Import Auth.

Lemma Role_eqb_eq a b : Role_eqb a b = true <-> a = b.
Proof. destruct a, b; simpl; split; congruence. Qed.

(** X16.  The two derived flags agree with the permission table: the
    role that may edit inspection values, release a lot or reject a lot
    is the one [canEditInspection] names, and the role that may see
    defect trends or download reports is the one
    [canViewManagerDashboard] names; each flag names one role. *)
Theorem flags_agree_with_permissions role :
  hasPermission role "edit_inspection_values" = canEditInspection role /\
  hasPermission role "release_lot" = canEditInspection role /\
  hasPermission role "reject_lot" = canEditInspection role /\
  hasPermission role "view_defect_trends" = canViewManagerDashboard role /\
  hasPermission role "download_reports" = canViewManagerDashboard role /\
  (canEditInspection role = true <-> role = inspector) /\
  (canViewManagerDashboard role = true <-> role = manager).
Proof.
  destruct role; repeat split; try reflexivity; try discriminate.
Qed.

End AuthFacts.

Section SessionFacts.
Import Session.
Variable MOCK_CREDENTIALS : list UserCredential.
Variable VALID_LOT_PREFIXES : list string.
Variable toUpperCase : string -> string.
Variable trim : string -> string.
Variable LotInfo : Type.
Variable mockLot : string -> LotInfo.

(** *** [authenticate] *)

Lemma authenticate_refused p r (st : State LotInfo) :
  (forall c, In c MOCK_CREDENTIALS -> ~ (pin c = p /\ role c = r)) ->
  authenticate MOCK_CREDENTIALS p r st = (refused PinIncorrecto, st).
Proof.
  intros H. unfold authenticate.
  destruct (find _ MOCK_CREDENTIALS) as [c|] eqn:E; [|reflexivity].
  apply find_some in E. destruct E as [Hin Hc].
  apply andb_true_iff in Hc. destruct Hc as [Hp Hr].
  apply String.eqb_eq in Hp. apply Role_eqb_eq in Hr.
  now elim (H c Hin).
Qed.

Lemma authenticate_granted p r (st : State LotInfo) :
  (exists c, In c MOCK_CREDENTIALS /\ pin c = p /\ role c = r) ->
  exists c, In c MOCK_CREDENTIALS /\ pin c = p /\ role c = r /\
    authenticate MOCK_CREDENTIALS p r st
    = (ok,
       {| scannedLot := scannedLot st;
          currentUser := Some {| userName := name c; userRole := r |};
          currentRole := r;
          isLoading := isLoading st |}).
Proof.
  intros [c0 [Hin0 [Hp0 Hr0]]]. unfold authenticate.
  destruct (find _ MOCK_CREDENTIALS) as [c|] eqn:E.
  - apply find_some in E. destruct E as [Hin Hc].
    apply andb_true_iff in Hc. destruct Hc as [Hp Hr].
    apply String.eqb_eq in Hp. apply Role_eqb_eq in Hr.
    exists c. repeat split; auto. now rewrite Hr.
  - apply (find_none _ _ E) in Hin0.
    rewrite Hp0, Hr0, String.eqb_refl in Hin0. simpl in Hin0.
    assert (Auth.Role_eqb r r = true) by now apply Role_eqb_eq.
    congruence.
Qed.

(** X17.  [authenticate] succeeds exactly when the list holds a
    credential with the given PIN and the requested role.  On success
    the role becomes the requested one and the user shown is the holder
    of such a credential; the lot and the loading flag are untouched.
    Otherwise the answer is the PIN refusal and the state is unchanged. *)
Theorem authenticate_checks_pin_and_role p r (st : State LotInfo) :
  (success (fst (authenticate MOCK_CREDENTIALS p r st)) = true
   <-> exists c, In c MOCK_CREDENTIALS /\ pin c = p /\ role c = r) /\
  ((exists c, In c MOCK_CREDENTIALS /\ pin c = p /\ role c = r) ->
   exists c, In c MOCK_CREDENTIALS /\ pin c = p /\ role c = r /\
     authenticate MOCK_CREDENTIALS p r st
     = (ok,
        {| scannedLot := scannedLot st;
           currentUser := Some {| userName := name c; userRole := r |};
           currentRole := r;
           isLoading := isLoading st |})) /\
  ((forall c, In c MOCK_CREDENTIALS -> ~ (pin c = p /\ role c = r)) ->
   authenticate MOCK_CREDENTIALS p r st = (refused PinIncorrecto, st)).
Proof.
  split; [|split].
  - split.
    + intros Hs.
      destruct (find (fun c => String.eqb (pin c) p
                               && Auth.Role_eqb (role c) r)
                     MOCK_CREDENTIALS) as [c|] eqn:E.
      * apply find_some in E. destruct E as [Hin Hc].
        apply andb_true_iff in Hc. destruct Hc as [Hp Hr].
        apply String.eqb_eq in Hp. apply Role_eqb_eq in Hr. eauto.
      * unfold authenticate in Hs. rewrite E in Hs. discriminate.
    + intros H. destruct (authenticate_granted p r st H)
        as [c [_ [_ [_ ->]]]]. reflexivity.
  - apply authenticate_granted.
  - apply authenticate_refused.
Qed.

(** *** The session keeps the role and the user together *)

Lemma perform_authorised (st : State LotInfo) c :
  authorised MOCK_CREDENTIALS st ->
  authorised MOCK_CREDENTIALS
    (perform MOCK_CREDENTIALS VALID_LOT_PREFIXES toUpperCase trim
       mockLot st c).
Proof.
  intros H. destruct c as [s|s|p r| | | |b]; simpl; try exact H.
  - unfold scanLot_begin.
    destruct (negb (isValidLotFormat VALID_LOT_PREFIXES toUpperCase
                      (toUpperCase (trim s)))); exact H.
  - unfold authenticate.
    destruct (find _ MOCK_CREDENTIALS) as [c|] eqn:E; [|exact H].
    apply find_some in E. destruct E as [Hin _].
    unfold authorised. simpl. split; [reflexivity|].
    exists c. auto.
  - reflexivity.
  - reflexivity.
Qed.

Lemma run_snoc cs c :
  run MOCK_CREDENTIALS VALID_LOT_PREFIXES toUpperCase trim mockLot
    (cs ++ [c])
  = perform MOCK_CREDENTIALS VALID_LOT_PREFIXES toUpperCase trim mockLot
      (run MOCK_CREDENTIALS VALID_LOT_PREFIXES toUpperCase trim mockLot cs)
      c.
Proof. unfold run. rewrite fold_left_app. reflexivity. Qed.

(** A call that is no successful [authenticate] leaves role and user
    alone or puts the operator back. *)
Lemma perform_role (st : State LotInfo) c :
  (currentRole (perform MOCK_CREDENTIALS VALID_LOT_PREFIXES toUpperCase
                  trim mockLot st c) = currentRole st /\
   currentUser (perform MOCK_CREDENTIALS VALID_LOT_PREFIXES toUpperCase
                  trim mockLot st c) = currentUser st) \/
  currentRole (perform MOCK_CREDENTIALS VALID_LOT_PREFIXES toUpperCase
                 trim mockLot st c) = Auth.operator \/
  (exists p r, c = Authenticate p r /\
     success (fst (authenticate MOCK_CREDENTIALS p r st)) = true).
Proof.
  destruct c as [s|s|p r| | | |b]; simpl; auto.
  - left. unfold scanLot_begin.
    destruct (negb (isValidLotFormat VALID_LOT_PREFIXES toUpperCase
                      (toUpperCase (trim s)))); split; reflexivity.
  - unfold authenticate.
    destruct (find _ MOCK_CREDENTIALS) as [c|] eqn:E.
    + right. right. exists p, r. split; [reflexivity|].
      unfold authenticate. rewrite E. reflexivity.
    + left. split; reflexivity.
Qed.

(** The state after a successful check. *)
Lemma authenticate_checked p r (st : State LotInfo) :
  success (fst (authenticate MOCK_CREDENTIALS p r st)) = true ->
  exists c, In c MOCK_CREDENTIALS /\ pin c = p /\ role c = r /\
    currentRole (snd (authenticate MOCK_CREDENTIALS p r st)) = r /\
    currentUser (snd (authenticate MOCK_CREDENTIALS p r st))
    = Some {| userName := name c; userRole := r |}.
Proof.
  unfold authenticate.
  destruct (find _ MOCK_CREDENTIALS) as [c|] eqn:E; [|discriminate].
  intros _. apply find_some in E. destruct E as [Hin Hc].
  apply andb_true_iff in Hc. destruct Hc as [Hp Hr].
  apply String.eqb_eq in Hp. apply Role_eqb_eq in Hr.
  exists c. simpl. rewrite Hr. repeat split; auto.
Qed.

Lemma role_held_by_pin cs :
  currentRole (run MOCK_CREDENTIALS VALID_LOT_PREFIXES toUpperCase trim
                 mockLot cs) <> Auth.operator ->
  exists before p after c,
    cs = before ++ Authenticate p
                     (currentRole
                        (run MOCK_CREDENTIALS VALID_LOT_PREFIXES
                           toUpperCase trim mockLot cs)) :: after /\
    In c MOCK_CREDENTIALS /\ pin c = p /\
    role c = currentRole (run MOCK_CREDENTIALS VALID_LOT_PREFIXES
                            toUpperCase trim mockLot cs) /\
    success
      (fst (authenticate MOCK_CREDENTIALS p
              (currentRole (run MOCK_CREDENTIALS VALID_LOT_PREFIXES
                              toUpperCase trim mockLot cs))
              (run MOCK_CREDENTIALS VALID_LOT_PREFIXES toUpperCase trim
                 mockLot before))) = true /\
    currentUser (run MOCK_CREDENTIALS VALID_LOT_PREFIXES toUpperCase trim
                   mockLot cs)
    = Some {| userName := name c;
              userRole := currentRole
                            (run MOCK_CREDENTIALS VALID_LOT_PREFIXES
                               toUpperCase trim mockLot cs) |}.
Proof.
  induction cs as [|x cs IH] using rev_ind.
  - intro H. exfalso. apply H. reflexivity.
  - rewrite run_snoc.
    set (st := run MOCK_CREDENTIALS VALID_LOT_PREFIXES toUpperCase trim
                 mockLot cs) in *.
    destruct (perform_role st x) as [[Hr Hu] | [Ho | (p & r & -> & Hs)]].
    + rewrite Hr, Hu. intro H.
      destruct (IH H) as (before & p & after & c & Hcs & Hin & Hp & Hrole
                          & Hok & Huser).
      exists before, p, (after ++ [x]), c.
      split; [rewrite Hcs at 1; rewrite <- app_assoc; reflexivity|].
      repeat split; assumption.
    + intro H. elim (H Ho).
    + intros _. simpl.
      destruct (authenticate_checked p r st Hs)
        as (c & Hin & Hp & Hrole & Hr & Hu).
      rewrite Hr, Hu.
      exists cs, p, [], c. repeat split; assumption.
Qed.

(** X18.  In every state the provider reaches, a user is shown only
    together with the role of one of the listed credentials bearing the
    user's name, and that role is the current one; when no user is
    shown the role is the operator's.  A role other than the
    operator's is held only after a successful PIN check for that
    role: among the calls made there is an [authenticate] for the
    current role that succeeded in the state it was made in, with the
    PIN of a listed credential of that role, whose holder is the user
    shown. *)
Theorem role_needs_credential cs :
  let st := run MOCK_CREDENTIALS VALID_LOT_PREFIXES toUpperCase trim
              mockLot cs in
  (currentUser st = None -> currentRole st = Auth.operator) /\
  (forall u, currentUser st = Some u ->
     userRole u = currentRole st /\
     exists c, In c MOCK_CREDENTIALS /\
               name c = userName u /\ role c = currentRole st) /\
  (currentRole st <> Auth.operator ->
   exists before p after c,
     cs = before ++ Authenticate p (currentRole st) :: after /\
     In c MOCK_CREDENTIALS /\ pin c = p /\ role c = currentRole st /\
     success
       (fst (authenticate MOCK_CREDENTIALS p (currentRole st)
               (run MOCK_CREDENTIALS VALID_LOT_PREFIXES toUpperCase trim
                  mockLot before))) = true /\
     currentUser st
     = Some {| userName := name c; userRole := currentRole st |}).
Proof.
  intros st.
  assert (H : authorised MOCK_CREDENTIALS st).
  { unfold st, run. apply fold_left_invariant.
    - intros a b. apply perform_authorised.
    - reflexivity. }
  split; [|split; [|apply role_held_by_pin]].
  - unfold authorised in H. intro Eu. rewrite Eu in H. exact H.
  - unfold authorised in H. intros u Eu. rewrite Eu in H.
    destruct H as [Hr [c [Hin [Hn Hc]]]]. split; [exact Hr|].
    exists c. split; [exact Hin|]. split; [exact Hn | congruence].
Qed.

(** *** Lot numbers *)

(** X19.  A lot number shorter than six characters is never valid, and
    a failed scan leaves the session as it was, with the format
    notice.  Six or more letters and digits are valid whatever the list
    of prefixes; a string with any other character is valid only by its
    first three characters being a listed prefix. *)
Theorem lot_format_bounds lotNumber (st : State LotInfo) :
  ((String.length lotNumber < 6)%nat ->
   isValidLotFormat VALID_LOT_PREFIXES toUpperCase lotNumber = false) /\
  ((6 <= String.length lotNumber)%nat ->
   all_chars isAlphanumeric lotNumber = true ->
   isValidLotFormat VALID_LOT_PREFIXES toUpperCase lotNumber = true) /\
  (isValidLotFormat VALID_LOT_PREFIXES toUpperCase lotNumber = true ->
   all_chars isAlphanumeric lotNumber = false ->
   Auth.includes VALID_LOT_PREFIXES
     (toUpperCase (String.substring 0 3 lotNumber)) = true) /\
  (isValidLotFormat VALID_LOT_PREFIXES toUpperCase
     (toUpperCase (trim lotNumber)) = false ->
   scanLot_begin VALID_LOT_PREFIXES toUpperCase trim lotNumber st
   = (refused FormatoInvalido, None, st)).
Proof.
  unfold isValidLotFormat, scanLot_begin. repeat split.
  - intros H. apply Nat.ltb_lt in H. now rewrite H.
  - intros Hl Ha. assert (E : (String.length lotNumber <? 6)%nat = false)
      by (apply Nat.ltb_ge; lia).
    rewrite E, Ha. apply Nat.leb_le in Hl. rewrite Hl.
    apply orb_true_r.
  - intros H Ha.
    destruct (String.length lotNumber <? 6)%nat; [discriminate|].
    rewrite Ha in H. simpl in H. now rewrite orb_false_r in H.
  - intros H. unfold isValidLotFormat. now rewrite H.
Qed.

End SessionFacts.

Lemma authenticate_checks_pin_and_role_witness :
  (exists c, In c Session.sampleCredentials /\
             Session.pin c = "1234"%string /\
             Session.role c = Auth.inspector) /\
  Session.success
    (fst (Session.authenticate Session.sampleCredentials "1234"
            Auth.inspector (@Session.initial unit))) = true /\
  (forall c, In c Session.sampleCredentials ->
             ~ (Session.pin c = "1234"%string /\
                Session.role c = Auth.manager)) /\
  Session.authenticate Session.sampleCredentials "1234" Auth.manager
    (@Session.initial unit)
  = (Session.refused Session.PinIncorrecto, Session.initial).
Proof.
  assert (H1 : exists c, In c Session.sampleCredentials /\
                         Session.pin c = "1234"%string /\
                         Session.role c = Auth.inspector).
  { eexists. split; [left; reflexivity|]. split; reflexivity. }
  assert (H2 : forall c, In c Session.sampleCredentials ->
                         ~ (Session.pin c = "1234"%string /\
                            Session.role c = Auth.manager)).
  { intros c [<-|[<-|[]]] [Hp Hr]; discriminate. }
  pose proof (authenticate_checks_pin_and_role Session.sampleCredentials
                unit "1234" Auth.inspector Session.initial)
    as [Hiff _].
  pose proof (authenticate_checks_pin_and_role Session.sampleCredentials
                unit "1234" Auth.manager Session.initial)
    as [_ [_ Hno]].
  split; [exact H1|]. split; [exact (proj2 Hiff H1)|].
  split; [exact H2 | exact (Hno H2)].
Defined.

Lemma role_needs_credential_witness :
  Session.currentRole
    (Session.run Session.sampleCredentials [] (fun s => s) (fun s => s)
       (fun _ : string => tt)
       [Session.Authenticate "1234" Auth.inspector;
        Session.Authenticate "0000" Auth.manager])
  <> Auth.operator /\
  exists before p after c,
    [Session.Authenticate "1234" Auth.inspector;
     Session.Authenticate "0000" Auth.manager]
    = before ++ Session.Authenticate p Auth.inspector :: after /\
    In c Session.sampleCredentials /\ Session.pin c = p /\
    Session.role c = Auth.inspector.
Proof.
  assert (H : Session.currentRole
                (Session.run Session.sampleCredentials [] (fun s => s)
                   (fun s => s) (fun _ : string => tt)
                   [Session.Authenticate "1234" Auth.inspector;
                    Session.Authenticate "0000" Auth.manager])
              <> Auth.operator) by discriminate.
  split; [exact H|].
  destruct (proj2 (proj2 (role_needs_credential Session.sampleCredentials
                            [] (fun s => s) (fun s => s) unit
                            (fun _ : string => tt)
                            [Session.Authenticate "1234" Auth.inspector;
                             Session.Authenticate "0000" Auth.manager]))
                  H)
    as (before & p & after & c & Hcs & Hin & Hp & Hr & _).
  exists before, p, after, c.
  split; [exact Hcs|]. split; [exact Hin|]. split; [exact Hp | exact Hr].
Defined.

Lemma lot_format_bounds_witness :
  (String.length "STD26" < 6)%nat /\
  Session.isValidLotFormat ["STD"%string] (fun s => s) "STD26" = false /\
  (6 <= String.length "std260305")%nat /\
  Session.all_chars Session.isAlphanumeric "std260305" = true /\
  Session.isValidLotFormat [] (fun s => s) "std260305" = true.
Proof.
  pose proof (lot_format_bounds ["STD"%string] (fun s => s) (fun s => s)
                unit "STD26" Session.initial) as [Hshort _].
  pose proof (lot_format_bounds [] (fun s => s) (fun s => s)
                unit "std260305" Session.initial) as [_ [Hlong _]].
  assert (H5 : (String.length "STD26" < 6)%nat) by (simpl; lia).
  assert (H9 : (6 <= String.length "std260305")%nat) by (simpl; lia).
  split; [exact H5|]. split; [exact (Hshort H5)|].
  split; [exact H9|]. split; [reflexivity|].
  exact (Hlong H9 eq_refl).
Defined.

(* ------------------------------------------------------------------ *)
(** ** The part configuration store *)
(* ------------------------------------------------------------------ *)

Section StoreFacts.
Import PartConfig.

(** *** Looking a part up after a setter *)

Lemma onPart_absent i f l :
  (forall p, In p l -> id p <> i) -> onPart i f l = l.
Proof.
  intros H. unfold onPart. induction l as [|p l IH]; simpl; [reflexivity|].
  assert (E : String.eqb (id p) i = false)
    by (apply String.eqb_neq, H; now left).
  rewrite E. simpl. f_equal. apply IH. intros q Hq. apply H. now right.
Qed.

Lemma find_onPart i f l :
  (forall p, id (f p) = id p) ->
  find (fun p => String.eqb (id p) i) (onPart i f l)
  = option_map f (find (fun p => String.eqb (id p) i) l).
Proof.
  intros Hid. unfold onPart. induction l as [|p l IH]; simpl; [reflexivity|].
  destruct (String.eqb (id p) i) eqn:E; simpl.
  - now rewrite Hid, E.
  - rewrite E. exact IH.
Qed.

Lemma find_onPart_other i j f l :
  j <> i -> (forall p, id (f p) = id p) ->
  find (fun p => String.eqb (id p) j) (onPart i f l)
  = find (fun p => String.eqb (id p) j) l.
Proof.
  intros Hji Hid. unfold onPart.
  induction l as [|p l IH]; simpl; [reflexivity|].
  destruct (String.eqb (id p) i) eqn:E; simpl.
  - rewrite Hid. apply String.eqb_eq in E. rewrite E.
    apply not_eq_sym in Hji. apply String.eqb_neq in Hji.
    rewrite Hji. exact IH.
  - destruct (String.eqb (id p) j); [reflexivity | exact IH].
Qed.

Lemma find_absent (A : Type) (p : A -> bool) l :
  (forall x, In x l -> p x = false) -> find p l = None.
Proof.
  induction l as [|x l IH]; intros H; simpl; [reflexivity|].
  rewrite (H x (or_introl eq_refl)). apply IH.
  intros y Hy. apply H. now right.
Qed.

(** A filter that keeps what [p] accepts does not change [find p]. *)
Lemma find_filter (A : Type) (p q : A -> bool) l :
  (forall x, p x = true -> q x = true) ->
  find p (filter q l) = find p l.
Proof.
  intros H. induction l as [|x l IH]; simpl; [reflexivity|].
  destruct (p x) eqn:Ep.
  - rewrite (H x Ep). simpl. now rewrite Ep.
  - destruct (q x); simpl; [now rewrite Ep | exact IH].
Qed.

(** *** [reorderFields] *)

Lemma pick_ids fs ids :
  map Dynamic.id (pick fs ids)
  = filter (fun i => existsb (fun f => String.eqb (Dynamic.id f) i) fs) ids.
Proof.
  unfold pick. induction ids as [|i ids IH]; simpl; [reflexivity|].
  destruct (find (fun f => String.eqb (Dynamic.id f) i) fs) as [f|] eqn:E.
  - pose proof (find_some _ _ E) as [Hin Hf].
    assert (Hex : existsb (fun f => String.eqb (Dynamic.id f) i) fs = true)
      by (apply existsb_exists; eauto).
    rewrite Hex. simpl. apply String.eqb_eq in Hf. now rewrite Hf, IH.
  - assert (Hex : existsb (fun f => String.eqb (Dynamic.id f) i) fs = false).
    { destruct (existsb _ fs) eqn:Ex; [|reflexivity].
      apply existsb_exists in Ex. destruct Ex as [f [Hin Hf]].
      pose proof (find_none _ _ E f Hin) as Hn. simpl in Hn. congruence. }
    rewrite Hex. simpl. exact IH.
Qed.

Lemma find_unique fs f :
  NoDup (map Dynamic.id fs) -> In f fs ->
  find (fun g => String.eqb (Dynamic.id g) (Dynamic.id f)) fs = Some f.
Proof.
  induction fs as [|g l IH]; intros Hnd Hin; [destruct Hin|].
  simpl in Hnd. apply NoDup_cons_iff in Hnd. destruct Hnd as [Hg Hl].
  simpl. destruct (String.eqb (Dynamic.id g) (Dynamic.id f)) eqn:E.
  - destruct Hin as [-> | Hin]; [reflexivity|].
    apply String.eqb_eq in E. exfalso. apply Hg. rewrite E.
    now apply in_map.
  - destruct Hin as [-> | Hin].
    + rewrite String.eqb_refl in E. discriminate.
    + now apply IH.
Qed.

Lemma pick_own_ids fs l :
  NoDup (map Dynamic.id fs) -> incl l fs ->
  pick fs (map Dynamic.id l) = l.
Proof.
  intros Hnd. unfold pick. induction l as [|f l IH]; intros Hl; simpl;
    [reflexivity|].
  rewrite (find_unique fs f Hnd) by (apply Hl; now left).
  simpl. f_equal. apply IH. intros x Hx. apply Hl. now right.
Qed.

Lemma pick_permutation fs ids :
  NoDup (map Dynamic.id fs) ->
  Permutation ids (map Dynamic.id fs) ->
  Permutation (pick fs ids) fs.
Proof.
  intros Hnd Hp.
  rewrite <- (pick_own_ids fs fs Hnd (incl_refl fs)) at 2.
  unfold pick. now apply Permutation_flat_map.
Qed.

Lemma getPartById_withFields i g now st :
  getPartById i
    (setParts (onPart i (fun part => withFields part (g part) now)) st)
  = option_map (fun part => withFields part (g part) now)
      (getPartById i st).
Proof. unfold getPartById, setParts. simpl. now apply find_onPart. Qed.

(** X20.  [reorderFields] rebuilds the field list of the part from the
    given ids: the new ids are the given ids that name a field of the
    part, in the given order (unknown ids are skipped, unlisted fields
    are dropped, a repeated id repeats its field).  When the field ids
    of the part are pairwise different and the given ids are a
    permutation of them, the new list is a permutation of the old one:
    no field is lost or changed. *)
Theorem reorderFields_follows_the_ids partId fieldIds now st part :
  getPartById partId st = Some part ->
  fieldsOf partId (reorderFields partId fieldIds now st)
  = Some (pick (fields part) fieldIds) /\
  map Dynamic.id (pick (fields part) fieldIds)
  = filter (fun i => existsb (fun f => String.eqb (Dynamic.id f) i)
                             (fields part))
           fieldIds /\
  (NoDup (map Dynamic.id (fields part)) ->
   Permutation fieldIds (map Dynamic.id (fields part)) ->
   Permutation (pick (fields part) fieldIds) (fields part)).
Proof.
  intros Hp. split; [|split].
  - unfold fieldsOf, reorderFields.
    rewrite (getPartById_withFields partId
               (fun part => pick (fields part) fieldIds) now st), Hp.
    reflexivity.
  - apply pick_ids.
  - apply pick_permutation.
Qed.

(** *** Adding and removing a field *)

Lemma filter_fresh_app fs field :
  (forall f, In f fs -> Dynamic.id f <> Dynamic.id field) ->
  filter (fun f => negb (String.eqb (Dynamic.id f) (Dynamic.id field)))
         (fs ++ [field])
  = fs.
Proof.
  intros H. rewrite filter_app. simpl. rewrite String.eqb_refl. simpl.
  rewrite app_nil_r. induction fs as [|f l IH]; simpl; [reflexivity|].
  assert (E : String.eqb (Dynamic.id f) (Dynamic.id field) = false)
    by (apply String.eqb_neq, H; now left).
  rewrite E. simpl. f_equal. apply IH. intros g Hg. apply H. now right.
Qed.

(** X21.  Adding a field whose id is new to the part and removing it
    again gives back the field list of the part; after [removeField] no
    field of the part bears the removed id; and [addField] puts the new
    field last. *)
Theorem addField_then_removeField partId field now now' st part :
  getPartById partId st = Some part ->
  fieldsOf partId (addField partId field now st)
  = Some (fields part ++ [field]) /\
  (forall fs, fieldsOf partId (removeField partId (Dynamic.id field) now st)
              = Some fs ->
     forall f, In f fs -> Dynamic.id f <> Dynamic.id field) /\
  ((forall f, In f (fields part) -> Dynamic.id f <> Dynamic.id field) ->
   fieldsOf partId
     (removeField partId (Dynamic.id field) now'
        (addField partId field now st))
   = Some (fields part)).
Proof.
  intros Hp. split; [|split].
  - unfold fieldsOf, addField.
    rewrite (getPartById_withFields partId
               (fun part => fields part ++ [field]) now st), Hp.
    reflexivity.
  - intros fs Hfs f Hf. unfold fieldsOf, removeField in Hfs.
    rewrite (getPartById_withFields partId
               (fun part =>
                  filter (fun g => negb (String.eqb (Dynamic.id g)
                                           (Dynamic.id field)))
                         (fields part)) now st), Hp in Hfs.
    simpl in Hfs. injection Hfs as <-.
    apply filter_In in Hf. destruct Hf as [_ Hf].
    apply negb_true_iff in Hf. now apply String.eqb_neq.
  - intros Hfresh. unfold fieldsOf, removeField.
    rewrite (getPartById_withFields partId
               (fun part =>
                  filter (fun g => negb (String.eqb (Dynamic.id g)
                                           (Dynamic.id field)))
                         (fields part)) now' (addField partId field now st)).
    unfold addField.
    rewrite (getPartById_withFields partId
               (fun part => fields part ++ [field]) now st), Hp.
    simpl. f_equal. now apply filter_fresh_app.
Qed.

(** *** The setters address one part *)

Lemma withFields_id part fs now : id (withFields part fs now) = id part.
Proof. reflexivity. Qed.

(** X22.  The four field setters address one part: with an id that no
    part bears they return the store unchanged, and in any case they
    leave the revisions and every part with another id as they were. *)
Theorem field_setters_address_one_part partId field fieldId updates
    fieldIds now st :
  ((forall p, In p (parts st) -> id p <> partId) ->
   addField partId field now st = st /\
   updateField partId fieldId updates now st = st /\
   removeField partId fieldId now st = st /\
   reorderFields partId fieldIds now st = st) /\
  (revisions (addField partId field now st) = revisions st /\
   revisions (updateField partId fieldId updates now st) = revisions st /\
   revisions (removeField partId fieldId now st) = revisions st /\
   revisions (reorderFields partId fieldIds now st) = revisions st) /\
  (forall j, j <> partId ->
     getPartById j (addField partId field now st) = getPartById j st /\
     getPartById j (updateField partId fieldId updates now st)
     = getPartById j st /\
     getPartById j (removeField partId fieldId now st) = getPartById j st /\
     getPartById j (reorderFields partId fieldIds now st)
     = getPartById j st).
Proof.
  split; [|split].
  - intros H. destruct st as [ps rs].
    unfold addField, updateField, removeField, reorderFields, setParts.
    simpl in *. now rewrite !(onPart_absent partId _ ps H).
  - repeat split.
  - intros j Hj.
    unfold addField, updateField, removeField, reorderFields, getPartById,
      setParts. simpl.
    repeat split; apply find_onPart_other; auto.
Qed.

(** *** [deletePart] *)

(** X23.  After [deletePart] the part cannot be found, no revision of
    it is left and it has no active revision; the parts with another
    id, their revisions and their active revisions are as before. *)
Theorem deletePart_removes_part_and_revisions i st :
  getPartById i (deletePart i st) = None /\
  (forall rev, In rev (revisions (deletePart i st)) ->
     partConfigId rev <> i) /\
  getActiveRevision i (deletePart i st) = None /\
  (forall j, j <> i ->
     getPartById j (deletePart i st) = getPartById j st /\
     getActiveRevision j (deletePart i st) = getActiveRevision j st /\
     filter (fun rev => String.eqb (partConfigId rev) j)
            (revisions (deletePart i st))
     = filter (fun rev => String.eqb (partConfigId rev) j) (revisions st)).
Proof.
  assert (Hgone : getPartById i (deletePart i st) = None).
  { unfold getPartById, deletePart. simpl. apply find_absent.
    intros p Hp. apply filter_In in Hp. destruct Hp as [_ Hp].
    now apply negb_true_iff in Hp. }
  split; [exact Hgone|]. split; [|split].
  - intros rev Hr. unfold deletePart in Hr. simpl in Hr.
    apply filter_In in Hr. destruct Hr as [_ Hr].
    apply negb_true_iff in Hr. now apply String.eqb_neq.
  - unfold getActiveRevision. unfold getPartById in Hgone. now rewrite Hgone.
  - intros j Hj.
    assert (Hparts : forall (q : PartConfig -> bool),
               (forall p, q p = true -> id p = j) ->
               find q (parts (deletePart i st)) = find q (parts st)).
    { intros q Hq. unfold deletePart. simpl. apply find_filter.
      intros p Hp. apply negb_true_iff, String.eqb_neq.
      rewrite (Hq p Hp). exact Hj. }
    assert (Hfind : find (fun p => String.eqb (id p) j)
                         (parts (deletePart i st))
                    = find (fun p => String.eqb (id p) j) (parts st)).
    { apply Hparts. intros p Hp. now apply String.eqb_eq. }
    split; [exact Hfind|]. split.
    + unfold getActiveRevision. rewrite Hfind.
      destruct (find (fun p => String.eqb (id p) j) (parts st)) as [p|];
        [|reflexivity].
      unfold deletePart. simpl. apply find_filter.
      intros rev Hrev. apply andb_true_iff in Hrev. destruct Hrev as [Hrev _].
      apply String.eqb_eq in Hrev.
      apply negb_true_iff, String.eqb_neq. congruence.
    + unfold deletePart. simpl.
      induction (revisions st) as [|rev l IH]; simpl; [reflexivity|].
      destruct (String.eqb (partConfigId rev) i) eqn:Ei; simpl.
      * apply String.eqb_eq in Ei. rewrite Ei.
        apply not_eq_sym in Hj. apply String.eqb_neq in Hj.
        rewrite Hj. exact IH.
      * destruct (String.eqb (partConfigId rev) j); simpl; now rewrite IH.
Qed.

(** *** Revisions *)

Lemma find_snoc (A : Type) (p : A -> bool) l x :
  find p (l ++ [x])
  = match find p l with
    | Some y => Some y
    | None => if p x then Some x else None
    end.
Proof.
  induction l as [|y l IH]; simpl; [reflexivity|].
  destruct (p y); [reflexivity | exact IH].
Qed.

Lemma getPartById_updatePart partId updates now st :
  u_id updates = None ->
  getPartById partId (updatePart partId updates now st)
  = option_map
      (fun part =>
         {| id := id part;
            partNumber := orKeep (u_partNumber updates) (partNumber part);
            name := orKeep (u_name updates) (name part);
            currentRevision :=
              orKeep (u_currentRevision updates) (currentRevision part);
            fields := orKeep (u_fields updates) (fields part);
            blueprintUrl :=
              orKeep (u_blueprintUrl updates) (blueprintUrl part);
            createdAt := orKeep (u_createdAt updates) (createdAt part);
            updatedAt := now |})
      (getPartById partId st).
Proof.
  intro Hid. unfold getPartById, updatePart, setParts. simpl.
  rewrite find_onPart by (intro p; simpl; rewrite Hid; reflexivity).
  destruct (find _ (parts st)); simpl; [rewrite Hid|]; reflexivity.
Qed.

Lemma createRevision_found partId note author newRevId now later
    rendered pending part :
  getPartById partId rendered = Some part ->
  createRevision partId note author newRevId now later rendered pending
  = Some ({| revId := newRevId;
             partConfigId := partId;
             revision := getNextRevision (currentRevision part);
             revFields := fields part;
             revBlueprintUrl := blueprintUrl part;
             changeNote := note;
             revCreatedAt := now;
             createdBy := author |},
          updatePart partId
            {| u_id := None; u_partNumber := None; u_name := None;
               u_currentRevision :=
                 Some (getNextRevision (currentRevision part));
               u_fields := None; u_blueprintUrl := None;
               u_createdAt := None |}
            later
            (setRevisions
               (fun prev =>
                  prev ++ [ {| revId := newRevId;
                               partConfigId := partId;
                               revision :=
                                 getNextRevision (currentRevision part);
                               revFields := fields part;
                               revBlueprintUrl := blueprintUrl part;
                               changeNote := note;
                               revCreatedAt := now;
                               createdBy := author |} ])
               pending)).
Proof.
  unfold createRevision, getPartById. intros ->. reflexivity.
Qed.

(** X24.  [createRevision] throws, before any write, exactly when the
    parts as rendered hold no part of the id.  Otherwise it appends one
    revision to the revisions as the queue leaves them: a snapshot of
    the fields and the blueprint of the part as rendered, under the
    label that follows that part's current one, and it makes that
    label the current revision of the part without touching the
    part's fields as the queue leaves them.  The new revision is the
    active one provided no earlier revision of the part already bears
    the label.  In [handleCreateRevision], which saves the form with
    [updatePart] and then calls [createRevision] in the same render,
    the part ends with the fields of the form while the revision holds
    the fields the part had when rendered. *)
Theorem createRevision_snapshots_the_part
    partId note author newRevId now later rendered pending :
  (getPartById partId rendered = None ->
   createRevision partId note author newRevId now later rendered pending
   = None) /\
  (forall part, getPartById partId rendered = Some part ->
   exists rev st',
     createRevision partId note author newRevId now later rendered pending
     = Some (rev, st') /\
     partConfigId rev = partId /\
     revision rev = getNextRevision (currentRevision part) /\
     revFields rev = fields part /\
     revBlueprintUrl rev = blueprintUrl part /\
     revisions st' = revisions pending ++ [rev] /\
     (forall queued, getPartById partId pending = Some queued ->
        option_map currentRevision (getPartById partId st')
        = Some (revision rev) /\
        fieldsOf partId st' = Some (fields queued) /\
        ((forall r, In r (revisions pending) -> partConfigId r = partId ->
                    revision r <> revision rev) ->
         getActiveRevision partId st' = Some rev))) /\
  (forall trim selected formData revisionNote saved part,
     id selected = partId ->
     getPartById partId rendered = Some part ->
     trim revisionNote <> EmptyString ->
     exists rev st',
       Engineer.handleCreateRevision trim (Some selected) formData
         revisionNote newRevId saved now later rendered
       = Engineer.Created rev st' /\
       revision rev = getNextRevision (currentRevision part) /\
       revFields rev = fields part /\
       fieldsOf partId st' = Some (Engineer.fields formData) /\
       option_map currentRevision (getPartById partId st')
       = Some (revision rev) /\
       revisions st' = revisions rendered ++ [rev]).
Proof.
  split; [|split].
  - unfold createRevision, getPartById. now intros ->.
  - intros part Hp.
    rewrite (createRevision_found partId note author newRevId now later
               rendered pending part Hp).
    eexists. eexists. split; [reflexivity|]. simpl.
    repeat (split; [reflexivity|]).
    intros queued Hq.
    assert (Hfind :
      getPartById partId
        (updatePart partId
           {| u_id := None; u_partNumber := None; u_name := None;
              u_currentRevision :=
                Some (getNextRevision (currentRevision part));
              u_fields := None; u_blueprintUrl := None;
              u_createdAt := None |}
           later
           (setRevisions
              (fun prev =>
                 prev ++ [ {| revId := newRevId;
                              partConfigId := partId;
                              revision :=
                                getNextRevision (currentRevision part);
                              revFields := fields part;
                              revBlueprintUrl := blueprintUrl part;
                              changeNote := note;
                              revCreatedAt := now;
                              createdBy := author |} ])
              pending))
      = Some {| id := id queued; partNumber := partNumber queued;
                name := name queued;
                currentRevision := getNextRevision (currentRevision part);
                fields := fields queued;
                blueprintUrl := blueprintUrl queued;
                createdAt := createdAt queued;
                updatedAt := later |}).
    { rewrite getPartById_updatePart by reflexivity.
      unfold getPartById in *. simpl. rewrite Hq. reflexivity. }
    split; [rewrite Hfind; reflexivity|].
    split; [unfold fieldsOf; rewrite Hfind; reflexivity|].
    intros Hfresh. unfold getActiveRevision.
    unfold getPartById in Hfind. rewrite Hfind. simpl.
    rewrite find_snoc. simpl. rewrite !String.eqb_refl. simpl.
    rewrite find_absent; [reflexivity|].
    intros r Hr. apply andb_false_iff.
    destruct (String.eqb (partConfigId r) partId) eqn:E; [|now left].
    right. apply String.eqb_neq. apply String.eqb_eq in E.
    now apply (Hfresh r Hr).
  - intros trim selected formData revisionNote saved part Hid Hp Hn.
    unfold Engineer.handleCreateRevision.
    apply String.eqb_neq in Hn. rewrite Hn, Hid.
    rewrite (createRevision_found partId (trim revisionNote)
               "Ing. Sistema" newRevId now later rendered _ part Hp).
    eexists. eexists. split; [reflexivity|]. simpl revision.
    simpl revFields.
    split; [reflexivity|]. split; [reflexivity|].
    assert (Hfind :
      getPartById partId
        (updatePart partId
           {| u_id := None; u_partNumber := None; u_name := None;
              u_currentRevision :=
                Some (getNextRevision (currentRevision part));
              u_fields := None; u_blueprintUrl := None;
              u_createdAt := None |}
           later
           (setRevisions
              (fun prev =>
                 prev ++ [ {| revId := newRevId;
                              partConfigId := partId;
                              revision :=
                                getNextRevision (currentRevision part);
                              revFields := fields part;
                              revBlueprintUrl := blueprintUrl part;
                              changeNote := trim revisionNote;
                              revCreatedAt := now;
                              createdBy := "Ing. Sistema" |} ])
              (updatePart partId (Engineer.formUpdates formData) saved
                 rendered)))
      = Some {| id := id part;
                partNumber := Engineer.partNumber formData;
                name := Engineer.name formData;
                currentRevision := getNextRevision (currentRevision part);
                fields := Engineer.fields formData;
                blueprintUrl := blueprintUrl part;
                createdAt := createdAt part;
                updatedAt := later |}).
    { rewrite getPartById_updatePart by reflexivity.
      change (getPartById partId
                (setRevisions _ (updatePart partId
                                   (Engineer.formUpdates formData) saved
                                   rendered)))
        with (getPartById partId
                (updatePart partId (Engineer.formUpdates formData) saved
                   rendered)).
      rewrite getPartById_updatePart by reflexivity.
      rewrite Hp. reflexivity. }
    split; [unfold fieldsOf; rewrite Hfind; reflexivity|].
    split; [rewrite Hfind; reflexivity|].
    reflexivity.
Qed.

(** X25.  [createPart] with an id that no part bears makes the part
    retrievable by that id, and leaves the lookup of every other id as
    it was.  Its initial revision, a snapshot of the fields labelled
    with the given revision, is the part's active revision when the id
    is new to the revisions and the given label is not empty; with an
    empty label the revision is labelled "Rev A" while the part keeps
    the empty label, and the part has no active revision. *)
Theorem createPart_then_lookup partData newId newRevId now st :
  (forall p, In p (parts st) -> id p <> newId) ->
  (forall r, In r (revisions st) -> partConfigId r <> newId) ->
  let created := createPart partData newId newRevId now st in
  getPartById newId (snd created) = Some (fst created) /\
  id (fst created) = newId /\
  fields (fst created) = d_fields partData /\
  (forall j, j <> newId ->
     getPartById j (snd created) = getPartById j st) /\
  (d_currentRevision partData <> EmptyString ->
   exists rev, getActiveRevision newId (snd created) = Some rev /\
               revision rev = d_currentRevision partData /\
               revFields rev = d_fields partData) /\
  (d_currentRevision partData = EmptyString ->
   getActiveRevision newId (snd created) = None).
Proof.
  intros Hp Hr. simpl.
  assert (Hnone : find (fun p => String.eqb (id p) newId) (parts st) = None).
  { apply find_absent. intros p Hin. now apply String.eqb_neq, Hp. }
  assert (Hrev : forall q,
             find (fun rev => String.eqb (partConfigId rev) newId && q rev)
                  (revisions st) = None).
  { intros q. apply find_absent. intros r Hin.
    apply andb_false_iff. left. now apply String.eqb_neq, Hr. }
  unfold getPartById, getActiveRevision, createPart. simpl.
  rewrite !find_snoc, Hnone. simpl. rewrite String.eqb_refl.
  repeat split.
  - intros j Hj. rewrite find_snoc. simpl.
    apply not_eq_sym in Hj. apply String.eqb_neq in Hj.
    rewrite Hj.
    destruct (find (fun part => String.eqb (id part) j) (parts st));
      reflexivity.
  - intros Hne. apply String.eqb_neq in Hne. simpl.
    rewrite find_snoc.
    rewrite (Hrev (fun rev => String.eqb (revision rev)
                                (d_currentRevision partData))).
    simpl. rewrite Hne, !String.eqb_refl. simpl. eexists.
    split; [reflexivity|]. split; reflexivity.
  - intros E. simpl. rewrite find_snoc.
    rewrite (Hrev (fun rev => String.eqb (revision rev)
                                (d_currentRevision partData))).
    simpl. rewrite E. simpl. now rewrite String.eqb_refl.
Qed.

(** *** Revision labels *)

Lemma matchHere_letter s l : matchHere s = Some l -> isLetter l = true.
Proof.
  unfold matchHere.
  destruct s as [|r [|e [|v rest]]]; try discriminate.
  destruct (sameLetter r 82 && sameLetter e 69 && sameLetter v 86);
    [|discriminate].
  destruct (skipSpaces rest) as [|l0 r0]; [discriminate|].
  destruct (isLetter l0) eqn:El; [|discriminate].
  intros H. injection H as <-. exact El.
Qed.

Lemma firstMatch_letter s l : firstMatch s = Some l -> isLetter l = true.
Proof.
  induction s as [|c s IH]; intros H.
  - discriminate.
  - change (firstMatch (String c s))
      with (match matchHere (String c s) with
            | Some l' => Some l'
            | None => firstMatch s
            end) in H.
    destruct (matchHere (String c s)) as [l'|] eqn:E.
    + injection H as <-. now apply (matchHere_letter (String c s)).
    + now apply IH.
Qed.

Lemma labels_step :
  forallb (fun n => String.eqb (getNextRevision (revLabel n))
                               (revLabel (n + 1)))
          (seq 65 26) = true /\
  forallb (fun n => String.eqb (getNextRevision (revLabel n))
                               (revLabel (n - 32 + 1)))
          (seq 97 26) = true.
Proof. split; vm_compute; reflexivity. Qed.

Lemma labels_iterate :
  forallb (fun k => String.eqb (Nat.iter k getNextRevision "Rev A"%string)
                               (revLabel (65 + k)))
          (seq 0 27) = true.
Proof. vm_compute. reflexivity. Qed.

(** X26.  Revision labels advance by one letter: from "Rev X" with X an
    upper- or lower-case letter the next label is "Rev " with the next
    upper-case letter, so the first 26 revisions after "Rev A" are
    "Rev B" to "Rev Z".  The letter after Z is the character that
    follows it in the code table ("Rev ["), which is no letter, so the
    revision after that is "Rev A" again.  Whatever the current label,
    the next one is "Rev A" (nothing recognised) or "Rev " followed by
    one character from "B" to "[". *)
Theorem revision_labels_advance :
  (forall n, (65 <= n <= 90)%nat ->
     getNextRevision (revLabel n) = revLabel (n + 1)) /\
  (forall n, (97 <= n <= 122)%nat ->
     getNextRevision (revLabel n) = revLabel (n - 32 + 1)) /\
  (forall k, (k <= 26)%nat ->
     Nat.iter k getNextRevision "Rev A"%string = revLabel (65 + k)) /\
  getNextRevision (revLabel 91) = "Rev A"%string /\
  (forall s, getNextRevision s = "Rev A"%string \/
             exists n, (66 <= n <= 91)%nat /\
                       getNextRevision s = revLabel n).
Proof.
  destruct labels_step as [Hup Hlow]. pose proof labels_iterate as Hit.
  rewrite forallb_forall in Hup, Hlow, Hit.
  split; [|split; [|split; [|split]]].
  - intros n Hn. apply String.eqb_eq, Hup, in_seq. lia.
  - intros n Hn. apply String.eqb_eq, Hlow, in_seq. lia.
  - intros k Hk. apply String.eqb_eq, Hit, in_seq. lia.
  - reflexivity.
  - intros s. unfold getNextRevision.
    destruct (firstMatch s) as [l|] eqn:E; [|now left].
    right. apply firstMatch_letter in E. exists (upperCode l + 1)%nat.
    split; [|reflexivity].
    unfold isLetter in E. unfold upperCode.
    apply orb_true_iff in E.
    destruct E as [E|E]; apply andb_true_iff in E; destruct E as [E1 E2];
      apply Nat.leb_le in E1, E2;
      (destruct (97 <=? code l)%nat eqn:E3;
       [apply Nat.leb_le in E3 | apply Nat.leb_gt in E3]); lia.
Qed.

End StoreFacts.

Lemma reorderFields_follows_the_ids_witness :
  PartConfig.getPartById "part-1" PartConfig.sampleStore
  = Some PartConfig.samplePart /\
  NoDup (map Dynamic.id (PartConfig.fields PartConfig.samplePart)) /\
  Permutation ["finish"%string; "diameter"%string]
    (map Dynamic.id (PartConfig.fields PartConfig.samplePart)) /\
  PartConfig.fieldsOf "part-1"
    (PartConfig.reorderFields "part-1" ["finish"%string; "diameter"%string]
       "t1" PartConfig.sampleStore)
  = Some [Dynamic.finish; Dynamic.diameter] /\
  Permutation
    (PartConfig.pick (PartConfig.fields PartConfig.samplePart)
       ["finish"%string; "diameter"%string])
    (PartConfig.fields PartConfig.samplePart).
Proof.
  assert (Hnd : NoDup (map Dynamic.id
                         (PartConfig.fields PartConfig.samplePart))).
  { simpl. constructor; [intros [H|[]]; discriminate|].
    constructor; [intros []|constructor]. }
  assert (Hperm : Permutation ["finish"%string; "diameter"%string]
                    (map Dynamic.id
                       (PartConfig.fields PartConfig.samplePart)))
    by (simpl; apply perm_swap).
  pose proof (reorderFields_follows_the_ids "part-1"
                ["finish"%string; "diameter"%string] "t1"
                PartConfig.sampleStore PartConfig.samplePart eq_refl)
    as [Hf [_ Hp]].
  split; [reflexivity|]. split; [exact Hnd|]. split; [exact Hperm|].
  split; [exact Hf | exact (Hp Hnd Hperm)].
Defined.

Lemma addField_then_removeField_witness :
  PartConfig.getPartById "part-1" PartConfig.sampleStore
  = Some PartConfig.samplePart /\
  (forall f, In f (PartConfig.fields PartConfig.samplePart) ->
             Dynamic.id f <> Dynamic.id Form.visual) /\
  PartConfig.fieldsOf "part-1"
    (PartConfig.removeField "part-1" (Dynamic.id Form.visual) "t2"
       (PartConfig.addField "part-1" Form.visual "t1"
          PartConfig.sampleStore))
  = Some (PartConfig.fields PartConfig.samplePart).
Proof.
  assert (Hfresh : forall f,
             In f (PartConfig.fields PartConfig.samplePart) ->
             Dynamic.id f <> Dynamic.id Form.visual).
  { intros f [<-|[<-|[]]]; discriminate. }
  split; [reflexivity|]. split; [exact Hfresh|].
  apply (addField_then_removeField "part-1" Form.visual "t1" "t2"
           PartConfig.sampleStore PartConfig.samplePart eq_refl).
  exact Hfresh.
Defined.

Lemma field_setters_address_one_part_witness :
  (forall p, In p (PartConfig.parts PartConfig.sampleStore) ->
             PartConfig.id p <> "part-9"%string) /\
  PartConfig.removeField "part-9" "finish" "t1" PartConfig.sampleStore
  = PartConfig.sampleStore.
Proof.
  assert (H : forall p, In p (PartConfig.parts PartConfig.sampleStore) ->
                        PartConfig.id p <> "part-9"%string).
  { intros p [<-|[]]. discriminate. }
  split; [exact H|].
  apply (field_setters_address_one_part "part-9" Form.visual "finish"
           {| PartConfig.f_id := None; PartConfig.f_name := None;
              PartConfig.f_type := None; PartConfig.f_required := None;
              PartConfig.f_min := None; PartConfig.f_max := None;
              PartConfig.f_options := None; PartConfig.f_tool := None |}
           [] "t1" PartConfig.sampleStore).
  exact H.
Defined.

Lemma deletePart_removes_part_and_revisions_witness :
  "part-2"%string <> "part-1"%string /\
  PartConfig.getPartById "part-1"
    (PartConfig.deletePart "part-2" PartConfig.sampleStore)
  = Some PartConfig.samplePart.
Proof.
  split; [discriminate|].
  apply (deletePart_removes_part_and_revisions "part-2"
           PartConfig.sampleStore).
  discriminate.
Defined.

Lemma createRevision_snapshots_the_part_witness :
  PartConfig.getPartById "part-9" PartConfig.sampleStore = None /\
  PartConfig.createRevision "part-9" "note" "Ing. Sistema" "rev-2" "t1" "t2"
    PartConfig.sampleStore PartConfig.sampleStore = None /\
  PartConfig.getPartById "part-1" PartConfig.sampleStore
  = Some PartConfig.samplePart /\
  exists rev st',
    Engineer.handleCreateRevision (fun s => s) (Some PartConfig.samplePart)
      Engineer.sampleForm "note" "rev-2" "t0" "t1" "t2"
      PartConfig.sampleStore
    = Engineer.Created rev st' /\
    PartConfig.revision rev = "Rev B"%string /\
    PartConfig.revFields rev = [Dynamic.diameter; Dynamic.finish] /\
    PartConfig.fieldsOf "part-1" st' = Some [Dynamic.diameter].
Proof.
  pose proof (createRevision_snapshots_the_part "part-9" "note"
                "Ing. Sistema" "rev-2" "t1" "t2" PartConfig.sampleStore
                PartConfig.sampleStore)
    as [Hnone _].
  pose proof (createRevision_snapshots_the_part "part-1" "note"
                "Ing. Sistema" "rev-2" "t1" "t2" PartConfig.sampleStore
                PartConfig.sampleStore)
    as [_ [_ Hhandler]].
  assert (Hnote : (fun s : string => s) "note"%string <> EmptyString)
    by discriminate.
  split; [reflexivity|]. split; [exact (Hnone eq_refl)|].
  split; [reflexivity|].
  destruct (Hhandler (fun s => s) PartConfig.samplePart
              Engineer.sampleForm "note"%string "t0"%string
              PartConfig.samplePart eq_refl eq_refl Hnote)
    as (rev & st' & Hc & Hl & Hf & Hfields & _).
  exists rev, st'. split; [exact Hc|]. split; [exact Hl|].
  split; [exact Hf | exact Hfields].
Defined.

Lemma createPart_then_lookup_witness :
  (forall p, In p (PartConfig.parts PartConfig.sampleStore) ->
             PartConfig.id p <> "part-2"%string) /\
  (forall r, In r (PartConfig.revisions PartConfig.sampleStore) ->
             PartConfig.partConfigId r <> "part-2"%string) /\
  PartConfig.getActiveRevision "part-2"
    (snd (PartConfig.createPart
            {| PartConfig.d_partNumber := "410-00017";
               PartConfig.d_name := "Sleeve";
               PartConfig.d_currentRevision := EmptyString;
               PartConfig.d_fields := [Dynamic.finish];
               PartConfig.d_blueprintUrl := None |}
            "part-2" "rev-1" "t1" PartConfig.sampleStore)) = None.
Proof.
  assert (Hp : forall p, In p (PartConfig.parts PartConfig.sampleStore) ->
                         PartConfig.id p <> "part-2"%string).
  { intros p [<-|[]]. discriminate. }
  assert (Hr : forall r,
             In r (PartConfig.revisions PartConfig.sampleStore) ->
             PartConfig.partConfigId r <> "part-2"%string)
    by (intros r []).
  split; [exact Hp|]. split; [exact Hr|].
  apply (createPart_then_lookup
           {| PartConfig.d_partNumber := "410-00017";
              PartConfig.d_name := "Sleeve";
              PartConfig.d_currentRevision := EmptyString;
              PartConfig.d_fields := [Dynamic.finish];
              PartConfig.d_blueprintUrl := None |}
           "part-2" "rev-1" "t1" PartConfig.sampleStore Hp Hr).
  reflexivity.
Defined.

Lemma revision_labels_advance_witness :
  (65 <= 66 <= 90)%nat /\
  PartConfig.getNextRevision "Rev B" = "Rev C"%string.
Proof.
  assert (H : (65 <= 66 <= 90)%nat) by lia.
  split; [exact H|].
  exact (proj1 revision_labels_advance 66%nat H).
Defined.

(* ------------------------------------------------------------------ *)
(** ** Partial shipments *)
(* ------------------------------------------------------------------ *)

Section ShipmentFacts.
Import Shipments.
Variable trim : string -> string.
Variable parseInt : string -> Js.number.

(** A quantity above zero is above whatever is not. *)
Lemma positive_exceeds_nonpositive q r :
  Js.gt q Js.zero = true -> Js.le r Js.zero = true -> Js.gt q r = true.
Proof.
  unfold Js.gt, Js.le, Js.IsLessThan, Js.zero.
  destruct q as [ | [] | | [] ? ?], r as [ | [] | | [] ? ?];
    simpl; try discriminate; reflexivity.
Qed.

Lemma gt_zero_ordered q : Js.gt q Js.zero = true -> Js.isNaN q = false.
Proof. destruct q; simpl; try reflexivity; discriminate. Qed.

Lemma gt_NaN q r : Js.isNaN r = true -> Js.gt q r = false.
Proof. destruct r; try discriminate; reflexivity. Qed.

Lemma validateQty_none remaining value :
  validateQty trim parseInt remaining value = None <->
  trim value <> EmptyString /\ Js.isNaN (parseInt value) = false /\
  Js.gt (parseInt value) Js.zero = true /\
  Js.gt (parseInt value) remaining = false.
Proof.
  unfold validateQty.
  destruct (String.eqb (trim value) EmptyString) eqn:Et.
  - apply String.eqb_eq in Et. split; [discriminate | tauto].
  - apply String.eqb_neq in Et.
    destruct (Js.isNaN (parseInt value)) eqn:En.
    + split; [discriminate | intros (_ & H & _); discriminate].
    + rewrite (gt_negb_le (parseInt value) Js.zero En eq_refl).
      destruct (Js.le (parseInt value) Js.zero); simpl.
      * split; [discriminate | intros (_ & _ & H & _); discriminate].
      * destruct (Js.gt (parseInt value) remaining).
        -- split; [discriminate | intros (_ & _ & _ & H); discriminate].
        -- tauto.
Qed.

Lemma validateQty_complete remaining value :
  Js.le remaining Js.zero = true ->
  validateQty trim parseInt remaining value <> None.
Proof.
  intros Hc Hv. apply validateQty_none in Hv.
  destruct Hv as (_ & _ & Hp & Hr).
  rewrite (positive_exceeds_nonpositive _ _ Hp Hc) in Hr. discriminate.
Qed.

(** X27.  [validateQty] accepts a text exactly when it is not blank and
    the parsed quantity is a number above zero that does not exceed
    the remaining quantity.  With a remaining quantity that is a number
    an accepted quantity is at most the remaining one, which is then
    above zero; on a complete order (remaining <= 0) every text is
    refused; with a remaining quantity that is NaN the upper bound is
    void and every positive quantity is accepted. *)
Theorem validateQty_accepts_exactly remaining value :
  let qty := parseInt value in
  (validateQty trim parseInt remaining value = None <->
   trim value <> EmptyString /\ Js.isNaN qty = false /\
   Js.gt qty Js.zero = true /\ Js.gt qty remaining = false) /\
  (validateQty trim parseInt remaining value = None ->
   Js.isNaN remaining = false ->
   Js.le qty remaining = true /\ Js.gt remaining Js.zero = true) /\
  (Js.le remaining Js.zero = true ->
   validateQty trim parseInt remaining value <> None) /\
  (Js.isNaN remaining = true ->
   trim value <> EmptyString -> Js.gt qty Js.zero = true ->
   validateQty trim parseInt remaining value = None).
Proof.
  intro qty. subst qty. split; [apply validateQty_none | ].
  split; [ | split; [apply validateQty_complete | ] ].
  - intros Hv Hr. pose proof Hv as Hv'.
    apply validateQty_none in Hv'. destruct Hv' as (_ & Hn & _ & Hq).
    rewrite (gt_negb_le _ _ Hn Hr) in Hq.
    apply negb_false_iff in Hq. split; [exact Hq | ].
    rewrite (gt_negb_le remaining Js.zero Hr eq_refl).
    destruct (Js.le remaining Js.zero) eqn:E; [ | reflexivity].
    exfalso. exact (validateQty_complete remaining value E Hv).
  - intros Hr Ht Hp. apply validateQty_none.
    repeat split; [exact Ht | apply gt_zero_ordered; exact Hp | exact Hp
                  | apply gt_NaN; exact Hr].
Qed.

Lemma deliver_one s q r shipments :
  deliver [OnAddShipment s; ToastRecorded q r] shipments = shipments ++ [s].
Proof. reflexivity. Qed.

Lemma totalShipped_snoc shipments s :
  totalShipped (shipments ++ [s])
  = add (totalShipped shipments) (quantity s).
Proof. unfold totalShipped. rewrite fold_left_app. reflexivity. Qed.

(** X28.  [handleAddShipment], with [onAddShipment] bound to the hook's
    [addShipment]: a refused input records nothing, shows the error
    and keeps dialog and input; an accepted input appends exactly one
    shipment, whose quantity is the parsed input, above zero and not
    above the remaining quantity, after which the shipped total is the
    former total plus that quantity and the remaining quantity is the
    order's total minus it, and the dialog is closed with the input
    cleared; on a complete order nothing is recorded whatever the
    input; and a text typed while the shipments stay as they are, for
    which the Record button is enabled, is recorded by the click. *)
Theorem handleAddShipment_records_once
    order lot inspector totalQty nowText nowIso shipments t :
  let c := calculations totalQty shipments in
  let r := handleAddShipment trim parseInt order lot inspector totalQty
             nowText nowIso shipments t in
  let qty := parseInt (inputQty t) in
  (forall error,
     validateQty trim parseInt (remainingQty c) (inputQty t) = Some error ->
     deliver (snd r) shipments = shipments /\
     fst r = {| showAddDialog := showAddDialog t;
                inputQty := inputQty t;
                inputError := Some error |}) /\
  (validateQty trim parseInt (remainingQty c) (inputQty t) = None ->
   exists s,
     deliver (snd r) shipments = shipments ++ [s] /\
     quantity s = qty /\ orderId s = order /\ lotNumber s = lot /\
     inspectedBy s = inspector /\
     Js.gt qty Js.zero = true /\ Js.gt qty (remainingQty c) = false /\
     totalShipped (deliver (snd r) shipments) = add (shippedQty c) qty /\
     remainingQty (calculations totalQty (deliver (snd r) shipments))
     = sub totalQty (add (shippedQty c) qty) /\
     fst r = cancel t) /\
  (isComplete c = true -> deliver (snd r) shipments = shipments) /\
  (forall value,
     let t' := handleInputChange trim parseInt (remainingQty c) value t in
     recordEnabled t' = true ->
     exists s,
       deliver (snd (handleAddShipment trim parseInt order lot inspector
                       totalQty nowText nowIso shipments t'))
               shipments
       = shipments ++ [s] /\
       quantity s = parseInt value).
Proof.
  intros c r qty. subst r. unfold handleAddShipment. fold c.
  split; [ | split; [ | split] ].
  - intros error Hv. rewrite Hv. simpl. split; reflexivity.
  - intro Hv. rewrite Hv. simpl fst. simpl snd.
    apply validateQty_none in Hv. destruct Hv as (_ & _ & Hp & Hq).
    eexists. rewrite deliver_one.
    split; [reflexivity | ].
    repeat (split; [reflexivity || assumption | ]).
    split; [apply totalShipped_snoc | ].
    split; [ | reflexivity].
    unfold calculations at 1. simpl remainingQty.
    change (sumQuantities ?l) with (totalShipped l).
    rewrite totalShipped_snoc. reflexivity.
  - intro Hc.
    destruct (validateQty trim parseInt (remainingQty c) (inputQty t))
      eqn:Hv; [reflexivity | ].
    exfalso. exact (validateQty_complete _ _ Hc Hv).
  - intros value. cbv zeta. unfold recordEnabled, handleInputChange.
    simpl.
    destruct (validateQty trim parseInt _ value) eqn:Hv;
      [discriminate | ].
    intros _. eexists. split; reflexivity.
Qed.

End ShipmentFacts.

Lemma validateQty_accepts_exactly_witness :
  Js.le Shipments.five Shipments.ten = true /\
  Js.gt Shipments.ten Js.zero = true.
Proof.
  exact (proj1 (proj2 (validateQty_accepts_exactly
                         Shipments.sampleTrim Shipments.sampleParseInt
                         Shipments.ten "5"))
               eq_refl eq_refl).
Defined.

Lemma handleAddShipment_records_once_witness :
  exists s,
    Shipments.deliver
      (snd (Shipments.handleAddShipment
              Shipments.sampleTrim Shipments.sampleParseInt
              "ORD-1" "LOT001" "Inspector" Shipments.ten "1" "t"
              [] (Shipments.typed "5")))
      []
    = [s] /\
    Shipments.quantity s = Shipments.five.
Proof.
  destruct (proj1 (proj2 (handleAddShipment_records_once
                            Shipments.sampleTrim Shipments.sampleParseInt
                            "ORD-1" "LOT001" "Inspector" Shipments.ten
                            "1" "t" [] (Shipments.typed "5")))
                  eq_refl)
    as (s & Hd & Hq & _).
  exists s. split; [exact Hd | exact Hq].
Defined.

(* ------------------------------------------------------------------ *)
(** ** The dashboard *)
(* ------------------------------------------------------------------ *)

Section DashboardFacts.
Import Dashboard.
Variable MOCK_CREDENTIALS : list Session.UserCredential.
Variable VALID_LOT_PREFIXES : list string.
Variable toUpperCase : string -> string.
Variable trim : string -> string.
Variable LotInfo : Type.
Variable mockLot : string -> LotInfo.
Variable parseFloat : string -> Js.number.

(** The two facts about a view read its parent's cells and its dialog
    only. *)
Lemma disposition_invariant_ext v w :
  Inspector.parent v = Inspector.parent w ->
  Inspector.confirmDialog v = Inspector.confirmDialog w ->
  Inspector.disposition_invariant v -> Inspector.disposition_invariant w.
Proof.
  unfold Inspector.disposition_invariant, Inspector.lotReleased,
    Inspector.lotRejected.
  intros Hp Hd. rewrite Hp, Hd. trivial.
Qed.

Lemma release_sound_ext v w :
  Inspector.parent v = Inspector.parent w ->
  Shift.release_sound v -> Shift.release_sound w.
Proof.
  unfold Shift.release_sound, Inspector.lotReleased,
    Inspector.inspectionSpecs.
  intros Hp. rewrite Hp. trivial.
Qed.

Lemma sound_initial : sound MOCK_CREDENTIALS (@initial LotInfo).
Proof.
  unfold sound. simpl. repeat split; try discriminate.
  intro H. exfalso. apply H. reflexivity.
Qed.

(** Unmounting closes the dialog of a view that is not shown. *)
Lemma unmount_sound (st : State LotInfo) :
  Session.authorised MOCK_CREDENTIALS (session st) ->
  Inspector.disposition_invariant (view st) ->
  Shift.release_sound (view st) ->
  sound MOCK_CREDENTIALS (unmount st).
Proof.
  intros Ha Hd Hr. unfold unmount.
  destruct (inspectorShown st) eqn:Es.
  - repeat split; try assumption; try apply Hd. intros _. exact Es.
  - unfold sound. simpl. split; [exact Ha | ]. split; [ | split].
    + destruct Hd as [_ Hd]. split; [reflexivity | exact Hd].
    + exact Hr.
    + intro H. exfalso. apply H. reflexivity.
Qed.

Lemma withSession_sound s (st : State LotInfo) :
  Session.authorised MOCK_CREDENTIALS s ->
  sound MOCK_CREDENTIALS st ->
  Session.authorised MOCK_CREDENTIALS (session (withSession s st)) /\
  Inspector.disposition_invariant (view (withSession s st)) /\
  Shift.release_sound (view (withSession s st)).
Proof.
  intros Hs (_ & Hd & Hr & _). split; [exact Hs | ]. split.
  - exact (disposition_invariant_ext (view st) _ eq_refl eq_refl Hd).
  - exact (release_sound_ext (view st) _ eq_refl Hr).
Qed.

Lemma handle_sound (st : State LotInfo) e :
  sound MOCK_CREDENTIALS st ->
  Session.authorised MOCK_CREDENTIALS
    (session (handle MOCK_CREDENTIALS VALID_LOT_PREFIXES toUpperCase trim
                mockLot parseFloat e st)) /\
  Inspector.disposition_invariant
    (view (handle MOCK_CREDENTIALS VALID_LOT_PREFIXES toUpperCase trim
             mockLot parseFloat e st)) /\
  Shift.release_sound
    (view (handle MOCK_CREDENTIALS VALID_LOT_PREFIXES toUpperCase trim
             mockLot parseFloat e st)).
Proof.
  intros Hs. pose proof Hs as (Ha & Hd & Hr & Hv).
  destruct e as [c | p r | r | | e]; simpl.
  - apply withSession_sound; [ | exact Hs].
    apply perform_authorised. exact Ha.
  - apply withSession_sound; [ | exact Hs].
    exact (perform_authorised MOCK_CREDENTIALS VALID_LOT_PREFIXES
             toUpperCase trim LotInfo mockLot (session st)
             (Session.Authenticate p r) Ha).
  - unfold handleRoleChange. destruct (Auth.Role_eqb r Auth.operator).
    + apply withSession_sound; [ | exact Hs].
      exact (perform_authorised MOCK_CREDENTIALS VALID_LOT_PREFIXES
               toUpperCase trim LotInfo mockLot (session st)
               Session.SwitchToOperator Ha).
    + split; [exact Ha | split; [exact Hd | exact Hr]].
  - split; [ | split].
    + exact (perform_authorised MOCK_CREDENTIALS VALID_LOT_PREFIXES
               toUpperCase trim LotInfo mockLot (session st)
               Session.EndShift Ha).
    + split; [discriminate | reflexivity].
    + intro H. discriminate H.
  - unfold inspect.
    destruct (inspectorShown st && negb (Shift.isEndShift e));
      [ | split; [exact Ha | split; [exact Hd | exact Hr]]].
    split; [exact Ha | ]. split.
    + apply (disposition_invariant_ext
               (Inspector.step parseFloat Static.INITIAL_SPECS (view st) e));
        [reflexivity | reflexivity | ].
      apply step_invariant. exact Hd.
    + apply (release_sound_ext
               (Inspector.step parseFloat Static.INITIAL_SPECS (view st) e));
        [reflexivity | ].
      apply step_release_sound. exact Hr.
Qed.

Lemma step_sound (st : State LotInfo) e :
  sound MOCK_CREDENTIALS st ->
  sound MOCK_CREDENTIALS
    (step MOCK_CREDENTIALS VALID_LOT_PREFIXES toUpperCase trim mockLot
       parseFloat st e).
Proof.
  intro Hs. destruct (handle_sound st e Hs) as (Ha & Hd & Hr).
  unfold step. apply unmount_sound; assumption.
Qed.

Lemma run_sound es :
  sound MOCK_CREDENTIALS
    (run MOCK_CREDENTIALS VALID_LOT_PREFIXES toUpperCase trim mockLot
       parseFloat es).
Proof.
  unfold run. apply fold_left_invariant; [ | exact sound_initial].
  intros a b. apply step_sound.
Qed.

Lemma unmount_inspection (st : State LotInfo) :
  inspection (unmount st) = inspection st.
Proof. unfold unmount. destruct (inspectorShown st); reflexivity. Qed.

(** A shown inspector view has an inspector at work. *)
Lemma shown_at_work (st : State LotInfo) :
  Session.authorised MOCK_CREDENTIALS (session st) ->
  inspectorShown st = true ->
  inspectorAtWork MOCK_CREDENTIALS st.
Proof.
  unfold inspectorShown, inspectorAtWork, Session.authorised.
  intros Ha Hs. apply andb_true_iff in Hs. destruct Hs as [Hk Hr].
  apply negb_true_iff in Hk. apply Role_eqb_eq in Hr.
  split; [exact Hk | ]. split; [exact Hr | ].
  destruct (Session.currentUser (session st)) as [u | ].
  - destruct Ha as (Hu & c & Hc & Hn & Hrole).
    exists c. split; [exact Hc | ]. split; [congruence | ].
    destruct u as [n r]. simpl in *. f_equal. f_equal; congruence.
  - rewrite Hr in Ha. discriminate.
Qed.

(** X29.  In every run of the dashboard, an event that changes one of
    the page's inspection cells (the readings with their statuses, the
    released flag, the rejected flag) is either the end of the shift
    or an event of the inspector view that occurs while a lot is
    scanned and the current user holds the inspector's role by a
    listed credential. *)
Theorem inspection_changes_need_an_inspector es e :
  let st := run MOCK_CREDENTIALS VALID_LOT_PREFIXES toUpperCase trim
              mockLot parseFloat es in
  inspection (step MOCK_CREDENTIALS VALID_LOT_PREFIXES toUpperCase trim
                mockLot parseFloat st e)
  <> inspection st ->
  e = EndShift \/
  ((exists e', e = Inspect e') /\ inspectorAtWork MOCK_CREDENTIALS st).
Proof.
  intros st Hne. destruct (run_sound es) as (Ha & _). fold st in Ha.
  unfold step in Hne. rewrite unmount_inspection in Hne.
  destruct e as [c | p r | r | | e]; simpl in Hne.
  - exfalso. apply Hne. reflexivity.
  - exfalso. apply Hne. reflexivity.
  - exfalso. apply Hne. unfold handleRoleChange.
    destruct (Auth.Role_eqb r Auth.operator); reflexivity.
  - left. reflexivity.
  - right. split; [exists e; reflexivity | ].
    unfold inspect in Hne.
    destruct (inspectorShown st) eqn:Es.
    + apply shown_at_work; assumption.
    + exfalso. apply Hne. reflexivity.
Qed.

(** X30.  In every state the dashboard reaches, whatever the changes of
    role and lot in between: a released lot has a reading for every
    characteristic and no failure, the lot is not both released and
    rejected, the view's dialog is open only while the view is shown
    on an open lot, a lot that is released or rejected keeps its
    readings and flags under every event but the end of the shift, and
    the end of the shift puts back the template with both flags down,
    the kiosk mode and the operator's role. *)
Theorem dashboard_release_is_sound es :
  let st := run MOCK_CREDENTIALS VALID_LOT_PREFIXES toUpperCase trim
              mockLot parseFloat es in
  (Static.lotReleased (inspection st) = true ->
   Inspector.allPass (Static.specs (inspection st)) = true) /\
  Static.lotReleased (inspection st) && Static.lotRejected (inspection st)
  = false /\
  (forall d, viewDialog st = Some d ->
     inspectorShown st = true /\
     Static.lotReleased (inspection st) = false /\
     Static.lotRejected (inspection st) = false) /\
  (forall e,
     Static.lotReleased (inspection st)
     || Static.lotRejected (inspection st) = true ->
     e <> EndShift ->
     inspection (step MOCK_CREDENTIALS VALID_LOT_PREFIXES toUpperCase trim
                   mockLot parseFloat st e)
     = inspection st) /\
  (let st' := step MOCK_CREDENTIALS VALID_LOT_PREFIXES toUpperCase trim
                mockLot parseFloat st EndShift in
   inspection st'
   = {| Static.specs := Static.INITIAL_SPECS;
        Static.lotReleased := false;
        Static.lotRejected := false |} /\
   viewDialog st' = None /\
   Session.isKioskMode (session st') = true /\
   Session.currentRole (session st') = Auth.operator /\
   Session.currentUser (session st') = None).
Proof.
  intros st. destruct (run_sound es) as (Ha & Hd & Hr & Hv). fold st in Ha, Hd, Hr, Hv.
  split; [exact Hr | ]. split; [apply Hd | ]. split; [ | split].
  - intros d Hdl. split; [apply Hv; congruence | ].
    exact (dialog_open_lot_open (view st) d Hd Hdl).
  - intros e Hf Hne. unfold step. rewrite unmount_inspection.
    destruct e as [c | p r | r | | e]; simpl; try reflexivity.
    + unfold handleRoleChange.
      destruct (Auth.Role_eqb r Auth.operator); reflexivity.
    + exfalso. apply Hne. reflexivity.
    + unfold inspect.
      destruct (inspectorShown st); [ | reflexivity].
      destruct (Shift.isEndShift e) eqn:Ee; [reflexivity | ]. simpl.
      rewrite (step_finalised parseFloat Static.INITIAL_SPECS (view st) e);
        [reflexivity | exact Hf | | exact Ee].
      destruct Hd as [Hd _]. exact (Hd Hf).
  - unfold step, unmount, inspectorShown. simpl.
    repeat split; reflexivity.
Qed.

End DashboardFacts.

Lemma inspection_changes_need_an_inspector_witness :
  Dashboard.inspectorAtWork Session.sampleCredentials
    (Dashboard.run Session.sampleCredentials [] (fun s => s) (fun s => s)
       (fun s => s) Inspector.sampleParse Dashboard.signedIn).
Proof.
  destruct (inspection_changes_need_an_inspector
              Session.sampleCredentials [] (fun s => s) (fun s => s)
              string (fun s => s) Inspector.sampleParse
              Dashboard.signedIn
              (Dashboard.Inspect (Inspector.ChangeActual 1 "0.50")))
    as [He | [_ Hw]].
  - vm_compute. discriminate.
  - discriminate He.
  - exact Hw.
Defined.

Lemma dashboard_release_is_sound_witness :
  Inspector.allPass
    (Static.specs
       (Dashboard.inspection
          (Dashboard.run Session.sampleCredentials [] (fun s => s)
             (fun s => s) (fun s => s) Dashboard.sampleReading
             Dashboard.releasing)))
  = true.
Proof.
  exact (proj1 (dashboard_release_is_sound
                  Session.sampleCredentials [] (fun s => s) (fun s => s)
                  string (fun s => s) Dashboard.sampleReading
                  Dashboard.releasing)
               eq_refl).
Defined.
